(** * STAC search over a catalog of linked resources (pygeoapi/api/stac.py)

    A shallow embedding of the STAC endpoints of [pygeoapi/api/stac.py]:
    the catalog root, the path resolver, the collections listing and the
    item search with its recursive flattening of catalog links, its filter
    stage (ids, bbox, intersects) and the final sort and truncation.

    Python values coming from JSON are embedded as [pyval]; dictionaries
    keep their insertion order (association lists with unique keys); a
    float is the rational it stands for, which is exact for the comparisons
    made here. Exceptions are results [Exn e]; provider calls are recorded
    in a trace; the only unbounded recursion, [_recursiveSearchItems], takes
    fuel, and [Diverge] is a recursion that does not end (the interpreter
    would cut it off at its recursion limit). *)

From Stdlib Require Import List String Ascii Bool Arith ZArith QArith Qminmax Lia Lqa.
From Stdlib Require Import Permutation Sorted Relations OrderedTypeEx.
Import ListNotations.

Local Open Scope string_scope.
Local Open Scope list_scope.

(** ** Python strings *)

Module Str.

(** [s[1:]] *)
Definition tail (s : string) : string :=
  match s with
  | EmptyString => EmptyString
  | String _ t => t
  end.

(** [s.split(sep)] for a non-empty separator: leftmost, non-overlapping
    occurrences. [skip] counts the characters of a matched separator that
    are still to be consumed, [cur] is the piece being read. *)
Fixpoint split_go (sep : string) (skip : nat) (cur s : string) : list string :=
  match s with
  | EmptyString => [cur]
  | String c s' =>
      match skip with
      | S k => split_go sep k cur s'
      | O =>
          if String.prefix sep s
          then cur :: split_go sep (String.length sep - 1) EmptyString s'
          else split_go sep 0 (cur ++ String c EmptyString) s'
      end
  end.

Definition split (sep s : string) : list string := split_go sep 0 EmptyString s.

(** [l[-1]] on the result of a split, which is never empty. *)
Definition last (l : list string) : string := List.last l EmptyString.

(** [l[0]] on the result of a split. *)
Definition first (l : list string) : string := List.hd EmptyString l.

(** [s.endswith(suf)] *)
Definition endswith (suf s : string) : bool :=
  let n := String.length s in
  let m := String.length suf in
  (m <=? n)%nat && String.eqb (String.substring (n - m) m s) suf.

(** [sub in s] for two strings *)
Definition contains (sub s : string) : bool :=
  match sub with
  | EmptyString => true
  | _ => match String.index 0 sub s with Some _ => true | None => false end
  end.

(** [s.replace(old, new, 1)] *)
Definition replace_first (old new s : string) : string :=
  match old with
  | EmptyString => new ++ s
  | _ =>
      match String.index 0 old s with
      | Some i =>
          String.substring 0 i s ++ new ++
          String.substring (i + String.length old)
                           (String.length s - (i + String.length old)) s
      | None => s
      end
  end.

(** the characters of a string, as one-character strings *)
Fixpoint chars (s : string) : list string :=
  match s with
  | EmptyString => []
  | String c t => String c EmptyString :: chars t
  end.

End Str.

(** ** Python values *)

#[warnings="-register-all"]
Inductive pyval : Type :=
| PNone
| PBool (b : bool)
| PInt (z : Z)
| PFloat (q : Q)
| PStr (s : string)
| PList (l : list pyval)
| PDict (d : list (string * pyval)).

Definition dict := list (string * pyval).

Inductive exn : Type :=
| KeyError
| TypeError
| IndexError
| AttributeError
| ValueError
| PluginError.

Inductive outcome (A : Type) : Type :=
| Ret (a : A)
| Exn (e : exn)
| Diverge.

Arguments Ret {A} a.
Arguments Exn {A} e.
Arguments Diverge {A}.

Definition obind {A B} (m : outcome A) (f : A -> outcome B) : outcome B :=
  match m with
  | Ret a => f a
  | Exn e => Exn e
  | Diverge => Diverge
  end.

Declare Scope py_scope.
Delimit Scope py_scope with py.
Notation "x <~ m ;; k" := (obind m (fun x => k))
  (at level 61, m at next level, right associativity) : py_scope.
Local Open Scope py_scope.

Fixpoint omap {A B} (f : A -> outcome B) (l : list A) : outcome (list B) :=
  match l with
  | [] => Ret []
  | x :: r => y <~ f x ;; ys <~ omap f r ;; Ret (y :: ys)
  end.

(** ** Dictionaries *)

Module Dict.

Fixpoint get (k : string) (d : dict) : option pyval :=
  match d with
  | [] => None
  | (k', v) :: r => if String.eqb k k' then Some v else get k r
  end.

Definition mem (k : string) (d : dict) : bool :=
  match get k d with Some _ => true | None => false end.

(** [d[k] = v]: an existing key keeps its position *)
Fixpoint set (k : string) (v : pyval) (d : dict) : dict :=
  match d with
  | [] => [(k, v)]
  | (k', v') :: r =>
      if String.eqb k k' then (k, v) :: r else (k', v') :: set k v r
  end.

(** [del d[k]] *)
Definition del (k : string) (d : dict) : dict :=
  filter (fun kv => negb (String.eqb k (fst kv))) d.

Definition keys (d : dict) : list string := map fst d.

(** [d.update(e)] *)
Definition update (d e : dict) : dict :=
  fold_left (fun acc kv => set (fst kv) (snd kv) acc) e d.

(** [d.get(k, default)] *)
Definition get_default (k : string) (default : pyval) (d : dict) : pyval :=
  match get k d with Some v => v | None => default end.

End Dict.

(** ** Operators on Python values *)

Definition num_of (v : pyval) : option Q :=
  match v with
  | PBool true => Some 1%Q
  | PBool false => Some 0%Q
  | PInt z => Some (inject_Z z)
  | PFloat q => Some q
  | _ => None
  end.

(** [a == b] *)
Fixpoint py_eq (a b : pyval) {struct a} : bool :=
  match a, b with
  | PNone, PNone => true
  | PStr s, PStr t => String.eqb s t
  | PList l, PList m =>
      (fix go (l m : list pyval) {struct l} : bool :=
         match l, m with
         | [], [] => true
         | x :: l', y :: m' => py_eq x y && go l' m'
         | _, _ => false
         end) l m
  | PDict d, PDict e =>
      Nat.eqb (List.length d) (List.length e) &&
      (fix all (d : list (string * pyval)) {struct d} : bool :=
         match d with
         | [] => true
         | (k, v) :: d' =>
             match Dict.get k e with
             | Some w => py_eq v w
             | None => false
             end && all d'
         end) d
  | _, _ =>
      match num_of a, num_of b with
      | Some x, Some y => Qeq_bool x y
      | _, _ => false
      end
  end.

(** [v == 'literal'] *)
Definition is_str (v : pyval) (s : string) : bool := py_eq v (PStr s).

(** [a < b]; unordered kinds raise [TypeError] *)
Fixpoint py_lt (a b : pyval) {struct a} : outcome bool :=
  match a, b with
  | PStr s, PStr t => Ret (String.ltb s t)
  | PList l, PList m =>
      (fix go (l m : list pyval) {struct l} : outcome bool :=
         match l, m with
         | [], [] => Ret false
         | [], _ :: _ => Ret true
         | _ :: _, [] => Ret false
         | x :: l', y :: m' => if py_eq x y then go l' m' else py_lt x y
         end) l m
  | _, _ =>
      match num_of a, num_of b with
      | Some x, Some y => Ret (negb (Qle_bool y x))
      | _, _ => Exn TypeError
      end
  end.

(** [v[k]] for a string key *)
Definition getitem (v : pyval) (k : string) : outcome pyval :=
  match v with
  | PDict d => match Dict.get k d with Some w => Ret w | None => Exn KeyError end
  | _ => Exn TypeError
  end.

(** [v[0]] *)
Definition getitem0 (v : pyval) : outcome pyval :=
  match v with
  | PList (x :: _) => Ret x
  | PList [] => Exn IndexError
  | PStr (String c _) => Ret (PStr (String c EmptyString))
  | PStr EmptyString => Exn IndexError
  | PDict _ => Exn KeyError
  | _ => Exn TypeError
  end.

(** iteration: [for x in v] *)
Definition py_iter (v : pyval) : outcome (list pyval) :=
  match v with
  | PList l => Ret l
  | PStr s => Ret (map PStr (Str.chars s))
  | PDict d => Ret (map PStr (Dict.keys d))
  | _ => Exn TypeError
  end.

(** [x in c] *)
Definition py_in (x c : pyval) : outcome bool :=
  match c with
  | PList l => Ret (existsb (py_eq x) l)
  | PStr s =>
      match x with
      | PStr t => Ret (Str.contains t s)
      | _ => Exn TypeError
      end
  | PDict d =>
      match x with
      | PStr t => Ret (Dict.mem t d)
      | PList _ | PDict _ => Exn TypeError
      | _ => Ret false
      end
  | _ => Exn TypeError
  end.

(** ** Requests, configuration, providers and responses *)

Definition headers := list (string * string).

Inductive HTTPStatus : Type :=
| OK
| BAD_REQUEST
| NOT_FOUND
| INTERNAL_SERVER_ERROR.

(** The third component of a response: JSON text (kept as the value it
    encodes), a rendered HTML template, or the bytes of a file (kept as
    what [json.loads] makes of them, [None] when it raises). *)
Inductive content : Type :=
| Json (v : pyval)
| Html (template : string) (data : pyval)
| Raw (parsed : option pyval).

Definition response : Type := headers * HTTPStatus * content.

Definition body (r : response) : content := snd r.
Definition status_of (r : response) : HTTPStatus := snd (fst r).

(** [json.loads(r[2])] *)
Definition json_loads (c : content) : outcome pyval :=
  match c with
  | Json v => Ret v
  | Html _ _ => Exn ValueError
  | Raw (Some v) => Ret v
  | Raw None => Exn ValueError
  end.

(** What [p.get_data_path(base, path, relative)] gives. *)
Inductive data_result : Type :=
| DataDict (d : dict)
| DataRaw (parsed : option pyval)
| DataNotFound
| DataError.

(** What [load_plugin('provider', ...)] gives for a collection. *)
Inductive plugin : Type :=
| Provider (get_data_path : string -> string -> string -> data_result)
| ConnectionFailure
| LoadFailure.

Record resource : Type := {
  rtype : string;
  description : pyval;
  links : list dict;
  provider : plugin
}.

Record API : Type := {
  base_url : string;
  api_headers : headers;
  identification_title : pyval;
  identification_description : pyval;
  resources : list (string * resource)
}.

Record APIRequest : Type := {
  is_valid : bool;
  format : option string;
  locale : string;
  get_response_headers : headers -> headers;
  _args : list (string * string);
  _data : option pyval
}.

Definition F_JSON : string := "json".
Definition F_HTML : string := "html".

Definition FORMAT_TYPES (f : string) : string :=
  if String.eqb f F_HTML then "text/html" else "application/json".

Definition format_is (request : APIRequest) (f : string) : bool :=
  match format request with
  | Some g => String.eqb g f
  | None => false
  end.

(** The collaborators the module calls and does not define: shapely's
    [shape] and [intersects] on arbitrary geometries, the way shapely reads
    a coordinate that is not a number, [l10n.translate], the text an
    f-string makes of a value that is not a string, and the format exception
    of the API object. *)
Class Collaborators : Type := {
  geometry : Type;
  shape : pyval -> option geometry;
  intersects : geometry -> geometry -> bool;
  coerce_coord : pyval -> option Q;
  translate : pyval -> string -> pyval;
  format_value : pyval -> string;
  get_format_exception : APIRequest -> response
}.

(** [headers.pop(k, None)] *)
Definition pop_header (k : string) (h : headers) : headers :=
  filter (fun kv => negb (String.eqb k (fst kv))) h.

(** [headers[k] = v] *)
Fixpoint set_header (k v : string) (h : headers) : headers :=
  match h with
  | [] => [(k, v)]
  | (k', v') :: r =>
      if String.eqb k k' then (k, v) :: r else (k', v') :: set_header k v r
  end.

(** Modelled from the spec: [api.get_exception] is not part of this module;
    the error body is [{code, description}] under the given status. *)
Definition get_exception (st : HTTPStatus) (h : headers) (fmt : option string)
    (code description : string) : response :=
  (h, st, Json (PDict [("code", PStr code); ("description", PStr description)])).

(** Modelled from the spec: [filter_dict_by_key_value(resources, 'type',
    'stac-collection')] of [pygeoapi.util] keeps the resources of that type. *)
Definition stac_collections (api : API) : list (string * resource) :=
  filter (fun kv => String.eqb (rtype (snd kv)) "stac-collection") (resources api).

Fixpoint lookup {A} (k : string) (l : list (string * A)) : option A :=
  match l with
  | [] => None
  | (k', v) :: r => if String.eqb k k' then Some v else lookup k r
  end.

(** ** Provider calls as a trace *)

Inductive event : Type :=
| LoadPlugin (dataset : string)
| GetDataPath (path relative : string).

Definition M (A : Type) : Type := outcome A * list event.

Definition ret {A} (a : A) : M A := (Ret a, []).
Definition lift {A} (o : outcome A) : M A := (o, []).
Definition emit (e : event) : M unit := (Ret tt, [e]).

Definition bind {A B} (m : M A) (f : A -> M B) : M B :=
  match m with
  | (Ret a, t) => let (o, t') := f a in (o, t ++ t')
  | (Exn e, t) => (Exn e, t)
  | (Diverge, t) => (Diverge, t)
  end.

Notation "x <- m ;; k" := (bind m (fun x => k))
  (at level 61, m at next level, right associativity) : py_scope.

Fixpoint mmap {A B} (f : A -> M B) (l : list A) : M (list B) :=
  match l with
  | [] => ret []
  | x :: r => y <- f x ;; ys <- mmap f r ;; ret (y :: ys)
  end.

Section Stac.

Context {ext : Collaborators}.
Variable api : API.

Definition link (rel href type : string) : pyval :=
  PDict [("rel", PStr rel); ("href", PStr href); ("type", PStr type)].

Definition CONFORMANCE_CLASSES : list string :=
  [ "https://api.stacspec.org/v1.0.0/collections";
    "https://api.stacspec.org/v1.0.0/core";
    "https://api.stacspec.org/v1.0.0/ogcapi-features";
    "https://api.stacspec.org/v1.0.0/item-search";
    "https://api.stacspec.org/v1.0.0/item-search#sort";
    "https://api.stacspec.org/v1.0.0/collections" ].

(** the links of one configured collection in the root document *)
Definition root_child_links (request : APIRequest) (stac_url key : string)
  : list pyval :=
  link "child" (stac_url ++ "/" ++ key ++ "?f=" ++ F_JSON) (FORMAT_TYPES F_JSON)
  :: (if format_is request F_HTML
      then [link "child" (stac_url ++ "/" ++ key) (FORMAT_TYPES F_HTML)]
      else []).

Definition root_static_links (stac_url : string) : list pyval :=
  [ link "root" stac_url (FORMAT_TYPES F_JSON);
    link "self" stac_url (FORMAT_TYPES F_JSON);
    PDict [("rel", PStr "service-desc");
           ("type", PStr "application/vnd.oai.openapi+json;version=3.0");
           ("href", PStr (base_url api ++ "/openapi?f=json"))];
    PDict [("rel", PStr "service-doc");
           ("type", PStr "text/html");
           ("href", PStr (base_url api ++ "/openapi?f=html"))];
    PDict [("rel", PStr "search");
           ("type", PStr "application/geo+json");
           ("title", PStr "STAC search");
           ("href", PStr (stac_url ++ "/search"));
           ("method", PStr "GET")] ].

Definition get_stac_root (request : APIRequest) : response :=
  let headers_ := get_response_headers request (api_headers api) in
  let stac_url := (base_url api ++ "/stac")%string in
  let content_ :=
    PDict [ ("id", PStr "pygeoapi-stac");
            ("type", PStr "Catalog");
            ("stac_version", PStr "1.0.0");
            ("title", translate (identification_title api) (locale request));
            ("description",
             translate (identification_description api) (locale request));
            ("conformsTo", PList (map PStr CONFORMANCE_CLASSES));
            ("links",
             PList (flat_map (fun kv => root_child_links request stac_url (fst kv))
                             (stac_collections api)
                    ++ root_static_links stac_url)) ] in
  if format_is request F_HTML
  then (headers_, OK, Html "stac/collection.html" content_)
  else (headers_, OK, Json content_).

(** [content['links'].extend(stac_collections[dataset]['links'])], done when
    the first configured link has a key *)
Definition extend_links (content_ : dict) (configured : list dict)
  : outcome dict :=
  match configured with
  | [] => Exn IndexError
  | [] :: _ => Ret content_
  | (_ :: _) :: _ =>
      match Dict.get "links" content_ with
      | Some (PList l) =>
          Ret (Dict.set "links" (PList (l ++ map PDict configured)) content_)
      | Some _ => Exn AttributeError
      | None => Exn KeyError
      end
  end.

Definition envelope (request : APIRequest) (dataset : string) (r : resource)
  : dict :=
  [ ("id", PStr (dataset ++ "-stac"));
    ("type", PStr "Catalog");
    ("stac_version", PStr "1.0.0");
    ("description", translate (description r) (locale request));
    ("links", PList []) ].

(** the HTML rendering of a resolved document *)
Definition render_path (h : headers) (path : string) (content_ : dict)
  : outcome response :=
  let content_ := Dict.set "path" (PStr path) content_ in
  if Dict.mem "assets" content_ then
    ty <~ getitem (PDict content_) "type" ;;
    if is_str ty "Collection"
    then Ret (h, OK, Html "stac/collection_base.html" (PDict content_))
    else if is_str ty "Feature"
    then Ret (h, OK, Html "stac/item.html" (PDict content_))
    else Exn AttributeError
  else Ret (h, OK, Html "stac/catalog.html" (PDict content_)).

Definition get_stac_path (request : APIRequest) (path : pyval) : M response :=
  let headers_ := get_response_headers request (api_headers api) in
  match path with
  | PStr path =>
      let dir_tokens := Str.split "/" path in
      let dataset := Str.first dir_tokens in
      match lookup dataset (stac_collections api) with
      | None =>
          ret (get_exception NOT_FOUND headers_ (format request)
                 "NotFound" "Collection not found")
      | Some r =>
          _ <- emit (LoadPlugin dataset) ;;
          match provider r with
          | ConnectionFailure =>
              ret (get_exception INTERNAL_SERVER_ERROR headers_ (format request)
                     "NoApplicableCode" "connection error (check logs)")
          | LoadFailure => lift (Exn PluginError)
          | Provider get_data_path =>
              _ <- emit (GetDataPath path (Str.replace_first dataset "" path)) ;;
              match get_data_path (base_url api ++ "/stac")%string path
                      (Str.replace_first dataset "" path) with
              | DataNotFound =>
                  ret (get_exception NOT_FOUND headers_ (format request)
                         "NotFound" "resource not found")
              | DataError =>
                  ret (get_exception INTERNAL_SERVER_ERROR headers_
                         (format request) "NoApplicableCode" "data query error")
              | DataDict stac_data =>
                  lift (content_ <~ extend_links
                                      (Dict.update (envelope request dataset r)
                                                   stac_data)
                                      (links r) ;;
                        if format_is request F_HTML
                        then render_path headers_ path content_
                        else Ret (headers_, OK, Json (PDict content_)))
              | DataRaw parsed =>
                  ret (pop_header "Content-Type" headers_, OK, Raw parsed)
              end
          end
      end
  | _ => lift (Exn AttributeError)
  end.

(** *** The collections listing *)

(** [try: del content['assets']['default'] except KeyError: pass] *)
Definition drop_default_asset (content_ : dict) : outcome dict :=
  match Dict.get "assets" content_ with
  | None => Ret content_
  | Some (PDict assets) =>
      Ret (Dict.set "assets" (PDict (Dict.del "default" assets)) content_)
  | Some _ => Exn TypeError
  end.

(** [content['title'] = f'{dataset}/{content["title"]}'] *)
Definition prefix_title (dataset : string) (content_ : dict) : outcome dict :=
  match Dict.get "title" content_ with
  | None => Exn KeyError
  | Some t =>
      let text := match t with PStr s => s | _ => format_value t end in
      Ret (Dict.set "title" (PStr (dataset ++ "/" ++ text)) content_)
  end.

(** the body of the loop over [datasets] for a provider that answered with
    a dictionary *)
Definition collection_content (request : APIRequest) (dir_tokens : list string)
    (dataset : string) (r : resource) (stac_data : dict) : outcome dict :=
  let content_ := Dict.update (envelope request dataset r) stac_data in
  ty <~ getitem (PDict content_) "type" ;;
  content_ <~ (if is_str ty "Collection" && (1 <? List.length dir_tokens)%nat
               then prefix_title dataset content_
               else Ret content_) ;;
  content_ <~ extend_links content_ (links r) ;;
  ty <~ getitem (PDict content_) "type" ;;
  if is_str ty "Feature" then drop_default_asset content_ else Ret content_.

(** one round of the loop: the document of [dataset], or the response the
    function returns at once *)
Definition collection_step (request : APIRequest) (dir_tokens : list string)
    (dataset : string) : M (response + pyval) :=
  let headers_ := get_response_headers request (api_headers api) in
  match lookup dataset (stac_collections api) with
  | None =>
      ret (inl (get_exception NOT_FOUND headers_ (format request)
                  "NotFound" "Collection not found"))
  | Some r =>
      _ <- emit (LoadPlugin dataset) ;;
      match provider r with
      | ConnectionFailure =>
          ret (inl (get_exception INTERNAL_SERVER_ERROR headers_
                      (format request) "NoApplicableCode"
                      "connection error (check logs)"))
      | LoadFailure => lift (Exn PluginError)
      | Provider get_data_path =>
          _ <- emit (GetDataPath dataset "") ;;
          match get_data_path (base_url api ++ "/stac")%string dataset "" with
          | DataNotFound =>
              ret (inl (get_exception NOT_FOUND headers_ (format request)
                          "NotFound" "resource not found"))
          | DataError =>
              ret (inl (get_exception INTERNAL_SERVER_ERROR headers_
                          (format request) "NoApplicableCode" "data query error"))
          | DataDict stac_data =>
              lift (c <~ collection_content request dir_tokens dataset r
                           stac_data ;;
                    Ret (inr (PDict c)))
          | DataRaw _ => ret (inr (PDict (envelope request dataset r)))
          end
      end
  end.

Fixpoint collections_loop (request : APIRequest) (dir_tokens : list string)
    (datasets : list string) (contents : list pyval)
  : M (response + list pyval) :=
  match datasets with
  | [] => ret (inr contents)
  | dataset :: rest =>
      r <- collection_step request dir_tokens dataset ;;
      match r with
      | inl resp => ret (inl resp)
      | inr c => collections_loop request dir_tokens rest (contents ++ [c])
      end
  end.

(** [datasets], as chosen from the path *)
Definition datasets_of (dir_tokens : list string) : list string :=
  if (String.length (Str.first dir_tokens) =? 2)%nat
  then [Str.last dir_tokens]
  else map fst (stac_collections api).

Definition get_stac_collections (request : APIRequest) (path : string)
  : M response :=
  if negb (is_valid request) then ret (get_format_exception request)
  else
    let headers_ := get_response_headers request (api_headers api) in
    let dir_tokens := Str.split "/" path in
    r <- collections_loop request dir_tokens (datasets_of dir_tokens) [] ;;
    match r with
    | inl resp => ret resp
    | inr [c] => ret (headers_, OK, Json c)
    | inr contents =>
        ret (headers_, OK, Json (PDict [("collections", PList contents)]))
    end.

(** *** The recursive item search *)

(** [[r['href'] for r in result if r['rel'] is none of root, self, parent]] *)
Fixpoint descend_hrefs (result : list pyval) : outcome (list pyval) :=
  match result with
  | [] => Ret []
  | r :: rest =>
      rel <~ getitem r "rel" ;;
      if negb (is_str rel "root") && negb (is_str rel "self")
         && negb (is_str rel "parent")
      then href <~ getitem r "href" ;;
           hs <~ descend_hrefs rest ;;
           Ret (href :: hs)
      else descend_hrefs rest
  end.

(** [r.split('stac')[-1][1:]] *)
Definition href_path (href : pyval) : outcome pyval :=
  match href with
  | PStr r => Ret (PStr (Str.tail (Str.last (Str.split "stac" r))))
  | _ => Exn AttributeError
  end.

(** [[r for r in result if r['type'] == 'Feature']] *)
Fixpoint features_of (result : list pyval) : outcome (list pyval) :=
  match result with
  | [] => Ret []
  | r :: rest =>
      ty <~ getitem r "type" ;;
      fs <~ features_of rest ;;
      Ret (if is_str ty "Feature" then r :: fs else fs)
  end.

(** [[r['links'] for r in result if r['type'] != 'Feature']] *)
Fixpoint links_of_others (result : list pyval) : outcome (list pyval) :=
  match result with
  | [] => Ret []
  | r :: rest =>
      ty <~ getitem r "type" ;;
      if is_str ty "Feature" then links_of_others rest
      else ls <~ getitem r "links" ;;
           lss <~ links_of_others rest ;;
           Ret (ls :: lss)
  end.

(** the inner loop: the links of one document kept for the next round *)
Fixpoint keep_links (objs : list pyval) : outcome (list pyval) :=
  match objs with
  | [] => Ret []
  | obj :: rest =>
      rel <~ getitem obj "rel" ;;
      ks <~ keep_links rest ;;
      Ret (if is_str rel "chlid" || is_str rel "item" then obj :: ks else ks)
  end.

(** the outer loop filling [recursive] *)
Fixpoint collect_recursive (result : list pyval) : outcome (list pyval) :=
  match result with
  | [] => Ret []
  | r :: rest =>
      objs <~ py_iter r ;;
      ks <~ keep_links objs ;;
      more <~ collect_recursive rest ;;
      Ret (ks ++ more)
  end.

Fixpoint _recursiveSearchItems (fuel : nat) (request : APIRequest)
    (result : pyval) : M (list pyval) :=
  match fuel with
  | O => lift Diverge
  | S fuel' =>
      paths <- lift (rs <~ py_iter result ;;
                     hrefs <~ descend_hrefs rs ;;
                     omap href_path hrefs) ;;
      responses <- mmap (get_stac_path request) paths ;;
      docs <- lift (omap (fun r => json_loads (body r)) responses) ;;
      items <- lift (features_of docs) ;;
      others <- lift (links_of_others docs) ;;
      match others with
      | [] => ret items
      | _ :: _ =>
          recursive <- lift (collect_recursive others) ;;
          tmp <- _recursiveSearchItems fuel' request (PList recursive) ;;
          ret (items ++ tmp)
      end
  end.

(** *** The filter stage of the search *)

(** Modelled from the spec: shapely's [box] and the [intersects] of two
    boxes are not part of this module; a box is the axis-aligned rectangle
    spanned by its four coordinates and two boxes intersect when the closed
    rectangles share a point (the standard 2D rectangle test). *)
Record rect : Type := {
  minx : Q;
  miny : Q;
  maxx : Q;
  maxy : Q
}.

Definition mk_box (x0 y0 x1 y1 : Q) : rect :=
  {| minx := Qmin x0 x1; miny := Qmin y0 y1;
     maxx := Qmax x0 x1; maxy := Qmax y0 y1 |}.

Definition rect_intersects (a b : rect) : bool :=
  Qle_bool (minx a) (maxx b) && Qle_bool (minx b) (maxx a)
  && Qle_bool (miny a) (maxy b) && Qle_bool (miny b) (maxy a).

Definition coord (v : pyval) : outcome Q :=
  match num_of v with
  | Some q => Ret q
  | None =>
      match coerce_coord v with
      | Some q => Ret q
      | None => Exn TypeError
      end
  end.

(** [shapely.geometry.box( *v )]: four coordinates, and optionally [ccw] *)
Definition box (v : pyval) : outcome rect :=
  args <~ py_iter v ;;
  match args with
  | [a; b; c; d] | [a; b; c; d; _] =>
      x0 <~ coord a ;; y0 <~ coord b ;; x1 <~ coord c ;; y1 <~ coord d ;;
      Ret (mk_box x0 y0 x1 y1)
  | _ => Exn TypeError
  end.

(** [[i for i, x in enumerate(flags) if x]] *)
Definition find_idx (flags : list bool) : list nat :=
  map fst (filter snd (combine (seq 0 (List.length flags)) flags)).

(** [collections.Counter] of indices, in insertion order *)
Definition Counter := list (nat * nat).

Fixpoint counter_add (i : nat) (c : Counter) : Counter :=
  match c with
  | [] => [(i, 1%nat)]
  | (j, n) :: r => if (i =? j)%nat then (j, S n) :: r else (j, n) :: counter_add i r
  end.

(** [filter_idx.update(found)] *)
Definition counter_update (c : Counter) (found : list nat) : Counter :=
  fold_left (fun acc i => counter_add i acc) found c.

Definition counter_keys (c : Counter) : list nat := map fst c.

Definition ids_filter (queries : dict) (result : list pyval)
  : outcome (list nat) :=
  ids <~ getitem (PDict queries) "ids" ;;
  items_id <~ omap (fun obj => getitem obj "id") result ;;
  flags <~ omap (fun x => py_in x ids) items_id ;;
  Ret (find_idx flags).

Definition bbox_filter (queries : dict) (result : list pyval)
  : outcome (list nat) :=
  bbox <~ getitem (PDict queries) "bbox" ;;
  bbox <~ box bbox ;;
  items_bbox <~ omap (fun obj => getitem obj "bbox") result ;;
  items_bbox <~ omap box items_bbox ;;
  Ret (find_idx (map (rect_intersects bbox) items_bbox)).

Definition shape_of (v : pyval) : outcome geometry :=
  match shape v with
  | Some g => Ret g
  | None => Exn ValueError
  end.

(** the [intersects] predicate; [inl] is the response returned at once when
    the geometry of the query cannot be converted (the text of the exception
    that ends the description is left out) *)
Definition intersects_filter (headers_ : headers) (request : APIRequest)
    (queries : dict) (result : list pyval) : outcome (response + list nat) :=
  geojson <~ getitem (PDict queries) "intersects" ;;
  match shape geojson with
  | None =>
      Ret (inl (get_exception BAD_REQUEST headers_ (format request)
                  "InvalidParameterValue" "Error in converting geojson"))
  | Some geoobj =>
      items_geometry <~ omap (fun obj => g <~ getitem obj "geometry" ;;
                                         shape_of g) result ;;
      Ret (inr (find_idx (map (intersects geoobj) items_geometry)))
  end.

(** the loop over [criteria]; the state is [(filter_idx, got_filter)] *)
Fixpoint filter_loop (headers_ : headers) (request : APIRequest)
    (queries : dict) (result : list pyval) (criteria : list string)
    (st : Counter * bool) : outcome (response + Counter * bool) :=
  match criteria with
  | [] => Ret (inr st)
  | filter_ :: rest =>
      st <~ (if String.eqb filter_ "ids"
             then found <~ ids_filter queries result ;;
                  Ret (counter_update (fst st) found, true)
             else Ret st) ;;
      st <~ (if String.eqb filter_ "bbox"
             then found <~ bbox_filter queries result ;;
                  Ret (counter_update (fst st) found, true)
             else Ret st) ;;
      if String.eqb filter_ "intersects"
      then r <~ intersects_filter headers_ request queries result ;;
           match r with
           | inl resp => Ret (inl resp)
           | inr found =>
               filter_loop headers_ request queries result rest
                 (counter_update (fst st) found, true)
           end
      else filter_loop headers_ request queries result rest st
  end.

(** [[r for i, r in enumerate(result) if i in find_idx]] *)
Definition select (found : list nat) (result : list pyval) : list pyval :=
  map snd (filter (fun ir => existsb (Nat.eqb (fst ir)) found)
                  (combine (seq 0 (List.length result)) result)).

(** line 530: the indices kept *)
Definition kept_indices (st : Counter * bool) (result : list pyval) : list nat :=
  if snd st then counter_keys (fst st) else seq 0 (List.length result).

(** *** Sorting and truncation *)

(** [k.get(sortby['field'], '')] *)
Definition sort_key (sortby k : pyval) : outcome pyval :=
  field <~ getitem sortby "field" ;;
  match k with
  | PDict d =>
      match field with
      | PStr f => Ret (Dict.get_default f (PStr "") d)
      | PList _ | PDict _ => Exn TypeError
      | _ => Ret (PStr "")
      end
  | _ => Exn AttributeError
  end.

(** insertion of a keyed element after the elements whose key is smaller *)
Fixpoint insert_keyed (kx : pyval * pyval) (l : list (pyval * pyval))
  : outcome (list (pyval * pyval)) :=
  match l with
  | [] => Ret [kx]
  | ky :: r =>
      b <~ py_lt (fst ky) (fst kx) ;;
      if b then r' <~ insert_keyed kx r ;; Ret (ky :: r')
      else Ret (kx :: l)
  end.

Fixpoint sort_keyed (l : list (pyval * pyval)) : outcome (list (pyval * pyval)) :=
  match l with
  | [] => Ret []
  | kx :: r => s <~ sort_keyed r ;; insert_keyed kx s
  end.

(** [sorted(result, key=...)]: the keys are computed first, then the list
    is sorted by [<] on the keys. The sort is stable, so when every
    comparison succeeds the result does not depend on the sorting method;
    an insertion sort stands for it here, and a comparison that raises ends
    the sort (with two items, the two keys are compared by any method). *)
Definition py_sorted (key : pyval -> outcome pyval) (result : list pyval)
  : outcome (list pyval) :=
  keys <~ omap key result ;;
  s <~ sort_keyed (combine keys result) ;;
  Ret (map snd s).

(** [l[:z]] for an integer *)
Definition slice_int (z : Z) (l : list pyval) : list pyval :=
  if (0 <=? z)%Z then firstn (Z.to_nat z) l
  else firstn (List.length l - Z.to_nat (- z)) l.

(** [result[:max_items]] *)
Definition slice_to (max_items : pyval) (l : list pyval) : outcome (list pyval) :=
  match max_items with
  | PInt z => Ret (slice_int z l)
  | PBool b => Ret (slice_int (if b then 1 else 0) l)
  | PNone => Ret l
  | _ => Exn TypeError
  end.

(** [{"type": "FeatureCollection", "features": features}] *)
Definition feature_collection (features : list pyval) : pyval :=
  PDict [("type", PStr "FeatureCollection"); ("features", PList features)].

(** lines 532 to 545: sort, truncate and wrap *)
Definition assemble (result : list pyval) (sortby max_items : pyval)
  : outcome pyval :=
  result <~ py_sorted (sort_key sortby) result ;;
  let max_items :=
    if py_eq max_items (PInt (-1)) then PInt (Z.of_nat (List.length result))
    else max_items in
  features <~ slice_to max_items result ;;
  Ret (feature_collection features).

(** *** The search operation *)

(** [queries[k] = queries[k].split(',')] when [queries.get(k)] is a
    non-empty string (GET parameters are strings) *)
Definition split_param (k : string) (queries : dict) : dict :=
  match Dict.get k queries with
  | Some (PStr (String c s)) =>
      Dict.set k (PList (map PStr (Str.split "," (String c s)))) queries
  | _ => queries
  end.

(** lines 394 to 406 *)
Definition parse_queries (request : APIRequest) (method : string)
  : outcome dict :=
  if String.eqb method "GET" then
    let queries := map (fun kv => (fst kv, PStr (snd kv))) (_args request) in
    Ret (split_param "bbox" (split_param "collections" (split_param "ids" queries)))
  else
    match _data request with
    | Some (PDict d) => Ret d
    | Some _ => Exn AttributeError
    | None => Exn ValueError
    end.

(** [queries.get(k, '') != ''] *)
Definition given (k : string) (queries : dict) : bool :=
  negb (py_eq (Dict.get_default k (PStr "") queries) (PStr "")).

(** [if queries.get(k) is not None: del queries[k]] *)
Definition del_if_set (k : string) (queries : dict) : dict :=
  match Dict.get k queries with
  | None | Some PNone => queries
  | Some _ => Dict.del k queries
  end.

(** lines 408 and 409 *)
Definition read_max_items (queries : dict) : outcome pyval :=
  if given "max_items" queries then getitem (PDict queries) "max_items"
  else Ret (PInt (-1)).

Definition read_sortby (queries : dict) : outcome pyval :=
  if given "sortby" queries
  then v <~ getitem (PDict queries) "sortby" ;; getitem0 v
  else Ret (PDict [("field", PStr "")]).

(** lines 410 to 415 *)
Definition strip_queries (queries : dict) : dict :=
  del_if_set "limit" (del_if_set "sortby" (del_if_set "max_items" queries)).

Definition mem_str (k : string) (l : list string) : bool :=
  existsb (String.eqb k) l.

(** [[r['href'] for r in root_result if r['rel'] == 'child']] *)
Fixpoint child_hrefs (root_result : list pyval) : outcome (list pyval) :=
  match root_result with
  | [] => Ret []
  | r :: rest =>
      rel <~ getitem r "rel" ;;
      if is_str rel "child"
      then href <~ getitem r "href" ;;
           hs <~ child_hrefs rest ;;
           Ret (href :: hs)
      else child_hrefs rest
  end.

(** [[r.split('/')[-1].split('?')[0] for r in root_result if r.endswith('json')]] *)
Fixpoint collection_names (root_result : list pyval) : outcome (list pyval) :=
  match root_result with
  | [] => Ret []
  | PStr r :: rest =>
      ns <~ collection_names rest ;;
      Ret (if Str.endswith "json" r
           then PStr (Str.first (Str.split "?" (Str.last (Str.split "/" r)))) :: ns
           else ns)
  | _ :: _ => Exn AttributeError
  end.

(** lines 425 to 429: the collections of the root document *)
Definition root_collections (request : APIRequest) : outcome pyval :=
  root_result <~ json_loads (body (get_stac_root request)) ;;
  root_result <~ getitem root_result "links" ;;
  root_result <~ py_iter root_result ;;
  root_result <~ child_hrefs root_result ;;
  root_result <~ collection_names root_result ;;
  Ret (PList root_result).

(** [[r['links'] for r in result if r.get('links', '') != '']] *)
Fixpoint links_of_collections (result : list pyval) : outcome (list pyval) :=
  match result with
  | [] => Ret []
  | PDict d :: rest =>
      ls <~ links_of_collections rest ;;
      Ret (if given "links" d then Dict.get_default "links" (PStr "") d :: ls
           else ls)
  | _ :: _ => Exn AttributeError
  end.

(** lines 433 to 441: the items under each collection *)
Definition flatten_collections (fuel : nat) (request : APIRequest)
    (queries : dict) : M (list pyval) :=
  collections <- lift (c <~ getitem (PDict queries) "collections" ;; py_iter c) ;;
  result <- mmap (get_stac_path request) collections ;;
  result <- lift (omap (fun r => json_loads (body r)) result) ;;
  result <- lift (links_of_collections result) ;;
  result <- mmap (_recursiveSearchItems fuel request) result ;;
  ret (List.concat result).

(** lines 450 to 546 *)
Definition filter_and_assemble (headers_ : headers) (request : APIRequest)
    (queries : dict) (criteria : list string) (sortby max_items : pyval)
    (result : list pyval) : outcome response :=
  r <~ filter_loop headers_ request queries result criteria ([], false) ;;
  match r with
  | inl resp => Ret resp
  | inr st =>
      let result := select (kept_indices st result) result in
      fc <~ assemble result sortby max_items ;;
      Ret (headers_, OK, Json fc)
  end.

Definition get_stac_search (fuel : nat) (request : APIRequest) (method : string)
  : M response :=
  if negb (is_valid request) then ret (get_format_exception request)
  else
    let headers_ :=
      set_header "Content-Type" "application/geo+json"
        (get_response_headers request (api_headers api)) in
    queries <- lift (parse_queries request method) ;;
    max_items <- lift (read_max_items queries) ;;
    sortby <- lift (read_sortby queries) ;;
    let queries := strip_queries queries in
    let criteria := Dict.keys queries in
    if mem_str "bbox" criteria && mem_str "intersects" criteria
    then ret (get_exception BAD_REQUEST headers_ (format request)
                "InvalidParameterValue"
                "Only one of either intersects or bbox may be specified")
    else
      cq <- lift (if negb (mem_str "collections" criteria)
                  then root_result <~ root_collections request ;;
                       Ret ((criteria ++ ["collections"])%list,
                            Dict.set "collections" root_result queries)
                  else Ret (criteria, queries)) ;;
      let criteria := fst cq in
      let queries := snd cq in
      result <- flatten_collections fuel request queries ;;
      lift (filter_and_assemble headers_ request queries criteria sortby
              max_items result).

End Stac.

(** ** The link graph of a catalog *)

Section Graph.

Context {ext : Collaborators}.
Variable api : API.
Variable request : APIRequest.

(** the document a path resolves to, as the flattening reads it *)
Definition resolve (path : pyval) : outcome pyval :=
  r <~ fst (get_stac_path api request path) ;;
  json_loads (body r).

(** a path that resolves to a document that is not a Feature *)
Definition is_node (p : pyval) : Prop :=
  exists doc ty,
    resolve p = Ret doc /\ getitem doc "type" = Ret ty /\
    is_str ty "Feature" = false.

(** [p] resolves to a document that is not a Feature and has a link, of a
    relation accepted by [keep], whose target is [q] *)
Definition edge_by (keep : pyval -> bool) (p q : pyval) : Prop :=
  exists doc ty ls objs obj rel h,
    resolve p = Ret doc /\ getitem doc "type" = Ret ty /\
    is_str ty "Feature" = false /\
    getitem doc "links" = Ret ls /\ py_iter ls = Ret objs /\
    In obj objs /\ getitem obj "rel" = Ret rel /\ keep rel = true /\
    getitem obj "href" = Ret (PStr h) /\ href_path (PStr h) = Ret q.

(** the relations kept by the loop of [_recursiveSearchItems] *)
Definition kept_rel (rel : pyval) : bool :=
  is_str rel "chlid" || is_str rel "item".

(** the relations that are not dropped by the first line of
    [_recursiveSearchItems] *)
Definition descendable_rel (rel : pyval) : bool :=
  negb (is_str rel "root") && negb (is_str rel "self")
  && negb (is_str rel "parent").

Definition child_rel (rel : pyval) : bool := is_str rel "child".

Definition acyclic (keep : pyval -> bool) : Prop :=
  forall p, ~ clos_trans pyval (edge_by keep) p p.

(** the catalog has finitely many documents that are not Features *)
Definition finite_catalog : Prop :=
  exists nodes : list pyval, forall p, is_node p -> In p nodes.

(** a walk along the links the recursion follows *)
Inductive walk : list pyval -> Prop :=
| walk_one p : is_node p -> walk [p]
| walk_cons p q l : edge_by kept_rel p q -> walk (q :: l) -> walk (p :: q :: l).

(** the paths the first three lines of [_recursiveSearchItems] compute *)
Definition targets (result : pyval) : outcome (list pyval) :=
  rs <~ py_iter result ;;
  hrefs <~ descend_hrefs rs ;;
  omap href_path hrefs.

(** The flattening as the specification words it: the Features reachable
    from the links by descending the links whose relation is child or item,
    one copy for each way of reaching a Feature. *)
Fixpoint spec_flatten (fuel : nat) (links : list pyval) : outcome (list pyval) :=
  match fuel with
  | O => Diverge
  | S fuel' =>
      found <~ omap (fun l =>
                 rel <~ getitem l "rel" ;;
                 if is_str rel "child" || is_str rel "item" then
                   href <~ getitem l "href" ;;
                   path <~ href_path href ;;
                   doc <~ resolve path ;;
                   ty <~ getitem doc "type" ;;
                   if is_str ty "Feature" then Ret [doc]
                   else ls <~ getitem doc "links" ;;
                        objs <~ py_iter ls ;;
                        spec_flatten fuel' objs
                 else Ret []) links ;;
      Ret (List.concat found)
  end.

End Graph.

(** ** Sorted results *)

(** [a] may stand before [b] in an ascending list: [b < a] is false *)
Definition key_le (a b : pyval) : Prop := py_lt b a = Ret false.

Definition str_key (k : pyval) : Prop := exists s, k = PStr s.
Definition num_key (k : pyval) : Prop := exists q, num_of k = Some q.

(** the sort keys are all strings, or all numbers *)
Definition scalar_keys (keys : list pyval) : Prop :=
  Forall str_key keys \/ Forall num_key keys.

(** the list is in ascending order of the keys [key] gives *)
Definition ascending (key : pyval -> outcome pyval) (l : list pyval) : Prop :=
  exists keys, omap key l = Ret keys /\ StronglySorted key_le keys.

(** the point set of a rectangle *)
Definition in_rect (r : rect) (x y : Q) : Prop :=
  (minx r <= x)%Q /\ (x <= maxx r)%Q /\ (miny r <= y)%Q /\ (y <= maxy r)%Q.

(** the box of the [bbox] of an item *)
Definition item_box `{Collaborators} (obj : pyval) : outcome rect :=
  b <~ getitem obj "bbox" ;; box b.

(** what the predicate named [key] finds, when it is one of the three *)
Definition predicate_matches `{Collaborators} (headers_ : headers)
    (request : APIRequest) (queries : dict) (result : list pyval)
    (key : string) (found : list nat) : Prop :=
  (key = "ids" /\ ids_filter queries result = Ret found) \/
  (key = "bbox" /\ bbox_filter queries result = Ret found) \/
  (key = "intersects" /\
   intersects_filter headers_ request queries result = Ret (inr found)).

(** the indices of [select], in increasing order *)
Definition selected_indices (found : list nat) (n : nat) : list nat :=
  filter (fun i => existsb (Nat.eqb i) found) (seq 0 n).

(** ** Auxiliary notions *)

(** one of the three keys the filter stage knows *)
Definition predicate_key (k : string) : bool :=
  String.eqb k "ids" || String.eqb k "bbox" || String.eqb k "intersects".

(** the items whose sort key equals [k] *)
Definition with_key (key : pyval -> outcome pyval) (k x : pyval) : bool :=
  match key x with
  | Ret k' => py_eq k' k
  | _ => false
  end.

(** the items of equal key keep the order they had *)
Definition stable (key : pyval -> outcome pyval) (result sorted : list pyval)
  : Prop :=
  forall x, In x result ->
    forall k, key x = Ret k ->
      filter (with_key key k) sorted = filter (with_key key k) result.

(** the value an item has for [field], and the empty string when it has
    none: the sort key in the words of the specification *)
Definition field_or_empty (field : string) (item : pyval) : pyval :=
  match item with
  | PDict d =>
      match Dict.get field d with
      | Some v => v
      | None => PStr ""
      end
  | _ => PStr ""
  end.

(** [y] has for [field] a value equal to that of [x] *)
Definition same_field (field : string) (x y : pyval) : bool :=
  py_eq (field_or_empty field y) (field_or_empty field x).

(** [<] orders the keys: every two of them compare, a key less than another
    is not greater than it, not being greater is transitive, and keys equal
    to a same key are not less than one another *)
Definition ordered_keys (keys : list pyval) : Prop :=
  (forall a b, In a keys -> In b keys -> exists c, py_lt a b = Ret c)
  /\ (forall a b, In a keys -> In b keys ->
                  py_lt a b = Ret true -> key_le a b)
  /\ (forall a b c, In a keys -> In b keys -> In c keys ->
                    key_le a b -> key_le b c -> key_le a c)
  /\ (forall a b k, In a keys -> In b keys -> In k keys ->
                    py_eq a k = true -> py_eq b k = true ->
                    py_lt a b = Ret false).

(** the kinds of values that [<] never compares with one another *)
Inductive kind : Type :=
| KStr
| KNum
| KList
| KOther.

Definition kind_of (v : pyval) : kind :=
  match v with
  | PStr _ => KStr
  | PBool _ | PInt _ | PFloat _ => KNum
  | PList _ => KList
  | PNone | PDict _ => KOther
  end.

(** a list of numbers, as a bbox is *)
Definition numlist_key (k : pyval) : Prop :=
  exists l, k = PList l /\ Forall num_key l.

(** the number a numeric value stands for *)
Definition num_q (v : pyval) : Q :=
  match num_of v with
  | Some q => q
  | None => 0
  end.

(** the lexicographic order of lists of numbers, and their equality *)
Fixpoint lex_lt (l m : list Q) : bool :=
  match l, m with
  | [], [] => false
  | [], _ :: _ => true
  | _ :: _, [] => false
  | x :: l', y :: m' =>
      if Qeq_bool x y then lex_lt l' m' else negb (Qle_bool y x)
  end.

Fixpoint lex_eq (l m : list Q) : bool :=
  match l, m with
  | [], [] => true
  | x :: l', y :: m' => Qeq_bool x y && lex_eq l' m'
  | _, _ => false
  end.

(** the request with another body *)
Definition with_data (request : APIRequest) (data : pyval) : APIRequest :=
  {| is_valid := is_valid request;
     format := format request;
     locale := locale request;
     get_response_headers := get_response_headers request;
     _args := _args request;
     _data := Some data |}.


(** a rectangle whose minima are below its maxima *)
Definition well_formed (r : rect) : Prop :=
  (minx r <= maxx r)%Q /\ (miny r <= maxy r)%Q.

(** the body of the answer of the collections listing: the document alone
    when there is one, the documents under [collections] otherwise *)
Definition listing (contents : list pyval) : pyval :=
  match contents with
  | [c] => c
  | _ => PDict [("collections", PList contents)]
  end.

(** a computation that needs no fuel *)
Definition settled {A} (o : outcome A) : Prop := o <> Diverge.

(** ** Sample catalogs and queries *)

Module Sample.

(** collaborators that read a GeoJSON object through its [bbox] member *)
Definition geo : Collaborators := {|
  geometry := pyval;
  shape := fun v => match v with PDict _ => Some v | _ => None end;
  intersects := py_eq;
  coerce_coord := fun _ => None;
  translate := fun v _ => v;
  format_value := fun _ => "";
  get_format_exception := fun r =>
    get_exception BAD_REQUEST [] (format r) "InvalidParameterValue"
      "Invalid format"
|}.

Definition post (data : pyval) : APIRequest := {|
  is_valid := true;
  format := Some F_JSON;
  locale := "en";
  get_response_headers := fun h => h;
  _args := [];
  _data := Some data
|}.

Definition feature (id : string) (bbox : list Z) : pyval :=
  PDict [("type", PStr "Feature"); ("id", PStr id);
         ("bbox", PList (map PInt bbox))].

Definition item_X : pyval := feature "X" [5; 5; 15; 15]%Z.
Definition item_Y : pyval := feature "Y" [20; 20; 30; 30]%Z.

Definition bbox_query : dict :=
  [("bbox", PList (map PInt [0; 0; 10; 10]%Z))].

Definition ids_bbox_query : dict :=
  [("ids", PList [PStr "X"]); ("bbox", PList (map PInt [0; 0; 10; 10]%Z))].

Definition both_query : dict :=
  [("bbox", PList (map PInt [0; 0; 10; 10]%Z));
   ("intersects", PDict [("type", PStr "Point")]);
   ("sortby", PList [PDict [("field", PStr "id"); ("direction", PStr "desc")]])].

Definition document (type id : string) (links : list pyval) : dict :=
  [("type", PStr type); ("id", PStr id); ("links", PList links)].

Definition json_link (rel href : string) : pyval :=
  link rel href "application/json".

Definition collection (get_data_path : string -> string -> string -> data_result)
  : resource :=
  {| rtype := "stac-collection"; description := PStr "sample";
     links := [[]]; provider := Provider get_data_path |}.

Definition api_of (get_data_path : string -> string -> string -> data_result)
  : API :=
  {| base_url := "http://h"; api_headers := [];
     identification_title := PStr "sample";
     identification_description := PStr "sample";
     resources := [("col", collection get_data_path)] |}.

(** a collection with a catalog [A] under it, a catalog [B] under [A], and
    a Feature [f] under [B] *)
Definition nested_data (base path relative : string) : data_result :=
  if String.eqb relative "" then
    DataDict (document "Collection" "col" [json_link "child" "http://h/stac/col/A"])
  else if String.eqb relative "/A" then
    DataDict (document "Catalog" "A" [json_link "child" "http://h/stac/col/A/B"])
  else if String.eqb relative "/A/B" then
    DataDict (document "Catalog" "B" [json_link "item" "http://h/stac/col/A/B/f"])
  else if String.eqb relative "/A/B/f" then
    DataDict (document "Feature" "f" [])
  else DataNotFound.

Definition nested_api : API := api_of nested_data.

Definition nested_links : list pyval :=
  [json_link "child" "http://h/stac/col/A"].

(** a catalog whose only link is an item link to itself *)
Definition loop_link : pyval := json_link "item" "http://h/stac/col".

Definition loop_data (base path relative : string) : data_result :=
  DataDict (document "Catalog" "col" [loop_link]).

Definition loop_api : API := api_of loop_data.

(** a collection [name] with one Feature, [id], under it *)
Definition leaf_data (name id : string) (bbox : list Z)
    (base path relative : string) : data_result :=
  if String.eqb path name then
    DataDict (document "Collection" name
                [json_link "item" ("http://h/stac/" ++ name ++ "/" ++ id)])
  else DataDict [("type", PStr "Feature"); ("id", PStr id);
                 ("bbox", PList (map PInt bbox))].

(** two collections, one Feature under each *)
Definition two_api : API :=
  {| base_url := "http://h"; api_headers := [];
     identification_title := PStr "sample";
     identification_description := PStr "sample";
     resources :=
       [("c1", collection (leaf_data "c1" "X" [5; 5; 15; 15]%Z));
        ("c2", collection (leaf_data "c2" "Y" [20; 20; 30; 30]%Z))] |}.

Definition sorted_items : list pyval :=
  [feature "c" []; feature "a" []; feature "b" []].

Definition by_id (direction : string) : pyval :=
  PDict [("field", PStr "id"); ("direction", PStr direction)].

(** two items, the second without the [bbox] of the first *)
Definition mixed_items : list pyval :=
  [PDict [("type", PStr "Feature"); ("id", PStr "x");
          ("bbox", PList (map PInt [0; 0; 1; 1]%Z))];
   PDict [("type", PStr "Feature"); ("id", PStr "y")]].

End Sample.

(** ** The rest of the module, and further notions *)

(** the character [c] occurs in [s] *)
Fixpoint mentions (c : ascii) (s : string) : bool :=
  match s with
  | EmptyString => false
  | String a t => Ascii.eqb a c || mentions c t
  end.

(** [s.startswith(sep)] holds somewhere in [s] *)
Fixpoint occurs (sep s : string) : bool :=
  match s with
  | EmptyString => String.prefix sep EmptyString
  | String _ t => String.prefix sep s || occurs sep t
  end.

(** [get_oas_30(cfg, locale)]: the tag objects and the path objects *)
Definition get_oas_30 (cfg : API) (locale : string) : list pyval * pyval :=
  let paths :=
    match stac_collections cfg with
    | [] => []
    | _ :: _ =>
        [("/stac",
          PDict [("get",
                  PDict [("summary", PStr "SpatioTemporal Asset Catalog");
                         ("description", PStr "SpatioTemporal Asset Catalog");
                         ("tags", PList [PStr "stac"]);
                         ("operationId", PStr "getStacCatalog");
                         ("parameters", PList []);
                         ("responses",
                          PDict [("200",
                                  PDict [("$ref",
                                          PStr "#/components/responses/200")]);
                                 ("default",
                                  PDict [("$ref",
                                          PStr "#/components/responses/default")])])])])]
    end in
  ([PDict [("name", PStr "stac")]], PDict [("paths", PDict paths)]).

(** more sample requests and catalogs *)
Module More.

Definition html (data : pyval) : APIRequest := {|
  is_valid := true;
  format := Some F_HTML;
  locale := "en";
  get_response_headers := fun h => h;
  _args := [];
  _data := Some data
|}.

Definition get (args : list (string * string)) : APIRequest := {|
  is_valid := true;
  format := Some F_JSON;
  locale := "en";
  get_response_headers := fun h => h;
  _args := args;
  _data := None
|}.

End More.

(** [path] resolves to the Feature [doc] *)
Definition resolves_to_feature `{Collaborators} (api : API)
    (request : APIRequest) (path doc : pyval) : Prop :=
  resolve api request path = Ret doc /\
  exists ty, getitem doc "type" = Ret ty /\ is_str ty "Feature" = true.

(** the links a provider document brings, none when it has no such member *)
Definition provider_links (stac_data : dict) : list pyval :=
  match Dict.get "links" stac_data with
  | Some (PList l) => l
  | _ => []
  end.

(** the links of the configuration that [get_stac_path] appends *)
Definition appended_links (r : resource) : list pyval :=
  match links r with
  | (_ :: _) :: _ => map PDict (links r)
  | _ => []
  end.

Module Paths.

(** a provider that serves one document, whatever the path *)
Definition serving (d : data_result) : API :=
  Sample.api_of (fun _ _ _ => d).

(** a collection configured with two links *)
Definition linked (d : data_result) : API :=
  {| base_url := "http://h"; api_headers := [("Content-Type", "application/json")];
     identification_title := PStr "sample";
     identification_description := PStr "sample";
     resources :=
       [("col",
         {| rtype := "stac-collection"; description := PStr "sample";
            links := [[("rel", PStr "license")]; [("rel", PStr "about")]];
            provider := Provider (fun _ _ _ => d) |})] |}.

Definition asset_document (type : string) : dict :=
  [("type", PStr type); ("id", PStr "a");
   ("links", PList [Sample.json_link "self" "http://h/stac/col/a"]);
   ("assets", PDict [("default", PDict [])])].

End Paths.

Module Listings.

Definition titled (type title : string) : dict :=
  [("type", PStr type); ("id", PStr "a"); ("title", PStr title);
   ("assets", PDict [("default", PDict []); ("image", PDict [])])].

(** three collections, the second with a provider that cannot connect *)
Definition broken_api : API :=
  {| base_url := "http://h"; api_headers := [];
     identification_title := PStr "sample";
     identification_description := PStr "sample";
     resources :=
       [("c1", Sample.collection (Sample.leaf_data "c1" "X" []));
        ("c2", {| rtype := "stac-collection"; description := PStr "sample";
                  links := [[]]; provider := ConnectionFailure |});
        ("c3", Sample.collection (Sample.leaf_data "c3" "Z" []))] |}.

End Listings.

(** The provider calls of a well-behaved operation: a plugin is loaded only
    for a resource configured as a stac-collection, and data is asked for
    only from a plugin that has just been loaded. *)
Inductive provider_calls (api : API) : list event -> Prop :=
| calls_none : provider_calls api []
| calls_load (dataset : string) (r : resource) (t : list event) :
    In (dataset, r) (resources api) ->
    rtype r = "stac-collection" ->
    provider_calls api t ->
    provider_calls api (LoadPlugin dataset :: t)
| calls_ask (dataset : string) (r : resource)
    (get_data_path : string -> string -> string -> data_result)
    (path relative : string) (t : list event) :
    In (dataset, r) (resources api) ->
    rtype r = "stac-collection" ->
    provider r = Provider get_data_path ->
    provider_calls api t ->
    provider_calls api (LoadPlugin dataset :: GetDataPath path relative :: t).

(** [rel] is one of the three relations the recursive search never follows *)
Definition navigation_rel (rel : pyval) : bool :=
  is_str rel "root" || is_str rel "self" || is_str rel "parent".

(** * Properties *)

(** ** Strings *)

Example split_path : Str.split "/" "col/a/b" = ["col"; "a"; "b"].
Proof. reflexivity. Qed.

Example split_href :
  Str.tail (Str.last (Str.split "stac" "http://h/stac/col/a")) = "col/a".
Proof. reflexivity. Qed.

Example endswith_json : Str.endswith "json" "http://h/stac/col?f=json" = true.
Proof. reflexivity. Qed.

Example replace_first_ex : Str.replace_first "col" "" "col/a/col" = "/a/col".
Proof. reflexivity. Qed.

(** ** The result monads *)

Lemma obind_ret {A B} (m : outcome A) (f : A -> outcome B) (b : B) :
  obind m f = Ret b -> exists a, m = Ret a /\ f a = Ret b.
Proof.
  destruct m as [a | e |]; simpl; intros H; try discriminate.
  exists a; split; [reflexivity | exact H].
Qed.

Ltac obind_inv H :=
  let a := fresh "v" in
  let Ha := fresh "Hv" in
  apply obind_ret in H; destruct H as (a & Ha & H).

Lemma omap_length {A B} (f : A -> outcome B) (l : list A) (r : list B) :
  omap f l = Ret r -> List.length r = List.length l.
Proof.
  revert r; induction l as [| x l IH]; simpl; intros r H.
  - inversion H; reflexivity.
  - obind_inv H. obind_inv H. inversion H; subst; simpl.
    f_equal; apply IH; assumption.
Qed.

Lemma omap_nth {A B} (f : A -> outcome B) (l : list A) (r : list B) :
  omap f l = Ret r ->
  forall i x, nth_error l i = Some x ->
  exists y, nth_error r i = Some y /\ f x = Ret y.
Proof.
  revert r; induction l as [| a l IH]; simpl; intros r H i x Hi.
  - destruct i; discriminate.
  - obind_inv H. obind_inv H. inversion H; subst; clear H.
    destruct i as [| i]; simpl in *.
    + inversion Hi; subst. eauto.
    + eapply IH; eauto.
Qed.

Lemma omap_in {A B} (f : A -> outcome B) (l : list A) (r : list B) :
  omap f l = Ret r ->
  forall y, In y r -> exists x, In x l /\ f x = Ret y.
Proof.
  revert r; induction l as [| a l IH]; simpl; intros r H y Hy.
  - inversion H; subst; contradiction.
  - obind_inv H. obind_inv H. inversion H; subst; clear H.
    destruct Hy as [<- | Hy]; [eauto |].
    destruct (IH _ Hv0 _ Hy) as (x & Hx & Hfx); eauto.
Qed.

Lemma omap_app {A B} (f : A -> outcome B) (l1 l2 : list A) (r : list B) :
  omap f (l1 ++ l2) = Ret r ->
  exists r1 r2, omap f l1 = Ret r1 /\ omap f l2 = Ret r2 /\ r = r1 ++ r2.
Proof.
  revert r; induction l1 as [| a l1 IH]; simpl; intros r H.
  - exists [], r; auto.
  - obind_inv H. obind_inv H. inversion H; subst; clear H.
    destruct (IH _ Hv0) as (r1 & r2 & H1 & H2 & ->).
    exists (v :: r1), r2. rewrite Hv, H1; simpl; auto.
Qed.

Lemma omap_total {A B} (f : A -> outcome B) (g : A -> B) (l : list A) :
  (forall x, In x l -> f x = Ret (g x)) -> omap f l = Ret (map g l).
Proof.
  induction l as [| a l IH]; simpl; intros H; [reflexivity |].
  rewrite (H a (or_introl eq_refl)); simpl.
  rewrite IH by auto. reflexivity.
Qed.

(** ** Indices and counters *)

Lemma flagged_In (flags : list bool) (a i : nat) :
  In i (map fst (filter snd (combine (seq a (List.length flags)) flags))) <->
  (a <= i)%nat /\ nth_error flags (i - a) = Some true.
Proof.
  revert a; induction flags as [| b flags IH]; intros a; simpl.
  - split; [contradiction | intros [_ H]; destruct (i - a)%nat; discriminate].
  - destruct b; simpl; rewrite IH.
    + split.
      * intros [<- | [Hle Hn]].
        -- rewrite Nat.sub_diag; auto.
        -- split; [lia |]. replace (i - a)%nat with (S (i - S a)) by lia.
           exact Hn.
      * intros [Hle Hn]. destruct (Nat.eq_dec a i) as [-> | Hne]; [auto |].
        right; split; [lia |].
        replace (i - a)%nat with (S (i - S a)) in Hn by lia. exact Hn.
    + split.
      * intros [Hle Hn]. split; [lia |].
        replace (i - a)%nat with (S (i - S a)) by lia. exact Hn.
      * intros [Hle Hn]. destruct (Nat.eq_dec a i) as [-> | Hne].
        -- rewrite Nat.sub_diag in Hn; discriminate.
        -- split; [lia |].
           replace (i - a)%nat with (S (i - S a)) in Hn by lia. exact Hn.
Qed.

Lemma find_idx_In (flags : list bool) (i : nat) :
  In i (find_idx flags) <-> nth_error flags i = Some true.
Proof.
  unfold find_idx. rewrite flagged_In, Nat.sub_0_r.
  split; [tauto | auto with arith].
Qed.

Lemma find_idx_bound (flags : list bool) (i : nat) :
  In i (find_idx flags) -> (i < List.length flags)%nat.
Proof.
  rewrite find_idx_In. intros H. apply nth_error_Some. congruence.
Qed.

Lemma counter_add_keys (i : nat) (c : Counter) (j : nat) :
  In j (counter_keys (counter_add i c)) <-> j = i \/ In j (counter_keys c).
Proof.
  induction c as [| [k n] c IH]; simpl.
  - intuition.
  - destruct (Nat.eqb_spec i k) as [-> | Hne]; simpl; [intuition |].
    rewrite IH. intuition.
Qed.

Lemma counter_add_NoDup (i : nat) (c : Counter) :
  NoDup (counter_keys c) -> NoDup (counter_keys (counter_add i c)).
Proof.
  induction c as [| [k n] c IH]; simpl; intros H.
  - constructor; [intros [] | constructor].
  - destruct (Nat.eqb_spec i k) as [-> | Hne]; simpl; [exact H |].
    inversion H; subst. constructor; [| auto].
    change (~ In k (counter_keys (counter_add i c))).
    rewrite counter_add_keys. intros [-> | Hin]; [congruence | contradiction].
Qed.

Lemma counter_update_keys (found : list nat) (c : Counter) (j : nat) :
  In j (counter_keys (counter_update c found)) <->
  In j (counter_keys c) \/ In j found.
Proof.
  unfold counter_update. revert c; induction found as [| i found IH];
    intros c; simpl.
  - intuition.
  - rewrite IH, counter_add_keys. intuition.
Qed.

Lemma counter_update_NoDup (found : list nat) (c : Counter) :
  NoDup (counter_keys c) -> NoDup (counter_keys (counter_update c found)).
Proof.
  unfold counter_update. revert c; induction found as [| i found IH];
    intros c H; simpl; [exact H |].
  apply IH, counter_add_NoDup, H.
Qed.

(** ** Selection by index *)

Lemma select_from (found : list nat) (result : list pyval) (a : nat) :
  map snd (filter (fun ir => existsb (Nat.eqb (fst ir)) found)
                  (combine (seq a (List.length result)) result)) =
  map (fun i => nth (i - a) result PNone)
      (filter (fun i => existsb (Nat.eqb i) found)
              (seq a (List.length result))).
Proof.
  revert a; induction result as [| r result IH]; intros a; simpl;
    [reflexivity |].
  assert (Hshift :
    map (fun i => nth (i - S a) result PNone)
        (filter (fun i => existsb (Nat.eqb i) found)
                (seq (S a) (List.length result))) =
    map (fun i => nth (i - a) (r :: result) PNone)
        (filter (fun i => existsb (Nat.eqb i) found)
                (seq (S a) (List.length result)))).
  { apply map_ext_in. intros i Hi. apply filter_In in Hi.
    destruct Hi as [Hi _]. apply in_seq in Hi.
    replace (i - a)%nat with (S (i - S a)) by lia. reflexivity. }
  destruct (existsb (Nat.eqb a) found); simpl; rewrite IH, Hshift.
  - rewrite Nat.sub_diag. reflexivity.
  - reflexivity.
Qed.

Lemma select_spec (found : list nat) (result : list pyval) :
  select found result =
  map (fun i => nth i result PNone)
      (selected_indices found (List.length result)).
Proof.
  unfold select, selected_indices. rewrite select_from.
  apply map_ext. intros i. rewrite Nat.sub_0_r. reflexivity.
Qed.

Lemma selected_indices_In (found : list nat) (n i : nat) :
  In i (selected_indices found n) <-> (i < n)%nat /\ In i found.
Proof.
  unfold selected_indices. rewrite filter_In, in_seq, existsb_exists.
  split.
  - intros [Hi (j & Hj & Hij)]. apply Nat.eqb_eq in Hij; subst.
    split; [lia | exact Hj].
  - intros [Hi Hf]. split; [lia |]. exists i; split; [exact Hf |].
    apply Nat.eqb_refl.
Qed.

Lemma selected_indices_NoDup (found : list nat) (n : nat) :
  NoDup (selected_indices found n).
Proof. apply NoDup_filter, seq_NoDup. Qed.

Lemma select_covering (found : list nat) (result : list pyval) (a : nat) :
  (forall i, (a <= i < a + List.length result)%nat -> In i found) ->
  map snd (filter (fun ir => existsb (Nat.eqb (fst ir)) found)
                  (combine (seq a (List.length result)) result)) = result.
Proof.
  revert a; induction result as [| r result IH]; intros a H; simpl;
    [reflexivity |].
  assert (Ha : existsb (Nat.eqb a) found = true).
  { apply existsb_exists. exists a; split; [| apply Nat.eqb_refl].
    apply H; simpl; lia. }
  rewrite Ha; simpl. f_equal. apply IH.
  intros i Hi. apply H; simpl; lia.
Qed.

Lemma select_all (result : list pyval) :
  select (seq 0 (List.length result)) result = result.
Proof.
  apply select_covering. intros i Hi. apply in_seq. lia.
Qed.

(** ** The filter stage *)

Section FilterStage.

Context {ext : Collaborators}.
Variable headers_ : headers.
Variable request : APIRequest.
Variable queries : dict.
Variable result : list pyval.

Let loop := filter_loop headers_ request queries result.
Let matches := predicate_matches headers_ request queries result.

Lemma mem_str_cons (k x : string) (l : list string) :
  mem_str k (x :: l) = String.eqb x k || mem_str k l.
Proof. unfold mem_str; simpl. rewrite String.eqb_sym. reflexivity. Qed.

Lemma mem_str_In (k : string) (l : list string) :
  mem_str k l = true <-> In k l.
Proof.
  unfold mem_str. rewrite existsb_exists. split.
  - intros (x & Hx & He). apply String.eqb_eq in He. subst; exact Hx.
  - intros H. exists k. split; [exact H | apply String.eqb_refl].
Qed.

Lemma existsb_predicate_key (criteria : list string) :
  existsb predicate_key criteria =
  mem_str "ids" criteria || mem_str "bbox" criteria
  || mem_str "intersects" criteria.
Proof.
  induction criteria as [| x l IH]; [reflexivity |].
  simpl existsb at 1. rewrite IH, !mem_str_cons. unfold predicate_key.
  destruct (String.eqb x "ids"), (String.eqb x "bbox"),
    (String.eqb x "intersects"), (mem_str "ids" l), (mem_str "bbox" l),
    (mem_str "intersects" l); reflexivity.
Qed.

Lemma filter_loop_skip (criteria : list string) (st : Counter * bool) :
  existsb predicate_key criteria = false ->
  loop criteria st = Ret (inr st).
Proof.
  subst loop. induction criteria as [| x l IH]; simpl; intros H;
    [reflexivity |].
  apply orb_false_elim in H. destruct H as [Hx Hl].
  unfold predicate_key in Hx.
  apply orb_false_elim in Hx. destruct Hx as [Hx Hi].
  apply orb_false_elim in Hx. destruct Hx as [Hids Hbbox].
  rewrite Hids, Hbbox, Hi. simpl. apply IH, Hl.
Qed.

Lemma found_bound (key : string) (found : list nat) (i : nat) :
  matches key found -> In i found -> (i < List.length result)%nat.
Proof.
  subst matches. unfold predicate_matches.
  intros [[_ H] | [[_ H] | [_ H]]] Hi.
  - unfold ids_filter in H. obind_inv H. obind_inv H. obind_inv H.
    inversion H; subst. apply find_idx_bound in Hi.
    rewrite (omap_length _ _ _ Hv1), (omap_length _ _ _ Hv0) in Hi. exact Hi.
  - unfold bbox_filter in H. obind_inv H. obind_inv H. obind_inv H.
    obind_inv H. inversion H; subst. apply find_idx_bound in Hi.
    rewrite length_map, (omap_length _ _ _ Hv2), (omap_length _ _ _ Hv1) in Hi.
    exact Hi.
  - unfold intersects_filter in H. obind_inv H.
    destruct (shape v) as [g |]; [| discriminate].
    obind_inv H. inversion H; subst. apply find_idx_bound in Hi.
    rewrite length_map, (omap_length _ _ _ Hv0) in Hi. exact Hi.
Qed.

Lemma filter_loop_union (criteria : list string) (st st' : Counter * bool) :
  loop criteria st = Ret (inr st') ->
  (forall i, In i (counter_keys (fst st')) <->
             In i (counter_keys (fst st)) \/
             exists key found,
               In key criteria /\ matches key found /\ In i found)
  /\ (NoDup (counter_keys (fst st)) -> NoDup (counter_keys (fst st')))
  /\ snd st' = snd st || existsb predicate_key criteria.
Proof.
  subst loop matches. revert st st'.
  induction criteria as [| x l IH]; intros st st' H.
  - simpl in H. inversion H; subst. split; [| split].
    + intros i. split; [auto |]. intros [Hi | (k & f & [] & _)]. exact Hi.
    + auto.
    + simpl. rewrite orb_false_r. reflexivity.
  - simpl in H. unfold predicate_key at 1. simpl existsb.
    destruct (String.eqb_spec x "ids") as [-> | Hids].
    + (* the ids predicate *)
      simpl in H. obind_inv H. obind_inv Hv. inversion Hv; subst; clear Hv.
      apply IH in H. destruct H as (Hk & Hn & Hg). simpl in *.
      split; [| split].
      * intros i. rewrite Hk, counter_update_keys. split.
        -- intros [[Hi | Hi] | (k & f & Hin & Hm & Hi)]; [auto | |].
           ++ right. exists "ids", v0. split; [auto |].
              split; [left; auto | exact Hi].
           ++ right. exists k, f. auto.
        -- intros [Hi | (k & f & [<- | Hin] & Hm & Hi)]; [auto | |].
           ++ destruct Hm as [[_ Hm] | [[Hm _] | [Hm _]]]; try discriminate.
              rewrite Hv0 in Hm. inversion Hm; subst. auto.
           ++ right. exists k, f. auto.
      * intros Hnd. apply Hn, counter_update_NoDup, Hnd.
      * rewrite Hg. destruct (snd st); reflexivity.
    + destruct (String.eqb_spec x "bbox") as [-> | Hbbox].
      * (* the bbox predicate *)
        simpl in H. obind_inv H. obind_inv Hv. inversion Hv; subst; clear Hv.
        apply IH in H. destruct H as (Hk & Hn & Hg). simpl in *.
        split; [| split].
        -- intros i. rewrite Hk, counter_update_keys. split.
           ++ intros [[Hi | Hi] | (k & f & Hin & Hm & Hi)]; [auto | |].
              ** right. exists "bbox", v0. split; [auto |].
                 split; [right; left; auto | exact Hi].
              ** right. exists k, f. auto.
           ++ intros [Hi | (k & f & [<- | Hin] & Hm & Hi)]; [auto | |].
              ** destruct Hm as [[Hm _] | [[_ Hm] | [Hm _]]]; try discriminate.
                 rewrite Hv0 in Hm. inversion Hm; subst. auto.
              ** right. exists k, f. auto.
        -- intros Hnd. apply Hn, counter_update_NoDup, Hnd.
        -- rewrite Hg. destruct (snd st); reflexivity.
      * simpl in H.
        destruct (String.eqb_spec x "intersects") as [-> | Hint].
        -- (* the intersects predicate *)
           obind_inv H. destruct v as [resp | found]; [discriminate |].
           apply IH in H. destruct H as (Hk & Hn & Hg). simpl in *.
           split; [| split].
           ++ intros i. rewrite Hk, counter_update_keys. split.
              ** intros [[Hi | Hi] | (k & f & Hin & Hm & Hi)]; [auto | |].
                 --- right. exists "intersects", found. split; [auto |].
                     split; [right; right; auto | exact Hi].
                 --- right. exists k, f. auto.
              ** intros [Hi | (k & f & [<- | Hin] & Hm & Hi)]; [auto | |].
                 --- destruct Hm as [[Hm _] | [[Hm _] | [_ Hm]]];
                       try discriminate.
                     rewrite Hv in Hm. inversion Hm; subst. auto.
                 --- right. exists k, f. auto.
           ++ intros Hnd. apply Hn, counter_update_NoDup, Hnd.
           ++ rewrite Hg. destruct (snd st); reflexivity.
        -- (* another key *)
           apply IH in H. destruct H as (Hk & Hn & Hg). simpl.
           split; [| split]; [| exact Hn | exact Hg].
           intros i. rewrite Hk. split.
           ++ intros [Hi | (k & f & Hin & Hm & Hi)]; [auto |].
              right. exists k, f. auto.
           ++ intros [Hi | (k & f & [<- | Hin] & Hm & Hi)]; [auto | |].
              ** destruct Hm as [[Hm _] | [[Hm _] | [Hm _]]]; congruence.
              ** right. exists k, f. auto.
Qed.

End FilterStage.

(** C4: a query with none of the keys ids, bbox and intersects selects every
    index [0 .. len(items)-1], whatever its other keys are, and every
    flattened item goes on to the sort and the truncation. *)
Theorem filter_passthrough `{Collaborators} (headers_ : headers)
    (request : APIRequest) (queries : dict) (criteria : list string)
    (sortby max_items : pyval) (result : list pyval) :
  mem_str "ids" criteria = false ->
  mem_str "bbox" criteria = false ->
  mem_str "intersects" criteria = false ->
  filter_loop headers_ request queries result criteria ([], false)
    = Ret (inr ([], false))
  /\ kept_indices ([], false) result = seq 0 (List.length result)
  /\ select (kept_indices ([], false) result) result = result
  /\ filter_and_assemble headers_ request queries criteria sortby max_items
       result
     = (fc <~ assemble result sortby max_items ;; Ret (headers_, OK, Json fc)).
Proof.
  intros Hids Hbbox Hint.
  assert (Hloop : filter_loop headers_ request queries result criteria
                    ([], false) = Ret (inr ([], false))).
  { apply filter_loop_skip. rewrite existsb_predicate_key, Hids, Hbbox, Hint.
    reflexivity. }
  split; [exact Hloop |]. split; [reflexivity |].
  split; [apply select_all |].
  unfold filter_and_assemble. rewrite Hloop. simpl.
  unfold kept_indices; simpl. rewrite select_all. reflexivity.
Qed.

Lemma filter_passthrough_witness :
  select (kept_indices ([], false) [Sample.item_X; Sample.item_Y])
         [Sample.item_X; Sample.item_Y]
  = [Sample.item_X; Sample.item_Y].
Proof.
  exact (proj1 (proj2 (proj2
    (@filter_passthrough Sample.geo [] (Sample.post PNone)
       [("collections", PList [PStr "c1"]); ("datetime", PStr "2020")]
       ["collections"; "datetime"] (PDict [("field", PStr "")]) (PInt (-1))
       [Sample.item_X; Sample.item_Y] eq_refl eq_refl eq_refl)))).
Defined.

(** C5: with at least one of the keys ids, bbox and intersects in the query,
    the selected indices are the union of what the predicates found, and the
    selected items are the items at these indices, each taken once, in the
    order of the item list. *)
Theorem filter_union `{Collaborators} (headers_ : headers)
    (request : APIRequest) (queries : dict) (criteria : list string)
    (result : list pyval) (st : Counter * bool) :
  mem_str "ids" criteria || mem_str "bbox" criteria
    || mem_str "intersects" criteria = true ->
  filter_loop headers_ request queries result criteria ([], false)
    = Ret (inr st) ->
  let kept := kept_indices st result in
  (forall i, In i kept <->
             exists key found,
               In key criteria /\
               predicate_matches headers_ request queries result key found /\
               In i found)
  /\ NoDup kept
  /\ select kept result
     = map (fun i => nth i result PNone)
           (selected_indices kept (List.length result))
  /\ NoDup (selected_indices kept (List.length result))
  /\ (forall i, In i (selected_indices kept (List.length result)) <->
                In i kept).
Proof.
  intros Hactive Hloop kept.
  destruct (filter_loop_union _ _ _ _ _ _ _ Hloop) as (Hk & Hn & Hg).
  simpl in Hg. rewrite existsb_predicate_key, Hactive in Hg.
  assert (Hkept : kept = counter_keys (fst st)).
  { subst kept. unfold kept_indices. rewrite Hg. reflexivity. }
  assert (Hunion : forall i, In i kept <->
             exists key found,
               In key criteria /\
               predicate_matches headers_ request queries result key found /\
               In i found).
  { intros i. rewrite Hkept, Hk. simpl. split.
    - intros [[] | Hi]. exact Hi.
    - auto. }
  split; [exact Hunion |].
  split; [rewrite Hkept; apply Hn; constructor |].
  split; [apply select_spec |].
  split; [apply selected_indices_NoDup |].
  intros i. rewrite selected_indices_In. split; [tauto |].
  intros Hi. split; [| exact Hi].
  apply Hunion in Hi. destruct Hi as (key & found & _ & Hm & Hi).
  eapply found_bound; eauto.
Qed.

Lemma filter_union_witness :
  NoDup (kept_indices ([(0%nat, 2%nat)], true)
           [Sample.item_X; Sample.item_Y])
  /\ select (kept_indices ([(0%nat, 2%nat)], true)
               [Sample.item_X; Sample.item_Y])
            [Sample.item_X; Sample.item_Y]
     = [Sample.item_X].
Proof.
  pose proof (@filter_union Sample.geo [] (Sample.post PNone)
                Sample.ids_bbox_query ["ids"; "bbox"]
                [Sample.item_X; Sample.item_Y] ([(0%nat, 2%nat)], true)
                eq_refl eq_refl) as H.
  destruct H as (_ & Hnd & Hsel & _).
  split; [exact Hnd |]. rewrite Hsel. reflexivity.
Defined.

(** ** The validation of the query *)

Lemma dict_mem_keys (k : string) (d : dict) :
  mem_str k (Dict.keys d) = Dict.mem k d.
Proof.
  unfold Dict.mem, Dict.keys, mem_str.
  induction d as [| [k' v] d IH]; simpl; [reflexivity |].
  destruct (String.eqb k k'); simpl; [reflexivity | exact IH].
Qed.

Lemma dict_get_del_other (k k' : string) (d : dict) :
  k <> k' -> Dict.get k (Dict.del k' d) = Dict.get k d.
Proof.
  intros Hne. unfold Dict.del.
  induction d as [| [x v] d IH]; simpl; [reflexivity |].
  destruct (String.eqb_spec k' x) as [-> | Hx]; simpl.
  - destruct (String.eqb_spec k x) as [-> | _]; [congruence | exact IH].
  - destruct (String.eqb k x); [reflexivity | exact IH].
Qed.

Lemma dict_mem_del_if_set (k k' : string) (d : dict) :
  k <> k' -> Dict.mem k (del_if_set k' d) = Dict.mem k d.
Proof.
  intros Hne. unfold del_if_set, Dict.mem.
  destruct (Dict.get k' d) as [[] |]; try reflexivity;
    rewrite dict_get_del_other by exact Hne; reflexivity.
Qed.

Lemma dict_mem_strip (k : string) (d : dict) :
  k <> "max_items" -> k <> "sortby" -> k <> "limit" ->
  Dict.mem k (strip_queries d) = Dict.mem k d.
Proof.
  intros H1 H2 H3. unfold strip_queries.
  rewrite !dict_mem_del_if_set by assumption. reflexivity.
Qed.

Lemma given_get (k : string) (d : dict) :
  given k d = true -> exists v, Dict.get k d = Some v.
Proof.
  unfold given, Dict.get_default.
  destruct (Dict.get k d) as [v |]; [eauto | discriminate].
Qed.

Lemma read_max_items_total (queries : dict) :
  exists v, read_max_items queries = Ret v.
Proof.
  unfold read_max_items. destruct (given "max_items" queries) eqn:Hg.
  - apply given_get in Hg. destruct Hg as [v Hv].
    exists v. simpl. rewrite Hv. reflexivity.
  - eauto.
Qed.

(** C3: a query with both bbox and intersects is answered 400 Bad Request,
    code InvalidParameterValue, with no provider call made, whatever the
    fuel given to the flattening: the answer comes before any collection is
    resolved. The request is a valid one whose body parses to a query whose
    sortby, when given, has a first entry. *)
Theorem bbox_and_intersects_rejected `{Collaborators} (api : API) (fuel : nat)
    (request : APIRequest) (method : string) (queries : dict)
    (sortby : pyval) :
  is_valid request = true ->
  parse_queries request method = Ret queries ->
  read_sortby queries = Ret sortby ->
  Dict.mem "bbox" queries = true ->
  Dict.mem "intersects" queries = true ->
  get_stac_search api fuel request method =
  (Ret (set_header "Content-Type" "application/geo+json"
          (get_response_headers request (api_headers api)),
        BAD_REQUEST,
        Json (PDict [("code", PStr "InvalidParameterValue");
                     ("description",
                      PStr "Only one of either intersects or bbox may be specified")])),
   []).
Proof.
  intros Hvalid Hparse Hsort Hbbox Hint.
  unfold get_stac_search. rewrite Hvalid, Hparse. simpl.
  destruct (read_max_items_total queries) as [m Hm]. rewrite Hm, Hsort.
  simpl. rewrite !dict_mem_keys, !dict_mem_strip by discriminate.
  rewrite Hbbox, Hint. reflexivity.
Qed.

Lemma bbox_and_intersects_rejected_witness :
  status_of
    (match fst (@get_stac_search Sample.geo Sample.two_api 0
                  (Sample.post (PDict Sample.both_query)) "POST") with
     | Ret r => r
     | _ => ([], OK, Json PNone)
     end) = BAD_REQUEST
  /\ snd (@get_stac_search Sample.geo Sample.two_api 0
            (Sample.post (PDict Sample.both_query)) "POST") = [].
Proof.
  rewrite (@bbox_and_intersects_rejected Sample.geo Sample.two_api 0
             (Sample.post (PDict Sample.both_query)) "POST"
             Sample.both_query (Sample.by_id "desc")
             eq_refl eq_refl eq_refl eq_refl eq_refl).
  split; reflexivity.
Defined.

(** ** The order of the sort keys *)

Lemma string_ltb_compare (a b : string) :
  String.ltb a b = true <-> String.compare a b = Lt.
Proof.
  unfold String.ltb. destruct (String.compare a b); split; congruence.
Qed.

Lemma str_lt_total (a b : pyval) :
  str_key a -> str_key b -> exists c, py_lt a b = Ret c.
Proof. intros [s ->] [t ->]. simpl. eauto. Qed.

Lemma str_lt_le (a b : pyval) :
  str_key a -> str_key b -> py_lt a b = Ret true -> key_le a b.
Proof.
  intros [s ->] [t ->]. unfold key_le. simpl. intros H. f_equal.
  injection H as Hlt. apply string_ltb_compare in Hlt.
  unfold String.ltb. rewrite String.compare_antisym, Hlt. reflexivity.
Qed.

Lemma str_le_trans (a b c : pyval) :
  str_key a -> str_key b -> str_key c ->
  key_le a b -> key_le b c -> key_le a c.
Proof.
  intros [s ->] [t ->] [u ->]. unfold key_le. simpl. intros Hab Hbc.
  f_equal. injection Hab as Hts. injection Hbc as Hut.
  destruct (String.ltb u s) eqn:Hus; [| reflexivity].
  apply string_ltb_compare in Hus.
  destruct (String.compare u t) eqn:Hcut.
  - apply String.compare_eq_iff in Hcut. subst u.
    apply string_ltb_compare in Hus. congruence.
  - apply string_ltb_compare in Hcut. congruence.
  - assert (Htu : String.compare t u = Lt).
    { rewrite String.compare_antisym, Hcut. reflexivity. }
    apply String_as_OT.cmp_lt in Htu, Hus.
    pose proof (String_as_OT.lt_trans _ _ _ Htu Hus) as Hts'.
    apply String_as_OT.cmp_lt in Hts'.
    apply string_ltb_compare in Hts'. congruence.
Qed.

Lemma num_lt (a b : pyval) (x y : Q) :
  num_of a = Some x -> num_of b = Some y ->
  py_lt a b = Ret (negb (Qle_bool y x)).
Proof.
  intros Ha Hb.
  destruct a as [| [] | | | | |]; try discriminate;
    destruct b as [| [] | | | | |]; try discriminate;
    simpl in *; inversion Ha; inversion Hb; subst; reflexivity.
Qed.

Lemma num_eq (a b : pyval) (x y : Q) :
  num_of a = Some x -> num_of b = Some y -> py_eq a b = Qeq_bool x y.
Proof.
  intros Ha Hb.
  destruct a as [| [] | | | | |]; try discriminate;
    destruct b as [| [] | | | | |]; try discriminate;
    simpl in *; inversion Ha; inversion Hb; subst; reflexivity.
Qed.

Lemma str_eq_not_lt (a b k : pyval) :
  str_key a -> str_key b -> str_key k ->
  py_eq a k = true -> py_eq b k = true -> py_lt a b = Ret false.
Proof.
  intros [s ->] [t ->] [u ->]. simpl. intros Hs Ht.
  apply String.eqb_eq in Hs, Ht. subst. f_equal.
  assert (Hrefl : String.compare u u = Eq).
  { apply String_as_OT.cmp_eq. reflexivity. }
  unfold String.ltb. rewrite Hrefl. reflexivity.
Qed.

Lemma num_eq_not_lt (a b k : pyval) :
  num_key a -> num_key b -> num_key k ->
  py_eq a k = true -> py_eq b k = true -> py_lt a b = Ret false.
Proof.
  intros [x Hx] [y Hy] [z Hz].
  rewrite (num_eq _ _ _ _ Hx Hz), (num_eq _ _ _ _ Hy Hz),
    (num_lt _ _ _ _ Hx Hy).
  intros Hxz Hyz. apply Qeq_bool_iff in Hxz, Hyz. f_equal.
  apply negb_false_iff, Qle_bool_iff. rewrite Hxz, Hyz. apply Qle_refl.
Qed.

Lemma num_lt_total (a b : pyval) :
  num_key a -> num_key b -> exists c, py_lt a b = Ret c.
Proof. intros [x Hx] [y Hy]. rewrite (num_lt _ _ _ _ Hx Hy). eauto. Qed.

Lemma num_key_le (a b : pyval) (x y : Q) :
  num_of a = Some x -> num_of b = Some y -> key_le a b <-> (x <= y)%Q.
Proof.
  intros Ha Hb. unfold key_le. rewrite (num_lt _ _ _ _ Hb Ha).
  rewrite <- Qle_bool_iff. destruct (Qle_bool x y); simpl; split; congruence.
Qed.

Lemma num_lt_le (a b : pyval) :
  num_key a -> num_key b -> py_lt a b = Ret true -> key_le a b.
Proof.
  intros [x Hx] [y Hy] H. rewrite (num_key_le _ _ _ _ Hx Hy).
  rewrite (num_lt _ _ _ _ Hx Hy) in H. injection H as Hlt.
  apply negb_true_iff in Hlt.
  destruct (Qlt_le_dec x y) as [Hxy | Hyx]; [apply Qlt_le_weak, Hxy |].
  apply Qle_bool_iff in Hyx. congruence.
Qed.

Lemma num_le_trans (a b c : pyval) :
  num_key a -> num_key b -> num_key c ->
  key_le a b -> key_le b c -> key_le a c.
Proof.
  intros [x Hx] [y Hy] [z Hz].
  rewrite (num_key_le _ _ _ _ Hx Hy), (num_key_le _ _ _ _ Hy Hz),
    (num_key_le _ _ _ _ Hx Hz).
  apply Qle_trans.
Qed.

(** ** The sort *)

Lemma insert_keyed_perm (kx : pyval * pyval) (l l' : list (pyval * pyval)) :
  insert_keyed kx l = Ret l' -> Permutation (kx :: l) l'.
Proof.
  revert l'; induction l as [| ky r IH]; simpl; intros l' H.
  - inversion H; subst. apply Permutation_refl.
  - obind_inv H. destruct v.
    + obind_inv H. inversion H; subst.
      apply perm_trans with (ky :: kx :: r); [apply perm_swap |].
      apply perm_skip, IH, Hv0.
    + inversion H; subst. apply Permutation_refl.
Qed.

Lemma sort_keyed_perm (l s : list (pyval * pyval)) :
  sort_keyed l = Ret s -> Permutation l s.
Proof.
  revert s; induction l as [| kx r IH]; simpl; intros s H.
  - inversion H; subst. apply perm_nil.
  - obind_inv H. apply insert_keyed_perm in H.
    apply perm_trans with (kx :: v); [apply perm_skip, IH, Hv | exact H].
Qed.

Section KeyOrder.

(** a class of keys on which [<] is defined and is a strict weak order *)
Variable good : pyval -> Prop.
Hypothesis lt_total :
  forall a b, good a -> good b -> exists c, py_lt a b = Ret c.
Hypothesis lt_le :
  forall a b, good a -> good b -> py_lt a b = Ret true -> key_le a b.
Hypothesis le_trans :
  forall a b c, good a -> good b -> good c ->
                key_le a b -> key_le b c -> key_le a c.

Hypothesis eq_not_lt :
  forall a b k, good a -> good b -> good k ->
                py_eq a k = true -> py_eq b k = true -> py_lt a b = Ret false.

Lemma insert_keyed_stable (kx : pyval * pyval) (l l' : list (pyval * pyval))
    (k : pyval) :
  good (fst kx) -> Forall good (map fst l) -> good k ->
  insert_keyed kx l = Ret l' ->
  filter (fun ky => py_eq (fst ky) k) l'
  = filter (fun ky => py_eq (fst ky) k) (kx :: l).
Proof.
  intros Hx Hl Hk. revert l'. induction l as [| ky r IH]; intros l' Hins.
  - simpl in Hins. injection Hins as <-. reflexivity.
  - inversion Hl as [| ? ? Hy Hr]; subst. cbn [insert_keyed] in Hins.
    obind_inv Hins. destruct v.
    + obind_inv Hins. injection Hins as <-.
      cbn [filter]. rewrite (IH Hr _ Hv0). cbn [filter].
      destruct (py_eq (fst ky) k) eqn:Eky, (py_eq (fst kx) k) eqn:Ekx;
        try reflexivity.
      rewrite (eq_not_lt _ _ _ Hy Hx Hk Eky Ekx) in Hv. discriminate.
    + injection Hins as <-. reflexivity.
Qed.

Lemma sort_keyed_stable (l s : list (pyval * pyval)) (k : pyval) :
  Forall good (map fst l) -> good k ->
  sort_keyed l = Ret s ->
  filter (fun ky => py_eq (fst ky) k) s
  = filter (fun ky => py_eq (fst ky) k) l.
Proof.
  intros Hl Hk. revert s. induction l as [| kx r IH]; intros s Hs.
  - simpl in Hs. injection Hs as <-. reflexivity.
  - inversion Hl as [| ? ? Hx Hr]; subst. cbn [sort_keyed] in Hs.
    obind_inv Hs.
    rewrite (insert_keyed_stable kx v s k Hx); [| | exact Hk | exact Hs].
    + cbn [filter]. rewrite (IH Hr _ Hv). reflexivity.
    + apply sort_keyed_perm in Hv. apply (Permutation_map fst) in Hv.
      eapply Permutation_Forall; eauto.
Qed.

Lemma insert_keyed_sorted (kx : pyval * pyval) (l : list (pyval * pyval)) :
  good (fst kx) -> Forall good (map fst l) ->
  StronglySorted key_le (map fst l) ->
  exists l', insert_keyed kx l = Ret l' /\ StronglySorted key_le (map fst l').
Proof.
  intros Hx. induction l as [| ky r IH]; simpl; intros Hg Hs.
  - eexists; split; [reflexivity |]. simpl. repeat constructor.
  - inversion Hg as [| ? ? Hy Hr]; subst.
    inversion Hs as [| ? ? Hsr Hle]; subst.
    destruct (lt_total _ _ Hy Hx) as [c Hc]. rewrite Hc; simpl.
    destruct c.
    + destruct (IH Hr Hsr) as (r' & Hr' & Hsr'). rewrite Hr'; simpl.
      eexists; split; [reflexivity |]. simpl. constructor; [exact Hsr' |].
      apply insert_keyed_perm in Hr'.
      apply (Permutation_map fst) in Hr'.
      eapply Permutation_Forall; [exact Hr' |]. simpl.
      constructor; [apply lt_le; assumption | exact Hle].
    + eexists; split; [reflexivity |]. simpl.
      constructor; [constructor; assumption |].
      constructor; [exact Hc |].
      rewrite Forall_forall in Hle, Hr |- *. intros z Hz.
      apply le_trans with (fst ky); auto.
Qed.

Lemma sort_keyed_sorted (l : list (pyval * pyval)) :
  Forall good (map fst l) ->
  exists s, sort_keyed l = Ret s /\ StronglySorted key_le (map fst s).
Proof.
  induction l as [| kx r IH]; simpl; intros Hg.
  - eexists; split; [reflexivity | constructor].
  - inversion Hg as [| ? ? Hx Hr]; subst.
    destruct (IH Hr) as (s & Hs & Hss). rewrite Hs; simpl.
    apply insert_keyed_sorted; [exact Hx | | exact Hss].
    apply sort_keyed_perm in Hs. apply (Permutation_map fst) in Hs.
    eapply Permutation_Forall; eauto.
Qed.

End KeyOrder.

Lemma sort_keyed_scalar (l : list (pyval * pyval)) :
  scalar_keys (map fst l) ->
  exists s, sort_keyed l = Ret s /\ StronglySorted key_le (map fst s).
Proof.
  intros [Hs | Hn].
  - apply (sort_keyed_sorted str_key str_lt_total str_lt_le str_le_trans), Hs.
  - apply (sort_keyed_sorted num_key num_lt_total num_lt_le num_le_trans), Hn.
Qed.

Lemma sort_keyed_scalar_stable (l s : list (pyval * pyval)) (k : pyval) :
  scalar_keys (map fst l) -> In k (map fst l) ->
  sort_keyed l = Ret s ->
  filter (fun ky => py_eq (fst ky) k) s
  = filter (fun ky => py_eq (fst ky) k) l.
Proof.
  intros [Hs | Hn] Hk.
  - apply (sort_keyed_stable str_key str_eq_not_lt); [exact Hs |].
    rewrite Forall_forall in Hs. apply Hs, Hk.
  - apply (sort_keyed_stable num_key num_eq_not_lt); [exact Hn |].
    rewrite Forall_forall in Hn. apply Hn, Hk.
Qed.

Lemma keyed_filter (key : pyval -> outcome pyval) (k : pyval)
    (s : list (pyval * pyval)) :
  Forall (fun kx => key (snd kx) = Ret (fst kx)) s ->
  filter (with_key key k) (map snd s)
  = map snd (filter (fun ky => py_eq (fst ky) k) s).
Proof.
  induction 1 as [| kx s Hk _ IH]; [reflexivity |].
  cbn [map filter]. unfold with_key at 1. rewrite Hk, IH.
  destruct (py_eq (fst kx) k); reflexivity.
Qed.

Lemma combine_fst_snd {A B} (l : list A) (r : list B) :
  List.length l = List.length r ->
  map fst (combine l r) = l /\ map snd (combine l r) = r.
Proof.
  revert r; induction l as [| a l IH]; intros [| b r] Hlen;
    simpl in *; try discriminate; [auto |].
  destruct (IH r) as [H1 H2]; [lia |]. rewrite H1, H2. auto.
Qed.

Lemma keyed_combine (key : pyval -> outcome pyval) (result keys : list pyval) :
  omap key result = Ret keys ->
  Forall (fun kx => key (snd kx) = Ret (fst kx)) (combine keys result).
Proof.
  revert keys; induction result as [| x result IH]; simpl; intros keys H.
  - inversion H; subst. constructor.
  - obind_inv H. obind_inv H. inversion H; subst. simpl.
    constructor; [exact Hv | apply IH, Hv0].
Qed.

Lemma keyed_omap (key : pyval -> outcome pyval) (s : list (pyval * pyval)) :
  Forall (fun kx => key (snd kx) = Ret (fst kx)) s ->
  omap key (map snd s) = Ret (map fst s).
Proof.
  induction 1 as [| kx s Hk _ IH]; simpl; [reflexivity |].
  rewrite Hk, IH. reflexivity.
Qed.

(** whenever the sort returns, it returns a rearrangement of the items *)
Lemma py_sorted_perm (key : pyval -> outcome pyval) (result sorted : list pyval) :
  py_sorted key result = Ret sorted -> Permutation result sorted.
Proof.
  unfold py_sorted. intros H. obind_inv H. obind_inv H.
  inversion H; subst. apply sort_keyed_perm in Hv0.
  apply (Permutation_map snd) in Hv0.
  pose proof (omap_length _ _ _ Hv) as Hlen.
  destruct (combine_fst_snd v result Hlen) as [_ Hsnd].
  rewrite Hsnd in Hv0. exact Hv0.
Qed.

(** on keys that are all strings or all numbers the sort returns, and the
    result is in ascending order, the items of equal key in the order they
    had *)
Lemma py_sorted_scalar (key : pyval -> outcome pyval)
    (result keys : list pyval) :
  omap key result = Ret keys -> scalar_keys keys ->
  exists sorted,
    py_sorted key result = Ret sorted /\ Permutation result sorted /\
    ascending key sorted /\ stable key result sorted.
Proof.
  intros Hkeys Hscalar. unfold py_sorted. rewrite Hkeys. simpl.
  pose proof (omap_length _ _ _ Hkeys) as Hlen.
  destruct (combine_fst_snd keys result Hlen) as [Hfst Hsnd].
  destruct (sort_keyed_scalar (combine keys result)) as (s & Hs & Hss);
    [rewrite Hfst; exact Hscalar |].
  rewrite Hs. simpl. exists (map snd s). split; [reflexivity |].
  pose proof (sort_keyed_perm _ _ Hs) as Hperm.
  pose proof (keyed_combine _ _ _ Hkeys) as Hcomb.
  assert (Hkeyed : Forall (fun kx => key (snd kx) = Ret (fst kx)) s).
  { eapply Permutation_Forall; [exact Hperm | exact Hcomb]. }
  split; [| split].
  - rewrite <- Hsnd at 1. apply Permutation_map, Hperm.
  - exists (map fst s). split; [| exact Hss]. apply keyed_omap, Hkeyed.
  - intros x Hx k Hk.
    assert (Hin : In k keys).
    { apply In_nth_error in Hx. destruct Hx as [i Hi].
      destruct (omap_nth _ _ _ Hkeys _ _ Hi) as (k' & Hk' & Hkx).
      rewrite Hk in Hkx. injection Hkx as <-.
      eapply nth_error_In; eauto. }
    rewrite (keyed_filter key k s Hkeyed).
    rewrite (sort_keyed_scalar_stable (combine keys result) s k);
      [| rewrite Hfst; exact Hscalar | rewrite Hfst; exact Hin | exact Hs].
    rewrite <- (keyed_filter key k _ Hcomb), Hsnd. reflexivity.
Qed.

(** without a sortby entry the key of every item is the empty string, and
    the items keep their order *)
Lemma py_sorted_constant (key : pyval -> outcome pyval) (k : pyval)
    (result : list pyval) :
  (str_key k \/ num_key k) ->
  (forall x, In x result -> key x = Ret k) ->
  py_sorted key result = Ret result.
Proof.
  intros Hkind Hconst.
  assert (Hkeys : omap key result = Ret (map (fun _ => k) result)).
  { apply omap_total, Hconst. }
  assert (Hscalar : scalar_keys (map (fun _ => k) result)).
  { destruct Hkind as [Hs | Hn]; [left | right];
      apply Forall_forall; intros k' Hk'; apply in_map_iff in Hk';
      destruct Hk' as (_ & <- & _); assumption. }
  destruct (py_sorted_scalar _ _ _ Hkeys Hscalar)
    as (sorted & Hs & Hperm & _ & Hstable).
  rewrite Hs. f_equal.
  destruct result as [| x result].
  - apply Permutation_nil in Hperm. exact Hperm.
  - assert (Hkk : py_eq k k = true).
    { destruct Hkind as [[s ->] | [q Hq]].
      - apply String.eqb_refl.
      - rewrite (num_eq _ _ _ _ Hq Hq). apply Qeq_bool_iff, Qeq_refl. }
    assert (Hall : forall l, (forall y, In y l -> key y = Ret k) ->
                             filter (with_key key k) l = l).
    { intros l Hl. apply forallb_filter_id, forallb_forall. intros y Hy.
      unfold with_key. rewrite (Hl y Hy). exact Hkk. }
    specialize (Hstable x (or_introl eq_refl) k
                  (Hconst x (or_introl eq_refl))).
    rewrite (Hall (x :: result) Hconst) in Hstable.
    rewrite Hall in Hstable; [exact Hstable |].
    intros y Hy. apply Hconst. eapply Permutation_in; [| exact Hy].
    apply Permutation_sym, Hperm.
Qed.

(** ** Truncation *)

Lemma py_eq_int (a b : Z) : py_eq (PInt a) (PInt b) = Z.eqb a b.
Proof.
  simpl. unfold Qeq_bool. simpl. rewrite !Z.mul_1_r. reflexivity.
Qed.

Lemma slice_all (l : list pyval) : slice_int (Z.of_nat (List.length l)) l = l.
Proof.
  unfold slice_int.
  destruct (Z.leb_spec 0 (Z.of_nat (List.length l))) as [_ | Hneg]; [| lia].
  rewrite Nat2Z.id. apply firstn_all.
Qed.

Lemma assemble_unbounded (result sorted : list pyval) (sortby : pyval) :
  py_sorted (sort_key sortby) result = Ret sorted ->
  assemble result sortby (PInt (-1)) = Ret (feature_collection sorted).
Proof.
  intros Hs. unfold assemble. rewrite Hs. simpl obind. rewrite slice_all. reflexivity.
Qed.

(** C6: for an integer [n >= 0] the answer assembled is the object
    [{"type": "FeatureCollection", "features": features}] whose features
    are the first [n] sorted items, [min(n, number of matched items)] of
    them, and for [n = -1] its features are all the sorted items, as many
    as were matched. The sort is the only step that can raise, so the
    statement is for a list the sort accepts. *)
Theorem truncation_law (result sorted : list pyval) (sortby : pyval) (n : Z) :
  py_sorted (sort_key sortby) result = Ret sorted ->
  (0 <= n)%Z ->
  (exists features,
     assemble result sortby (PInt n)
     = Ret (PDict [("type", PStr "FeatureCollection");
                   ("features", PList features)])
     /\ features = firstn (Z.to_nat n) sorted
     /\ Z.of_nat (List.length features)
        = Z.min n (Z.of_nat (List.length result)))
  /\ (assemble result sortby (PInt (-1))
      = Ret (PDict [("type", PStr "FeatureCollection");
                    ("features", PList sorted)])
      /\ List.length sorted = List.length result).
Proof.
  intros Hs Hn.
  assert (Hlen : List.length sorted = List.length result).
  { symmetry. apply Permutation_length. eapply py_sorted_perm; eauto. }
  split; [| split; [apply assemble_unbounded, Hs | exact Hlen]].
  exists (firstn (Z.to_nat n) sorted). split; [| split; [reflexivity |]].
  - unfold assemble. rewrite Hs. unfold obind at 1. rewrite py_eq_int.
    destruct (Z.eqb_spec n (-1)) as [-> | _]; [lia |].
    simpl. unfold slice_int.
    destruct (Z.leb_spec 0 n) as [_ | Hneg]; [reflexivity | lia].
  - rewrite length_firstn, Hlen. lia.
Qed.

Lemma truncation_law_witness :
  assemble Sample.sorted_items (Sample.by_id "asc") (PInt 2)
  = Ret (PDict [("type", PStr "FeatureCollection");
                ("features",
                 PList [Sample.feature "a" []; Sample.feature "b" []])]).
Proof.
  destruct (truncation_law Sample.sorted_items
              [Sample.feature "a" []; Sample.feature "b" [];
               Sample.feature "c" []]
              (Sample.by_id "asc") 2 eq_refl)
    as [(features & Ha & -> & _) _]; [lia |].
  exact Ha.
Defined.

(** ** Sorting by a field *)

Lemma sort_key_missing (sortby : pyval) (field : string) (d : dict) :
  getitem sortby "field" = Ret (PStr field) ->
  Dict.get field d = None ->
  sort_key sortby (PDict d) = Ret (PStr "").
Proof.
  intros Hf Hd. unfold sort_key. rewrite Hf. simpl.
  unfold Dict.get_default. rewrite Hd. reflexivity.
Qed.

(** without a sortby entry in the query the items keep their order *)
Lemma default_sortby_keeps_order (result : list pyval) :
  (forall x, In x result -> exists d, x = PDict d /\ Dict.get "" d = None) ->
  py_sorted (sort_key (PDict [("field", PStr "")])) result = Ret result.
Proof.
  intros Hitems. apply (py_sorted_constant _ (PStr "")).
  - left. exists "". reflexivity.
  - intros x Hx. destruct (Hitems x Hx) as (d & -> & Hd).
    eapply sort_key_missing; [reflexivity | exact Hd].
Qed.

(** *** The key of an item *)

Lemma sort_key_present (sortby : pyval) (field : string) (d : dict)
    (v : pyval) :
  getitem sortby "field" = Ret (PStr field) ->
  Dict.get field d = Some v ->
  sort_key sortby (PDict d) = Ret v.
Proof.
  intros Hf Hd. unfold sort_key. rewrite Hf. simpl.
  unfold Dict.get_default. rewrite Hd. reflexivity.
Qed.

Lemma sort_key_field (sortby : pyval) (field : string) (x : pyval) :
  getitem sortby "field" = Ret (PStr field) ->
  (exists d, x = PDict d) ->
  sort_key sortby x = Ret (field_or_empty field x).
Proof.
  intros Hf [d ->]. cbn [field_or_empty].
  destruct (Dict.get field d) as [v |] eqn:Hd.
  - eapply sort_key_present; eauto.
  - eapply sort_key_missing; eauto.
Qed.

Lemma field_keys (sortby : pyval) (field : string) (result : list pyval) :
  getitem sortby "field" = Ret (PStr field) ->
  (forall x, In x result -> exists d, x = PDict d) ->
  omap (sort_key sortby) result = Ret (map (field_or_empty field) result).
Proof.
  intros Hf Hobj. apply omap_total. intros x Hx.
  apply (sort_key_field _ _ _ Hf), Hobj, Hx.
Qed.

(** *** Keys that [<] orders *)

Lemma ordered_scalar (keys : list pyval) :
  scalar_keys keys -> ordered_keys keys.
Proof.
  intros [Hs | Hn]; rewrite Forall_forall in *.
  - split; [| split; [| split]].
    + intros a b Ha Hb. apply str_lt_total; auto.
    + intros a b Ha Hb. apply str_lt_le; auto.
    + intros a b c Ha Hb Hc. apply str_le_trans; auto.
    + intros a b k Ha Hb Hk. apply str_eq_not_lt; auto.
  - split; [| split; [| split]].
    + intros a b Ha Hb. apply num_lt_total; auto.
    + intros a b Ha Hb. apply num_lt_le; auto.
    + intros a b c Ha Hb Hc. apply num_le_trans; auto.
    + intros a b k Ha Hb Hk. apply num_eq_not_lt; auto.
Qed.

Lemma py_lt_list (x y : pyval) (l m : list pyval) :
  py_lt (PList (x :: l)) (PList (y :: m))
  = if py_eq x y then py_lt (PList l) (PList m) else py_lt x y.
Proof. reflexivity. Qed.

Lemma py_eq_list (x y : pyval) (l m : list pyval) :
  py_eq (PList (x :: l)) (PList (y :: m))
  = py_eq x y && py_eq (PList l) (PList m).
Proof. reflexivity. Qed.

(** *** Lists of numbers *)

Ltac q_props :=
  repeat match goal with
  | H : Qeq_bool _ _ = true |- _ => apply Qeq_bool_iff in H
  | H : Qeq_bool _ _ = false |- _ => apply Qeq_bool_neq in H
  | H : Qle_bool _ _ = true |- _ => apply Qle_bool_iff in H
  | H : Qle_bool ?x ?y = false |- _ =>
      assert (~ (x <= y)%Q)
        by (intros Hle; apply Qle_bool_iff in Hle; congruence);
      clear H
  | H : negb _ = true |- _ => apply negb_true_iff in H
  | H : negb _ = false |- _ => apply negb_false_iff in H
  end.

Lemma lex_lt_asym (a b : list Q) : lex_lt a b = true -> lex_lt b a = false.
Proof.
  revert b. induction a as [| x a IH]; intros [| y b]; cbn [lex_lt];
    try congruence.
  destruct (Qeq_bool x y) eqn:E1, (Qeq_bool y x) eqn:E2,
    (Qle_bool y x) eqn:E3, (Qle_bool x y) eqn:E4;
    cbn [negb]; intros H; try congruence; try (apply IH; exact H);
    q_props; exfalso; lra.
Qed.

Lemma lex_le_trans (a b c : list Q) :
  lex_lt b a = false -> lex_lt c b = false -> lex_lt c a = false.
Proof.
  revert b c. induction a as [| x a IH]; intros [| y b] [| z c];
    cbn [lex_lt]; try congruence.
  destruct (Qeq_bool y x) eqn:E1, (Qeq_bool z y) eqn:E2,
    (Qeq_bool z x) eqn:E3, (Qle_bool x y) eqn:E4, (Qle_bool y z) eqn:E5,
    (Qle_bool x z) eqn:E6;
    cbn [negb]; intros H1 H2; try congruence;
    try (apply (IH b c); assumption);
    q_props; exfalso; lra.
Qed.

Lemma lex_eq_not_lt (a b k : list Q) :
  lex_eq a k = true -> lex_eq b k = true -> lex_lt a b = false.
Proof.
  revert b k. induction a as [| x a IH]; intros [| y b] [| z k];
    cbn [lex_lt lex_eq]; try congruence.
  intros H1 H2. apply andb_prop in H1, H2.
  destruct H1 as [H1 H1'], H2 as [H2 H2'].
  destruct (Qeq_bool x y) eqn:E1, (Qle_bool y x) eqn:E2; cbn [negb];
    try reflexivity; try (apply (IH b k); assumption);
    q_props; exfalso; lra.
Qed.

Lemma numlist_lt (l m : list pyval) :
  Forall num_key l -> Forall num_key m ->
  py_lt (PList l) (PList m) = Ret (lex_lt (map num_q l) (map num_q m)).
Proof.
  intros Hl. revert m. induction Hl as [| x l [qx Hx] _ IH];
    intros m Hm; destruct Hm as [| y m [qy Hy] Hm]; try reflexivity.
  assert (Hqx : num_q x = qx) by (unfold num_q; rewrite Hx; reflexivity).
  assert (Hqy : num_q y = qy) by (unfold num_q; rewrite Hy; reflexivity).
  rewrite py_lt_list, (num_eq _ _ _ _ Hx Hy), (num_lt _ _ _ _ Hx Hy).
  cbn [map lex_lt]. rewrite Hqx, Hqy.
  destruct (Qeq_bool qx qy); [apply IH, Hm | reflexivity].
Qed.

Lemma numlist_eq (l m : list pyval) :
  Forall num_key l -> Forall num_key m ->
  py_eq (PList l) (PList m) = lex_eq (map num_q l) (map num_q m).
Proof.
  intros Hl. revert m. induction Hl as [| x l [qx Hx] _ IH];
    intros m Hm; destruct Hm as [| y m [qy Hy] Hm]; try reflexivity.
  assert (Hqx : num_q x = qx) by (unfold num_q; rewrite Hx; reflexivity).
  assert (Hqy : num_q y = qy) by (unfold num_q; rewrite Hy; reflexivity).
  rewrite py_eq_list, (num_eq _ _ _ _ Hx Hy), (IH _ Hm).
  cbn [map lex_eq]. rewrite Hqx, Hqy. reflexivity.
Qed.

Lemma ordered_numlists (keys : list pyval) :
  Forall numlist_key keys -> ordered_keys keys.
Proof.
  intros Hkeys. rewrite Forall_forall in Hkeys.
  unfold ordered_keys, key_le.
  split; [| split; [| split]].
  - intros a b Ha Hb.
    destruct (Hkeys a Ha) as (l & -> & Hl), (Hkeys b Hb) as (m & -> & Hm).
    rewrite numlist_lt by assumption. eauto.
  - intros a b Ha Hb.
    destruct (Hkeys a Ha) as (l & -> & Hl), (Hkeys b Hb) as (m & -> & Hm).
    rewrite !numlist_lt by assumption. intros H. injection H as H.
    f_equal. apply lex_lt_asym, H.
  - intros a b c Ha Hb Hc.
    destruct (Hkeys a Ha) as (l & -> & Hl), (Hkeys b Hb) as (m & -> & Hm),
      (Hkeys c Hc) as (n & -> & Hn).
    rewrite !numlist_lt by assumption. intros H1 H2.
    injection H1 as H1. injection H2 as H2. f_equal.
    eapply lex_le_trans; eauto.
  - intros a b k Ha Hb Hk.
    destruct (Hkeys a Ha) as (l & -> & Hl), (Hkeys b Hb) as (m & -> & Hm),
      (Hkeys k Hk) as (n & -> & Hn).
    rewrite !numlist_eq, numlist_lt by assumption. intros H1 H2.
    f_equal. eapply lex_eq_not_lt; eauto.
Qed.

Lemma py_sorted_ordered (key : pyval -> outcome pyval)
    (result keys : list pyval) :
  omap key result = Ret keys -> ordered_keys keys ->
  exists sorted,
    py_sorted key result = Ret sorted /\ Permutation result sorted /\
    ascending key sorted /\ stable key result sorted.
Proof.
  intros Hkeys (Htotal & Hasym & Htrans & Heq). unfold py_sorted.
  rewrite Hkeys. simpl.
  pose proof (omap_length _ _ _ Hkeys) as Hlen.
  destruct (combine_fst_snd keys result Hlen) as [Hfst Hsnd].
  assert (Hgood : Forall (fun k => In k keys) (map fst (combine keys result))).
  { rewrite Hfst. apply Forall_forall. auto. }
  destruct (sort_keyed_sorted (fun k => In k keys) Htotal Hasym Htrans
              (combine keys result) Hgood) as (s & Hs & Hss).
  rewrite Hs. simpl. exists (map snd s). split; [reflexivity |].
  pose proof (sort_keyed_perm _ _ Hs) as Hperm.
  pose proof (keyed_combine _ _ _ Hkeys) as Hcomb.
  assert (Hkeyed : Forall (fun kx => key (snd kx) = Ret (fst kx)) s).
  { eapply Permutation_Forall; [exact Hperm | exact Hcomb]. }
  split; [| split].
  - rewrite <- Hsnd at 1. apply Permutation_map, Hperm.
  - exists (map fst s). split; [| exact Hss]. apply keyed_omap, Hkeyed.
  - intros x Hx k Hk.
    assert (Hin : In k keys).
    { apply In_nth_error in Hx. destruct Hx as [i Hi].
      destruct (omap_nth _ _ _ Hkeys _ _ Hi) as (k' & Hk' & Hkx).
      rewrite Hk in Hkx. injection Hkx as <-.
      eapply nth_error_In; eauto. }
    rewrite (keyed_filter key k s Hkeyed).
    rewrite (sort_keyed_stable (fun k => In k keys) Heq
               (combine keys result) s k Hgood Hin Hs).
    rewrite <- (keyed_filter key k _ Hcomb), Hsnd. reflexivity.
Qed.

(** the sort by a field, on keys that [<] orders *)
Lemma sorted_by_field (result : list pyval) (sortby : pyval)
    (field : string) :
  getitem sortby "field" = Ret (PStr field) ->
  (forall x, In x result -> exists d, x = PDict d) ->
  ordered_keys (map (field_or_empty field) result) ->
  exists sorted,
    py_sorted (sort_key sortby) result = Ret sorted
    /\ Permutation result sorted
    /\ StronglySorted key_le (map (field_or_empty field) sorted)
    /\ forall x, In x result ->
         filter (same_field field x) sorted
         = filter (same_field field x) result.
Proof.
  intros Hf Hobj Hord.
  destruct (py_sorted_ordered _ _ _ (field_keys _ _ _ Hf Hobj) Hord)
    as (sorted & Hs & Hperm & (keys & Hkeys & Hsorted) & Hstable).
  assert (Hobj' : forall x, In x sorted -> exists d, x = PDict d).
  { intros x Hx. apply Hobj. eapply Permutation_in; [| exact Hx].
    apply Permutation_sym, Hperm. }
  exists sorted. split; [exact Hs |]. split; [exact Hperm |]. split.
  - rewrite (field_keys _ _ _ Hf Hobj') in Hkeys. injection Hkeys as <-.
    exact Hsorted.
  - intros x Hx.
    assert (Hwith : forall l, (forall y, In y l -> exists d, y = PDict d) ->
              filter (same_field field x) l
              = filter (with_key (sort_key sortby) (field_or_empty field x)) l).
    { intros l Hl. apply filter_ext_in. intros y Hy.
      unfold with_key, same_field.
      rewrite (sort_key_field _ _ _ Hf (Hl y Hy)). reflexivity. }
    rewrite (Hwith sorted Hobj'), (Hwith result Hobj).
    apply (Hstable x Hx), sort_key_field; auto.
Qed.

(** *** Keys of different kinds *)

Lemma py_lt_kind (a b : pyval) (c : bool) :
  py_lt a b = Ret c -> kind_of a = kind_of b.
Proof.
  destruct a as [| [] | | | | |], b as [| [] | | | | |];
    try reflexivity; cbn; discriminate.
Qed.

(** a comparison returns or raises TypeError *)
Lemma py_lt_raises :
  forall a b, (exists c, py_lt a b = Ret c) \/ py_lt a b = Exn TypeError.
Proof.
  fix IH 1. intros a b.
  destruct a as [| [] | | | | l |], b as [| [] | | | | m |];
    try (left; eexists; reflexivity); try (right; reflexivity).
  revert m. induction l as [| x l IHl]; intros [| y m];
    try (left; eexists; reflexivity).
  rewrite py_lt_list. destruct (py_eq x y); [apply IHl | apply IH].
Qed.

Lemma insert_keyed_raises (kx : pyval * pyval) (l : list (pyval * pyval)) :
  (exists s, insert_keyed kx l = Ret s) \/ insert_keyed kx l = Exn TypeError.
Proof.
  induction l as [| ky r IH]; [left; eexists; reflexivity |].
  cbn [insert_keyed].
  destruct (py_lt_raises (fst ky) (fst kx)) as [[c ->] | ->];
    [| right; reflexivity].
  cbn [obind]. destruct c; [| left; eexists; reflexivity].
  destruct IH as [[s ->] | ->]; [left; eexists; reflexivity |].
  right. reflexivity.
Qed.

Lemma sort_keyed_raises (l : list (pyval * pyval)) :
  (exists s, sort_keyed l = Ret s) \/ sort_keyed l = Exn TypeError.
Proof.
  induction l as [| kx r IH]; [left; eexists; reflexivity |].
  cbn [sort_keyed]. destruct IH as [[s ->] | ->]; [| right; reflexivity].
  cbn [obind]. apply insert_keyed_raises.
Qed.

Lemma sort_keyed_kinds (l s : list (pyval * pyval)) :
  sort_keyed l = Ret s ->
  forall a b, In a (map fst l) -> In b (map fst l) -> kind_of a = kind_of b.
Proof.
  revert s. induction l as [| kx r IH]; intros s Hs; [contradiction |].
  cbn [sort_keyed] in Hs. obind_inv Hs.
  assert (Hhead : forall b, In b (map fst r) -> kind_of (fst kx) = kind_of b).
  { intros b Hb. pose proof (sort_keyed_perm _ _ Hv) as Hperm.
    destruct v as [| ky v'].
    - apply Permutation_sym, Permutation_nil in Hperm. subst r.
      contradiction.
    - cbn [insert_keyed] in Hs. obind_inv Hs. apply py_lt_kind in Hv0.
      rewrite <- Hv0. apply (IH _ Hv); [| exact Hb].
      apply in_map. eapply Permutation_in;
        [apply Permutation_sym, Hperm | left; reflexivity]. }
  intros a b [<- | Ha] [<- | Hb]; cbn [map] in *.
  - reflexivity.
  - apply Hhead, Hb.
  - symmetry. apply Hhead, Ha.
  - apply (IH _ Hv); assumption.
Qed.

(** the sort by a field raises when two keys are of different kinds *)
Lemma mixed_kinds_raise (result : list pyval) (sortby : pyval)
    (field : string) (x y : pyval) :
  getitem sortby "field" = Ret (PStr field) ->
  (forall z, In z result -> exists d, z = PDict d) ->
  In x result -> In y result ->
  kind_of (field_or_empty field x) <> kind_of (field_or_empty field y) ->
  forall max_items, assemble result sortby max_items = Exn TypeError.
Proof.
  intros Hf Hobj Hx Hy Hkinds max_items. unfold assemble, py_sorted.
  rewrite (field_keys _ _ _ Hf Hobj). cbn [obind].
  set (keys := map (field_or_empty field) result).
  assert (Hlen : List.length keys = List.length result)
    by apply length_map.
  destruct (combine_fst_snd keys result Hlen) as [Hfst _].
  destruct (sort_keyed_raises (combine keys result)) as [[s Hs] | ->];
    [| reflexivity].
  exfalso. apply Hkinds.
  apply (sort_keyed_kinds _ _ Hs); rewrite Hfst; apply in_map; assumption.
Qed.

(** C7, as the code has it: the sort key of an item is the value it has
    for the field, and the empty string when it has none. When [<] orders
    the keys of the matched items the answer holds them all in ascending
    order of the key, items of equal key in the order they had; when two
    of the keys are of different kinds the sort raises TypeError and there
    is no answer, whatever max_items is. *)
Theorem sort_by_field (result : list pyval) (sortby : pyval)
    (field : string) :
  getitem sortby "field" = Ret (PStr field) ->
  (forall x, In x result -> exists d, x = PDict d) ->
  (forall d v, Dict.get field d = Some v ->
               sort_key sortby (PDict d) = Ret v)
  /\ (forall d, Dict.get field d = None ->
                sort_key sortby (PDict d) = Ret (PStr ""))
  /\ (ordered_keys (map (field_or_empty field) result) ->
      exists sorted,
        assemble result sortby (PInt (-1))
        = Ret (PDict [("type", PStr "FeatureCollection");
                      ("features", PList sorted)])
        /\ Permutation result sorted
        /\ StronglySorted key_le (map (field_or_empty field) sorted)
        /\ forall x, In x result ->
             filter (same_field field x) sorted
             = filter (same_field field x) result)
  /\ (forall x y, In x result -> In y result ->
        kind_of (field_or_empty field x) <> kind_of (field_or_empty field y) ->
        forall max_items, assemble result sortby max_items = Exn TypeError).
Proof.
  intros Hf Hobj. split; [| split; [| split]].
  - intros d v Hd. eapply sort_key_present; eauto.
  - intros d Hd. eapply sort_key_missing; eauto.
  - intros Hord.
    destruct (sorted_by_field _ _ _ Hf Hobj Hord)
      as (sorted & Hs & Hperm & Hasc & Hstable).
    exists sorted. split; [| split; [| split]]; try assumption.
    apply assemble_unbounded, Hs.
  - intros x y Hx Hy Hkinds max_items.
    exact (mixed_kinds_raise _ _ _ x y Hf Hobj Hx Hy Hkinds max_items).
Qed.

Lemma sort_by_field_witness :
  assemble Sample.sorted_items (Sample.by_id "asc") (PInt (-1))
  = Ret (PDict [("type", PStr "FeatureCollection");
                ("features",
                 PList [Sample.feature "a" []; Sample.feature "b" [];
                        Sample.feature "c" []])])
  /\ sort_key (Sample.by_id "asc") (Sample.feature "c" []) = Ret (PStr "c")
  /\ assemble Sample.mixed_items (PDict [("field", PStr "bbox")]) (PInt 1)
     = Exn TypeError
  /\ assemble [Sample.item_Y; Sample.item_X] (PDict [("field", PStr "bbox")])
       (PInt (-1))
     = Ret (PDict [("type", PStr "FeatureCollection");
                   ("features", PList [Sample.item_X; Sample.item_Y])]).
Proof.
  destruct (sort_by_field Sample.sorted_items (Sample.by_id "asc") "id"
              eq_refl) as (Hpresent & _ & Hordered & _).
  { intros x [<- | [<- | [<- | []]]]; eexists; reflexivity. }
  destruct (sort_by_field Sample.mixed_items (PDict [("field", PStr "bbox")])
              "bbox" eq_refl) as (_ & _ & _ & Hmixed).
  { intros x [<- | [<- | []]]; eexists; reflexivity. }
  destruct (sort_by_field [Sample.item_Y; Sample.item_X]
              (PDict [("field", PStr "bbox")]) "bbox" eq_refl)
    as (_ & _ & Hboxes & _).
  { intros x [<- | [<- | []]]; eexists; reflexivity. }
  split; [| split; [| split]].
  - destruct Hordered as (sorted & Ha & _).
    + apply ordered_scalar. left.
      repeat (constructor; [eexists; reflexivity |]). constructor.
    + rewrite Ha. vm_compute in Ha. injection Ha as <-. reflexivity.
  - apply Hpresent. reflexivity.
  - apply (Hmixed (nth 0 Sample.mixed_items PNone)
             (nth 1 Sample.mixed_items PNone)).
    + left. reflexivity.
    + right. left. reflexivity.
    + discriminate.
  - destruct Hboxes as (sorted & Ha & _).
    + apply ordered_numlists.
      repeat (constructor;
              [eexists; split;
               [reflexivity
               | repeat (constructor; [eexists; reflexivity |]);
                 constructor] |]).
      constructor.
    + rewrite Ha. vm_compute in Ha. injection Ha as <-. reflexivity.
Defined.

(** C7, as stated, fails: the empty string that stands for a missing field
    is compared with the list another item has there, and the sort raises. *)
Lemma sort_missing_field_raises :
  sort_key (PDict [("field", PStr "bbox")]) (nth 1 Sample.mixed_items PNone)
    = Ret (PStr "")
  /\ assemble Sample.mixed_items (PDict [("field", PStr "bbox")]) (PInt (-1))
     = Exn TypeError.
Proof. split; reflexivity. Qed.

(** ** The direction of the sort *)

Lemma bind_ret_l {A B} (a : A) (f : A -> M B) : bind (lift (Ret a)) f = f a.
Proof. unfold bind, lift. destruct (f a). reflexivity. Qed.

Lemma bind_ext {A B} (m : M A) (f g : A -> M B) :
  (forall a, f a = g a) -> bind m f = bind m g.
Proof.
  intros H. destruct m as [[a | e |] t]; simpl; [rewrite H |..]; reflexivity.
Qed.

Lemma obind_ext {A B} (m : outcome A) (f g : A -> outcome B) :
  (forall a, f a = g a) -> obind m f = obind m g.
Proof. intros H. destruct m; simpl; [apply H | reflexivity..]. Qed.


Lemma mmap_ext {A B} (f g : A -> M B) (l : list A) :
  (forall a, f a = g a) -> mmap f l = mmap g l.
Proof.
  intros H. induction l as [| x l IH]; simpl; [reflexivity |].
  rewrite H, IH. reflexivity.
Qed.

Lemma dict_get_set_same (k : string) (v : pyval) (d : dict) :
  Dict.get k (Dict.set k v d) = Some v.
Proof.
  induction d as [| [k' v'] d IH]; simpl.
  - rewrite String.eqb_refl. reflexivity.
  - destruct (String.eqb k k') eqn:He; simpl; rewrite ?He, ?String.eqb_refl;
      [reflexivity | exact IH].
Qed.

Lemma dict_get_set_other (k k' : string) (v : pyval) (d : dict) :
  k <> k' -> Dict.get k (Dict.set k' v d) = Dict.get k d.
Proof.
  intros Hne. apply String.eqb_neq in Hne.
  induction d as [| [x w] d IH]; simpl.
  - rewrite Hne. reflexivity.
  - destruct (String.eqb_spec k' x) as [-> | Hx]; simpl.
    + rewrite Hne. reflexivity.
    + destruct (String.eqb k x); [reflexivity | exact IH].
Qed.

Lemma dict_del_set_same (k : string) (v : pyval) (d : dict) :
  Dict.del k (Dict.set k v d) = Dict.del k d.
Proof.
  unfold Dict.del. induction d as [| [x w] d IH]; simpl.
  - rewrite String.eqb_refl. reflexivity.
  - destruct (String.eqb k x) eqn:He; simpl; rewrite ?He, ?String.eqb_refl;
      simpl; [reflexivity | rewrite IH; reflexivity].
Qed.

Lemma dict_del_set_other (k k' : string) (v : pyval) (d : dict) :
  k <> k' -> Dict.del k (Dict.set k' v d) = Dict.set k' v (Dict.del k d).
Proof.
  intros Hne. pose proof Hne as Hb. apply String.eqb_neq in Hb.
  unfold Dict.del. induction d as [| [x w] d IH]; simpl.
  - rewrite Hb. reflexivity.
  - destruct (String.eqb_spec k' x) as [-> | Hx]; simpl.
    + rewrite Hb. simpl. rewrite String.eqb_refl. reflexivity.
    + destruct (String.eqb k x) eqn:Hkx; simpl.
      * exact IH.
      * apply String.eqb_neq in Hx. rewrite Hx, IH. reflexivity.
Qed.






Section Body.

Context {ext : Collaborators}.
Variable api : API.
Variable request : APIRequest.

(** the body of the request is read by [parse_queries] only *)
Lemma get_stac_path_body (d1 d2 : pyval) (path : pyval) :
  get_stac_path api (with_data request d1) path
  = get_stac_path api (with_data request d2) path.
Proof. reflexivity. Qed.

Lemma recursive_search_body (d1 d2 : pyval) (fuel : nat) (result : pyval) :
  _recursiveSearchItems api fuel (with_data request d1) result
  = _recursiveSearchItems api fuel (with_data request d2) result.
Proof.
  revert result. induction fuel as [| fuel IH]; intros result;
    [reflexivity |].
  cbn [_recursiveSearchItems]. apply bind_ext; intros paths.
  rewrite (mmap_ext _ _ paths (get_stac_path_body d1 d2)).
  apply bind_ext; intros responses. apply bind_ext; intros docs.
  apply bind_ext; intros items. apply bind_ext; intros others.
  destruct others; [reflexivity |].
  apply bind_ext; intros recursive. rewrite IH. reflexivity.
Qed.

Lemma flatten_collections_body (d1 d2 : pyval) (fuel : nat) (queries : dict) :
  flatten_collections api fuel (with_data request d1) queries
  = flatten_collections api fuel (with_data request d2) queries.
Proof.
  unfold flatten_collections. apply bind_ext; intros collections.
  rewrite (mmap_ext _ _ collections (get_stac_path_body d1 d2)).
  apply bind_ext; intros r1. apply bind_ext; intros r2.
  apply bind_ext; intros r3.
  rewrite (mmap_ext _ _ r3 (recursive_search_body d1 d2 fuel)).
  reflexivity.
Qed.

Lemma filter_loop_body (d1 d2 : pyval) (headers_ : headers) (queries : dict)
    (result : list pyval) (criteria : list string) (st : Counter * bool) :
  filter_loop headers_ (with_data request d1) queries result criteria st
  = filter_loop headers_ (with_data request d2) queries result criteria st.
Proof.
  revert st. induction criteria as [| x l IH]; intros st; [reflexivity |].
  cbn [filter_loop]. apply obind_ext; intros st1.
  apply obind_ext; intros st2.
  destruct (String.eqb x "intersects"); [| apply IH].
  change (intersects_filter headers_ (with_data request d1) queries result)
    with (intersects_filter headers_ (with_data request d2) queries result).
  apply obind_ext; intros [resp | found]; [reflexivity | apply IH].
Qed.

Lemma root_collections_body (d1 d2 : pyval) :
  root_collections api (with_data request d1)
  = root_collections api (with_data request d2).
Proof. reflexivity. Qed.



End Body.




(** ** The bbox predicate *)

Lemma mk_box_well_formed (x0 y0 x1 y1 : Q) : well_formed (mk_box x0 y0 x1 y1).
Proof.
  unfold well_formed, mk_box; simpl. split.
  - apply Qle_trans with x0; [apply Q.le_min_l | apply Q.le_max_l].
  - apply Qle_trans with y0; [apply Q.le_min_l | apply Q.le_max_l].
Qed.

Lemma box_well_formed `{Collaborators} (v : pyval) (r : rect) :
  box v = Ret r -> well_formed r.
Proof.
  unfold box. intros Hb. obind_inv Hb.
  destruct v0 as [| a [| b [| c [| d [| e [| ? ?]]]]]]; try discriminate;
    do 4 obind_inv Hb; injection Hb as <-; apply mk_box_well_formed.
Qed.

Lemma box_four `{Collaborators} (a b c d : pyval) (x0 y0 x1 y1 : Q) :
  coord a = Ret x0 -> coord b = Ret y0 ->
  coord c = Ret x1 -> coord d = Ret y1 ->
  box (PList [a; b; c; d]) = Ret (mk_box x0 y0 x1 y1).
Proof.
  intros Ha Hb Hc Hd. unfold box. cbn [py_iter obind].
  rewrite Ha, Hb, Hc, Hd. reflexivity.
Qed.

(** the test on the corners is the intersection of the point sets *)
Lemma rect_intersects_spec (a b : rect) :
  well_formed a -> well_formed b ->
  rect_intersects a b = true <->
  exists x y, in_rect a x y /\ in_rect b x y.
Proof.
  intros [Hax Hay] [Hbx Hby]. unfold rect_intersects, in_rect.
  rewrite !andb_true_iff, !Qle_bool_iff. split.
  - intros [[[H1 H2] H3] H4].
    exists (Qmax (minx a) (minx b)), (Qmax (miny a) (miny b)).
    repeat split;
      first [ apply Q.le_max_l | apply Q.le_max_r
            | apply Q.max_lub; assumption ].
  - intros (x & y & (A1 & A2 & A3 & A4) & (B1 & B2 & B3 & B4)).
    repeat split; eapply Qle_trans; eauto.
Qed.

Lemma omap_compose {A B C} (f : A -> outcome B) (g : B -> outcome C)
    (l : list A) (r : list C) :
  omap (fun x => y <~ f x ;; g y) l = Ret r ->
  exists m, omap f l = Ret m /\ omap g m = Ret r.
Proof.
  revert r; induction l as [| a l IH]; simpl; intros r Hr.
  - injection Hr as <-. exists []. auto.
  - obind_inv Hr. obind_inv Hv. obind_inv Hr. injection Hr as <-.
    destruct (IH _ Hv1) as (m & Hm1 & Hm2).
    exists (v0 :: m). rewrite Hv0, Hm1. simpl. rewrite Hv, Hm2. auto.
Qed.

(** C8: with a bbox of four coordinates in the query, the bbox predicate
    finds exactly the items whose own bbox rectangle shares a point with the
    rectangle of the query. *)
Theorem bbox_match `{Collaborators} (queries : dict) (result : list pyval)
    (a b c d : pyval) (x0 y0 x1 y1 : Q) (boxes : list rect) :
  Dict.get "bbox" queries = Some (PList [a; b; c; d]) ->
  coord a = Ret x0 -> coord b = Ret y0 ->
  coord c = Ret x1 -> coord d = Ret y1 ->
  omap item_box result = Ret boxes ->
  exists found,
    bbox_filter queries result = Ret found /\
    forall i,
      In i found <->
      exists r, nth_error boxes i = Some r /\
                rect_intersects (mk_box x0 y0 x1 y1) r = true /\
                exists x y, in_rect (mk_box x0 y0 x1 y1) x y /\ in_rect r x y.
Proof.
  intros Hq Ha Hb Hc Hd Hboxes.
  unfold item_box in Hboxes. apply omap_compose in Hboxes.
  destruct Hboxes as (items_bbox & Hget & Hbox).
  exists (find_idx (map (rect_intersects (mk_box x0 y0 x1 y1)) boxes)).
  split.
  - unfold bbox_filter. unfold getitem at 1. rewrite Hq. cbn [obind].
    rewrite (box_four _ _ _ _ _ _ _ _ Ha Hb Hc Hd). cbn [obind].
    rewrite Hget. cbn [obind]. rewrite Hbox. reflexivity.
  - intros i. rewrite find_idx_In, nth_error_map.
    destruct (nth_error boxes i) as [r |] eqn:Hr; simpl.
    + assert (Hwf : well_formed r).
      { apply nth_error_In in Hr.
        destruct (omap_in _ _ _ Hbox _ Hr) as (v & _ & Hv).
        eapply box_well_formed; eauto. }
      pose proof (rect_intersects_spec _ _
                    (mk_box_well_formed x0 y0 x1 y1) Hwf) as Hspec.
      split.
      * intros Ht. injection Ht as Ht. exists r.
        split; [reflexivity |]. split; [exact Ht | apply Hspec, Ht].
      * intros (r' & Hr' & Ht & _). injection Hr' as <-. rewrite Ht.
        reflexivity.
    + split; [discriminate | intros (r & Hr' & _); discriminate].
Qed.

Lemma bbox_match_witness :
  exists found,
    bbox_filter (ext := Sample.geo) Sample.bbox_query
      [Sample.item_X; Sample.item_Y] = Ret found
    /\ In 0%nat found /\ ~ In 1%nat found.
Proof.
  destruct (@bbox_match Sample.geo Sample.bbox_query
              [Sample.item_X; Sample.item_Y]
              (PInt 0) (PInt 0) (PInt 10) (PInt 10) 0 0 10 10
              [mk_box 5 5 15 15; mk_box 20 20 30 30]
              eq_refl eq_refl eq_refl eq_refl eq_refl eq_refl)
    as (found & Hf & Hin).
  exists found. split; [exact Hf |]. split.
  - apply Hin. exists (mk_box 5 5 15 15).
    split; [reflexivity |]. split; [reflexivity |].
    exists 5, 5. unfold in_rect, Qle; simpl. lia.
  - intros H1. apply Hin in H1. destruct H1 as (r & Hr & Ht & _).
    injection Hr as <-. discriminate Ht.
Defined.

(** the scenario, through the whole search: X is returned and Y is not *)
Example search_bbox_scenario :
  exists h x,
    fst (get_stac_search (ext := Sample.geo) Sample.two_api 2
           (Sample.post (PDict Sample.bbox_query)) "POST")
    = Ret (h, OK, Json (feature_collection [PDict x]))
    /\ Dict.get "id" x = Some (PStr "X").
Proof. eexists. eexists. split; reflexivity. Qed.

(** ** The collections listing *)

Lemma bind_ret_inv {A B} (m : M A) (f : A -> M B) (b : B) (t : list event) :
  bind m f = (Ret b, t) ->
  exists a t1 t2, m = (Ret a, t1) /\ f a = (Ret b, t2) /\ t = t1 ++ t2.
Proof.
  destruct m as [[a | e |] t1]; simpl; try discriminate.
  destruct (f a) as [o t2] eqn:Hf. intros Heq. injection Heq as -> <-.
  exists a, t1, t2. auto.
Qed.

Section Listing.

Context {ext : Collaborators}.
Variable api : API.
Variable request : APIRequest.
Variable dir_tokens : list string.

Let step_gives (name : string) (c : pyval) : Prop :=
  fst (collection_step api request dir_tokens name) = Ret (inr c).

Lemma collections_loop_inr (datasets : list string) (acc contents : list pyval)
    (t : list event) :
  collections_loop api request dir_tokens datasets acc = (Ret (inr contents), t) ->
  exists cs, contents = acc ++ cs /\ Forall2 step_gives datasets cs.
Proof.
  revert acc t. induction datasets as [| name rest IH]; intros acc t Hl.
  - injection Hl as <- _. exists []. rewrite app_nil_r. auto.
  - cbn [collections_loop] in Hl. apply bind_ret_inv in Hl.
    destruct Hl as ([resp | c] & t1 & t2 & Hstep & Hrest & _);
      [discriminate |].
    apply IH in Hrest. destruct Hrest as (cs & -> & Hcs).
    exists (c :: cs). rewrite <- app_assoc. split; [reflexivity |].
    constructor; [| exact Hcs]. subst step_gives. cbv beta.
    rewrite Hstep. reflexivity.
Qed.

End Listing.

(** C10: the collection named by the last token of the path is the only one
    looked up exactly when the first token has two characters; for every
    other path the datasets are all the configured stac-collections, and
    the answer lists one document for each of them, in their order. *)
Theorem collections_branch `{Collaborators} (api : API) (request : APIRequest)
    (path : string) :
  let dir_tokens := Str.split "/" path in
  let headers_ := get_response_headers request (api_headers api) in
  (String.length (Str.first dir_tokens) = 2%nat ->
   datasets_of api dir_tokens = [Str.last dir_tokens])
  /\ (String.length (Str.first dir_tokens) <> 2%nat ->
      datasets_of api dir_tokens = map fst (stac_collections api))
  /\ (is_valid request = true ->
      forall contents t,
        collections_loop api request dir_tokens (datasets_of api dir_tokens) []
          = (Ret (inr contents), t) ->
        Forall2 (fun name c =>
                   fst (collection_step api request dir_tokens name)
                   = Ret (inr c))
                (datasets_of api dir_tokens) contents
        /\ get_stac_collections api request path
           = (Ret (headers_, OK, Json (listing contents)), t)).
Proof.
  intros dir_tokens headers_. unfold datasets_of. split; [| split].
  - intros Hlen. rewrite Hlen. reflexivity.
  - intros Hlen. apply Nat.eqb_neq in Hlen. rewrite Hlen. reflexivity.
  - intros Hvalid contents t Hloop. split.
    + apply collections_loop_inr in Hloop.
      destruct Hloop as (cs & -> & Hcs). exact Hcs.
    + unfold get_stac_collections. rewrite Hvalid. cbn [negb].
      fold dir_tokens. unfold datasets_of. rewrite Hloop.
      unfold bind, listing. subst headers_.
      destruct contents as [| c [| c' cs]]; unfold ret;
        rewrite app_nil_r; reflexivity.
Qed.

Lemma collections_branch_witness :
  exists c1 c2 t,
    get_stac_collections (ext := Sample.geo) Sample.two_api
      (Sample.post PNone) "collections"
    = (Ret ([], OK, Json (PDict [("collections", PList [PDict c1; PDict c2])])),
       t)
    /\ Dict.get "id" c1 = Some (PStr "c1")
    /\ Dict.get "id" c2 = Some (PStr "c2").
Proof.
  destruct (@collections_branch Sample.geo Sample.two_api (Sample.post PNone)
              "collections") as (_ & Hall & Hlist).
  edestruct (Hlist eq_refl) as [_ Hresp]; [vm_compute; reflexivity |].
  do 3 eexists. split; [exact Hresp |]. split; reflexivity.
Defined.

(** ** Termination of the recursive item search *)

Lemma settled_ret {A} (a : A) : settled (Ret a).
Proof. discriminate. Qed.

Lemma settled_exn {A} (e : exn) : settled (@Exn A e).
Proof. discriminate. Qed.

Lemma settled_obind {A B} (m : outcome A) (f : A -> outcome B) :
  settled m -> (forall a, settled (f a)) -> settled (obind m f).
Proof.
  intros Hm Hf. destruct m as [a | e |]; simpl;
    [apply Hf | apply settled_exn | exfalso; apply Hm; reflexivity].
Qed.

Lemma settled_omap {A B} (f : A -> outcome B) (l : list A) :
  (forall a, settled (f a)) -> settled (omap f l).
Proof.
  intros Hf. induction l as [| x l IH]; simpl; [apply settled_ret |].
  apply settled_obind; [apply Hf |]. intros y.
  apply settled_obind; [exact IH |]. intros ys. apply settled_ret.
Qed.

Lemma settled_getitem (v : pyval) (k : string) : settled (getitem v k).
Proof.
  destruct v; simpl; try apply settled_exn.
  destruct (Dict.get k d); [apply settled_ret | apply settled_exn].
Qed.

Lemma settled_py_iter (v : pyval) : settled (py_iter v).
Proof. destruct v; simpl; first [apply settled_ret | apply settled_exn]. Qed.

Lemma settled_href_path (v : pyval) : settled (href_path v).
Proof. destruct v; simpl; first [apply settled_ret | apply settled_exn]. Qed.

Lemma settled_json_loads (c : content) : settled (json_loads c).
Proof.
  destruct c as [v | t d | [v |]]; simpl;
    first [apply settled_ret | apply settled_exn].
Qed.

Lemma settled_descend_hrefs (l : list pyval) : settled (descend_hrefs l).
Proof.
  induction l as [| r l IH]; simpl; [apply settled_ret |].
  apply settled_obind; [apply settled_getitem |]. intros rel.
  destruct (_ && _); [| exact IH].
  apply settled_obind; [apply settled_getitem |]. intros href.
  apply settled_obind; [exact IH |]. intros hs. apply settled_ret.
Qed.

Lemma settled_features_of (l : list pyval) : settled (features_of l).
Proof.
  induction l as [| r l IH]; simpl; [apply settled_ret |].
  apply settled_obind; [apply settled_getitem |]. intros ty.
  apply settled_obind; [exact IH |]. intros fs. apply settled_ret.
Qed.

Lemma settled_links_of_others (l : list pyval) : settled (links_of_others l).
Proof.
  induction l as [| r l IH]; simpl; [apply settled_ret |].
  apply settled_obind; [apply settled_getitem |]. intros ty.
  destruct (is_str ty "Feature"); [exact IH |].
  apply settled_obind; [apply settled_getitem |]. intros ls.
  apply settled_obind; [exact IH |]. intros lss. apply settled_ret.
Qed.

Lemma settled_keep_links (l : list pyval) : settled (keep_links l).
Proof.
  induction l as [| r l IH]; simpl; [apply settled_ret |].
  apply settled_obind; [apply settled_getitem |]. intros rel.
  apply settled_obind; [exact IH |]. intros ks. apply settled_ret.
Qed.

Lemma settled_collect_recursive (l : list pyval) :
  settled (collect_recursive l).
Proof.
  induction l as [| r l IH]; simpl; [apply settled_ret |].
  apply settled_obind; [apply settled_py_iter |]. intros objs.
  apply settled_obind; [apply settled_keep_links |]. intros ks.
  apply settled_obind; [exact IH |]. intros more. apply settled_ret.
Qed.

Create HintDb settled.

#[local] Hint Resolve settled_ret settled_exn settled_getitem settled_py_iter
  settled_href_path settled_json_loads settled_descend_hrefs
  settled_features_of settled_links_of_others settled_keep_links
  settled_collect_recursive : settled.

Lemma settled_bind {A B} (m : M A) (f : A -> M B) :
  settled (fst m) -> (forall a, settled (fst (f a))) ->
  settled (fst (bind m f)).
Proof.
  intros Hm Hf. destruct m as [[a | e |] t]; simpl in *;
    [| apply settled_exn | exfalso; apply Hm; reflexivity].
  specialize (Hf a). destruct (f a). exact Hf.
Qed.

Lemma settled_mmap {A B} (f : A -> M B) (l : list A) :
  (forall a, settled (fst (f a))) -> settled (fst (mmap f l)).
Proof.
  intros Hf. induction l as [| x l IH]; simpl mmap; [apply settled_ret |].
  apply settled_bind; [apply Hf |]. intros y.
  apply settled_bind; [exact IH |]. intros ys. apply settled_ret.
Qed.

Lemma bind_diverge_cases {A B} (m : M A) (f : A -> M B) :
  fst (bind m f) = Diverge ->
  fst m = Diverge \/ exists a t, m = (Ret a, t) /\ fst (f a) = Diverge.
Proof.
  destruct m as [[a | e |] t]; simpl; intros Hd.
  - right. exists a, t. split; [reflexivity |]. destruct (f a). exact Hd.
  - discriminate.
  - left. reflexivity.
Qed.

Lemma bind_diverge {A B} (m : M A) (f : A -> M B) :
  fst (bind m f) = Diverge ->
  settled (fst m) ->
  exists a t, m = (Ret a, t) /\ fst (f a) = Diverge.
Proof.
  intros Hd Hs. apply bind_diverge_cases in Hd.
  destruct Hd as [Hd | Hd]; [contradiction | exact Hd].
Qed.

Lemma lift_ret {A} (o : outcome A) (a : A) (t : list event) :
  lift o = (Ret a, t) -> o = Ret a.
Proof. unfold lift. intros Hl. injection Hl as -> _. reflexivity. Qed.

Lemma mmap_in {A B} (f : A -> M B) (l : list A) (r : list B)
    (t : list event) :
  mmap f l = (Ret r, t) ->
  forall y, In y r -> exists x, In x l /\ fst (f x) = Ret y.
Proof.
  revert r t; induction l as [| a l IH]; intros r t Hm y Hy.
  - injection Hm as <- _. contradiction.
  - cbn [mmap] in Hm. apply bind_ret_inv in Hm.
    destruct Hm as (b & t1 & t2 & Hfa & Hm & _).
    apply bind_ret_inv in Hm.
    destruct Hm as (bs & t3 & t4 & Hl & Hr & _).
    injection Hr as <- _. destruct Hy as [<- | Hy].
    + exists a. split; [left; reflexivity |]. rewrite Hfa. reflexivity.
    + destruct (IH _ _ Hl _ Hy) as (x & Hx & Hfx).
      exists x. split; [right; exact Hx | exact Hfx].
Qed.

Section Termination.

Context {ext : Collaborators}.
Variable api : API.
Variable request : APIRequest.

Let search := fun fuel => _recursiveSearchItems api fuel request.
Let follows := edge_by api request kept_rel.

Lemma settled_get_stac_path (path : pyval) :
  settled (fst (get_stac_path api request path)).
Proof.
  unfold get_stac_path. destruct path; try apply settled_exn.
  destruct (lookup _ _) as [r |]; [| apply settled_ret].
  apply settled_bind; [apply settled_ret |]. intros _.
  destruct (provider r) as [gdp | |];
    [| apply settled_ret | apply settled_exn].
  apply settled_bind; [apply settled_ret |]. intros _.
  destruct (gdp _ _ _); try apply settled_ret.
  unfold lift, fst. apply settled_obind.
  - unfold extend_links. destruct (links r) as [| [| ? ?] ?];
      [apply settled_exn | apply settled_ret |].
    destruct (Dict.get "links" _) as [[] |];
      first [apply settled_ret | apply settled_exn].
  - intros content_. destruct (format_is request F_HTML);
      [| apply settled_ret].
    unfold render_path. destruct (Dict.mem _ _); [| apply settled_ret].
    apply settled_obind; [apply settled_getitem |]. intros ty.
    destruct (is_str ty "Collection"); [apply settled_ret |].
    destruct (is_str ty "Feature"); [apply settled_ret | apply settled_exn].
Qed.

Lemma settled_targets (result : pyval) : settled (targets result).
Proof.
  unfold targets. apply settled_obind; [auto with settled |]. intros rs.
  apply settled_obind; [auto with settled |]. intros hrefs.
  apply settled_omap. auto with settled.
Qed.

(** the documents of one round and the paths they were resolved from *)
Lemma resolved_from (paths : list pyval) (responses : list response)
    (docs : list pyval) (t : list event) :
  mmap (get_stac_path api request) paths = (Ret responses, t) ->
  omap (fun r => json_loads (body r)) responses = Ret docs ->
  forall doc, In doc docs ->
  exists p, In p paths /\ resolve api request p = Ret doc.
Proof.
  intros Hm Hd doc Hin.
  destruct (omap_in _ _ _ Hd _ Hin) as (resp & Hresp & Hload).
  destruct (mmap_in _ _ _ _ Hm _ Hresp) as (p & Hp & Hget).
  exists p. split; [exact Hp |]. unfold resolve. rewrite Hget. exact Hload.
Qed.

Lemma links_of_others_in (docs others : list pyval) :
  links_of_others docs = Ret others ->
  forall ls, In ls others ->
  exists doc ty, In doc docs /\ getitem doc "type" = Ret ty /\
                 is_str ty "Feature" = false /\ getitem doc "links" = Ret ls.
Proof.
  revert others; induction docs as [| d docs IH]; simpl; intros others Ho ls Hin.
  - injection Ho as <-. contradiction.
  - obind_inv Ho. destruct (is_str v "Feature") eqn:Hf.
    + destruct (IH _ Ho _ Hin) as (doc & ty & Hd & Hrest).
      exists doc, ty. auto.
    + obind_inv Ho. obind_inv Ho. injection Ho as <-.
      destruct Hin as [<- | Hin].
      * exists d, v. auto.
      * destruct (IH _ Hv1 _ Hin) as (doc & ty & Hd & Hrest).
        exists doc, ty. auto.
Qed.

Lemma keep_links_in (objs kept : list pyval) :
  keep_links objs = Ret kept ->
  forall obj, In obj kept ->
  exists rel, In obj objs /\ getitem obj "rel" = Ret rel /\
              kept_rel rel = true.
Proof.
  revert kept; induction objs as [| o objs IH]; simpl; intros kept Hk obj Hin.
  - injection Hk as <-. contradiction.
  - obind_inv Hk. obind_inv Hk. injection Hk as <-.
    fold (kept_rel v) in Hin. destruct (kept_rel v) eqn:Hrel.
    + destruct Hin as [<- | Hin]; [exists v; auto |].
      destruct (IH _ Hv0 _ Hin) as (rel & Ho & Hrest). exists rel. auto.
    + destruct (IH _ Hv0 _ Hin) as (rel & Ho & Hrest). exists rel. auto.
Qed.

Lemma collect_recursive_in (others recursive : list pyval) :
  collect_recursive others = Ret recursive ->
  forall obj, In obj recursive ->
  exists ls objs rel,
    In ls others /\ py_iter ls = Ret objs /\ In obj objs /\
    getitem obj "rel" = Ret rel /\ kept_rel rel = true.
Proof.
  revert recursive; induction others as [| ls others IH]; simpl;
    intros recursive Hc obj Hin.
  - injection Hc as <-. contradiction.
  - obind_inv Hc. obind_inv Hc. obind_inv Hc. injection Hc as <-.
    apply in_app_or in Hin. destruct Hin as [Hin | Hin].
    + destruct (keep_links_in _ _ Hv0 _ Hin) as (rel & Ho & Hr & Hk).
      exists ls, v, rel. auto.
    + destruct (IH _ Hv1 _ Hin) as (ls' & objs & rel & Hl & Hrest).
      exists ls', objs, rel. auto.
Qed.

Lemma descend_hrefs_in (rs hrefs : list pyval) :
  descend_hrefs rs = Ret hrefs ->
  forall href, In href hrefs ->
  exists r, In r rs /\ getitem r "href" = Ret href.
Proof.
  revert hrefs; induction rs as [| r rs IH]; simpl; intros hrefs Hd href Hin.
  - injection Hd as <-. contradiction.
  - obind_inv Hd. destruct (_ && _).
    + obind_inv Hd. obind_inv Hd. injection Hd as <-.
      destruct Hin as [<- | Hin]; [exists r; auto |].
      destruct (IH _ Hv1 _ Hin) as (r' & Hr' & Hh). exists r'. auto.
    + destruct (IH _ Hd _ Hin) as (r' & Hr' & Hh). exists r'. auto.
Qed.

Lemma targets_in (recursive ts : list pyval) :
  targets (PList recursive) = Ret ts ->
  forall q, In q ts ->
  exists obj h, In obj recursive /\ getitem obj "href" = Ret (PStr h) /\
                href_path (PStr h) = Ret q.
Proof.
  unfold targets. simpl. intros Ht q Hq. obind_inv Ht.
  destruct (omap_in _ _ _ Ht _ Hq) as (href & Hhref & Hpath).
  destruct (descend_hrefs_in _ _ Hv _ Hhref) as (obj & Hobj & Hget).
  destruct href; try discriminate. exists obj, s. auto.
Qed.

(** a search that runs out of fuel has walked as many links as it had fuel *)
Lemma diverge_walk (n : nat) (result : pyval) :
  fst (search (S n) result) = Diverge ->
  exists ts p l,
    targets result = Ret ts /\ In p ts /\
    walk api request (p :: l) /\ List.length (p :: l) = S n.
Proof.
  subst search. revert result. induction n as [| n IH]; intros result Hd;
    cbn [_recursiveSearchItems] in Hd;
    change (rs <~ py_iter result;; hrefs <~ descend_hrefs rs;;
            omap href_path hrefs) with (targets result) in Hd;
    apply bind_diverge in Hd; try apply settled_targets;
    destruct Hd as (paths & t0 & Hpaths & Hd); apply lift_ret in Hpaths;
    apply bind_diverge in Hd;
    try (apply settled_mmap; intros; apply settled_get_stac_path);
    destruct Hd as (responses & t1 & Hresp & Hd);
    apply bind_diverge in Hd;
    try solve [apply settled_omap; intros; cbv beta; auto with settled];
    destruct Hd as (docs & t2 & Hdocs & Hd); apply lift_ret in Hdocs;
    apply bind_diverge in Hd; try solve [unfold lift, fst; auto with settled];
    destruct Hd as (items & t3 & Hitems & Hd);
    apply bind_diverge in Hd; try solve [unfold lift, fst; auto with settled];
    destruct Hd as (others & t4 & Hothers & Hd); apply lift_ret in Hothers;
    (destruct others as [| ls others]; [discriminate |]);
    apply bind_diverge in Hd; try solve [unfold lift, fst; auto with settled];
    destruct Hd as (recursive & t5 & Hrec & Hd); apply lift_ret in Hrec.
  - (* the fuel ends at the first recursive call *)
    destruct (links_of_others_in _ _ Hothers ls (or_introl eq_refl))
      as (doc & ty & Hdoc & Hty & Hnf & Hls).
    destruct (resolved_from _ _ _ _ Hresp Hdocs _ Hdoc) as (p & Hp & Hres).
    exists paths, p, []. repeat split; try assumption.
    apply walk_one. exists doc, ty. auto.
  - (* the recursive call has a walk of its own, one link further *)
    apply bind_diverge_cases in Hd.
    destruct Hd as [Hd | (tmp & t6 & _ & Hd)]; [| discriminate].
    apply IH in Hd. destruct Hd as (ts & q & l & Hts & Hq & Hwalk & Hlen).
    destruct (targets_in _ _ Hts _ Hq) as (obj & h & Hobj & Hhref & Hpath).
    destruct (collect_recursive_in _ _ Hrec _ Hobj)
      as (ls' & objs & rel & Hls' & Hiter & Hin & Hrel & Hkept).
    destruct (links_of_others_in _ _ Hothers _ Hls')
      as (doc & ty & Hdoc & Hty & Hnf & Hlinks).
    destruct (resolved_from _ _ _ _ Hresp Hdocs _ Hdoc) as (p & Hp & Hres).
    exists paths, p, (q :: l). repeat split; try assumption.
    + apply walk_cons; [| exact Hwalk].
      exists doc, ty, ls', objs, obj, rel, h. repeat split; assumption.
    + simpl in *. lia.
Qed.

End Termination.

Section Acyclic.

Context {ext : Collaborators}.
Variable api : API.
Variable request : APIRequest.

Lemma kept_descendable (rel : pyval) :
  kept_rel rel = true -> descendable_rel rel = true.
Proof.
  unfold kept_rel, descendable_rel, is_str.
  destruct rel as [| [|] | z | q | s | l | d]; simpl; try discriminate.
  intros Hk. apply orb_true_iff in Hk.
  destruct Hk as [Hk | Hk]; apply String.eqb_eq in Hk; subst; reflexivity.
Qed.

Lemma edge_by_incl (keep keep' : pyval -> bool) (p q : pyval) :
  (forall rel, keep rel = true -> keep' rel = true) ->
  edge_by api request keep p q -> edge_by api request keep' p q.
Proof.
  intros Hincl (doc & ty & ls & objs & obj & rel & h & H).
  exists doc, ty, ls, objs, obj, rel, h. intuition.
Qed.

Lemma reach_incl (keep keep' : pyval -> bool) (p q : pyval) :
  (forall rel, keep rel = true -> keep' rel = true) ->
  clos_trans pyval (edge_by api request keep) p q ->
  clos_trans pyval (edge_by api request keep') p q.
Proof.
  intros Hincl Hp. induction Hp as [x y Hxy | x y z _ IH1 _ IH2].
  - apply t_step. eapply edge_by_incl; eauto.
  - eapply t_trans; eauto.
Qed.

Lemma acyclic_incl (keep keep' : pyval -> bool) :
  (forall rel, keep rel = true -> keep' rel = true) ->
  acyclic api request keep' -> acyclic api request keep.
Proof.
  intros Hincl Hacyc p Hp. apply (Hacyc p).
  eapply reach_incl; eauto.
Qed.

Lemma edge_source_node (keep : pyval -> bool) (p q : pyval) :
  edge_by api request keep p q -> is_node api request p.
Proof.
  intros (doc & ty & ls & objs & obj & rel & h & Hres & Hty & Hnf & _).
  exists doc, ty. auto.
Qed.

Lemma walk_nodes (l : list pyval) :
  walk api request l -> Forall (is_node api request) l.
Proof.
  induction 1 as [p Hp | p q l Hpq _ IH].
  - constructor; [exact Hp | constructor].
  - constructor; [eapply edge_source_node; eauto | exact IH].
Qed.

Lemma walk_reach (p : pyval) (l : list pyval) :
  walk api request (p :: l) ->
  forall x, In x l -> clos_trans pyval (edge_by api request kept_rel) p x.
Proof.
  revert p. induction l as [| q l IH]; intros p Hw x Hx; [contradiction |].
  inversion Hw as [| ? ? ? Hpq Hrest]; subst.
  destruct Hx as [<- | Hx]; [apply t_step, Hpq |].
  eapply t_trans; [apply t_step, Hpq | apply IH; assumption].
Qed.

Lemma walk_NoDup (l : list pyval) :
  acyclic api request kept_rel -> walk api request l -> NoDup l.
Proof.
  intros Hacyc. induction 1 as [p Hp | p q l Hpq Hw IH].
  - constructor; [intros [] | constructor].
  - constructor; [| exact IH]. intros Hin.
    apply (Hacyc p). eapply walk_reach; [| exact Hin].
    apply walk_cons; assumption.
Qed.

(** in a finite catalog with no cycle of followed links, a walk is no
    longer than the list of the documents *)
Lemma walk_bounded (nodes l : list pyval) :
  (forall p, is_node api request p -> In p nodes) ->
  acyclic api request kept_rel ->
  walk api request l -> (List.length l <= List.length nodes)%nat.
Proof.
  intros Hfin Hacyc Hw. apply NoDup_incl_length.
  - apply walk_NoDup; assumption.
  - intros p Hp. apply Hfin. apply walk_nodes in Hw.
    rewrite Forall_forall in Hw. apply Hw, Hp.
Qed.

Lemma search_settles (nodes : list pyval) (fuel : nat) (result : pyval) :
  (forall p, is_node api request p -> In p nodes) ->
  acyclic api request kept_rel ->
  (List.length nodes < fuel)%nat ->
  settled (fst (_recursiveSearchItems api fuel request result)).
Proof.
  intros Hfin Hacyc Hfuel Hd.
  destruct fuel as [| n]; [lia |].
  apply diverge_walk in Hd.
  destruct Hd as (ts & p & l & _ & _ & Hw & Hlen).
  pose proof (walk_bounded nodes _ Hfin Hacyc Hw). lia.
Qed.

Lemma bind_settled_ext {A B} (m : M A) (f g : A -> M B) :
  (forall a t, m = (Ret a, t) -> settled (fst (f a)) -> g a = f a) ->
  settled (fst (bind m f)) -> bind m g = bind m f.
Proof.
  intros Hext Hs. destruct m as [[a | e |] t]; simpl in *; try reflexivity.
  rewrite (Hext a t eq_refl); [reflexivity |].
  destruct (f a). exact Hs.
Qed.

Lemma bind_settled_fst {A B} (m : M A) (f : A -> M B) :
  settled (fst (bind m f)) -> settled (fst m).
Proof.
  intros Hs Hd. apply Hs. destruct m as [[a | e |] t]; simpl in *;
    try discriminate. reflexivity.
Qed.

Lemma search_unfold (fuel : nat) (result : pyval) :
  _recursiveSearchItems api (S fuel) request result =
  (paths <- lift (targets result) ;;
   responses <- mmap (get_stac_path api request) paths ;;
   docs <- lift (omap (fun r => json_loads (body r)) responses) ;;
   items <- lift (features_of docs) ;;
   others <- lift (links_of_others docs) ;;
   match others with
   | [] => ret items
   | _ :: _ =>
       recursive <- lift (collect_recursive others) ;;
       tmp <- _recursiveSearchItems api fuel request (PList recursive) ;;
       ret (items ++ tmp)
   end).
Proof. reflexivity. Qed.

(** once the search has an answer, more fuel gives the same answer *)
Lemma search_fuel_mono (fuel : nat) (result : pyval) :
  settled (fst (_recursiveSearchItems api fuel request result)) ->
  _recursiveSearchItems api (S fuel) request result
  = _recursiveSearchItems api fuel request result.
Proof.
  revert result. induction fuel as [| fuel IH]; intros result Hs.
  - exfalso. apply Hs. reflexivity.
  - rewrite search_unfold in Hs. rewrite (search_unfold (S fuel)).
    rewrite (search_unfold fuel).
    apply bind_settled_ext; [| exact Hs]. intros paths t0 _ Hs0.
    apply bind_settled_ext; [| exact Hs0]. intros responses t1 _ Hs1.
    apply bind_settled_ext; [| exact Hs1]. intros docs t2 _ Hs2.
    apply bind_settled_ext; [| exact Hs2]. intros items t3 _ Hs3.
    apply bind_settled_ext; [| exact Hs3]. intros others t4 _ Hs4.
    destruct others as [| ls others]; [reflexivity |].
    apply bind_settled_ext; [| exact Hs4]. intros recursive t5 _ Hs5.
    apply bind_settled_fst in Hs5. rewrite (IH _ Hs5). reflexivity.
Qed.

Lemma search_fuel_stable (fuel more : nat) (result : pyval) :
  settled (fst (_recursiveSearchItems api fuel request result)) ->
  _recursiveSearchItems api (fuel + more) request result
  = _recursiveSearchItems api fuel request result.
Proof.
  intros Hs. induction more as [| more IH].
  - rewrite Nat.add_0_r. reflexivity.
  - rewrite Nat.add_succ_r, search_fuel_mono; [exact IH |].
    rewrite IH. exact Hs.
Qed.

End Acyclic.

(** C2, as the code has it: in a catalog with finitely many documents and
    no cycle through links other than root, self and parent links, the
    recursive item search returns (a list or an exception) once it has
    enough fuel, and more fuel does not change what it returns. *)
Theorem flatten_terminates `{Collaborators} (api : API) (request : APIRequest) :
  finite_catalog api request ->
  acyclic api request descendable_rel ->
  exists N,
    forall result fuel,
      (N <= fuel)%nat ->
      settled (fst (_recursiveSearchItems api fuel request result))
      /\ _recursiveSearchItems api fuel request result
         = _recursiveSearchItems api N request result.
Proof.
  intros [nodes Hfin] Hacyc.
  assert (Hkept : acyclic api request kept_rel).
  { eapply acyclic_incl; [apply kept_descendable | exact Hacyc]. }
  exists (S (List.length nodes)). intros result fuel Hfuel.
  assert (HN : settled (fst (_recursiveSearchItems api (S (List.length nodes))
                               request result))).
  { eapply search_settles; eauto. }
  split.
  - eapply search_settles; eauto.
  - replace fuel with (S (List.length nodes) + (fuel - S (List.length nodes)))%nat
      by lia.
    apply search_fuel_stable, HN.
Qed.

Section TwoCollections.

Let api := Sample.two_api.
Let request := Sample.post PNone.

Lemma two_nodes (p : pyval) :
  is_node (ext := Sample.geo) api request p ->
  In p [PStr "c1"; PStr "c2"].
Proof.
  subst api request. intros (doc & ty & Hres & Hty & Hnf).
  destruct p as [| | | | s | |]; try discriminate.
  unfold resolve, get_stac_path in Hres.
  change (stac_collections Sample.two_api)
    with [("c1", Sample.collection (Sample.leaf_data "c1" "X" [5; 5; 15; 15]%Z));
          ("c2", Sample.collection (Sample.leaf_data "c2" "Y" [20; 20; 30; 30]%Z))]
    in Hres.
  cbn [lookup] in Hres.
  destruct (String.eqb (Str.first (Str.split "/" s)) "c1").
  - cbn in Hres. unfold Sample.leaf_data in Hres.
    destruct (String.eqb_spec s "c1") as [-> | Hne].
    + left. reflexivity.
    + cbn in Hres. injection Hres as <-. cbn in Hty. injection Hty as <-.
      discriminate.
  - destruct (String.eqb (Str.first (Str.split "/" s)) "c2").
    + cbn in Hres. unfold Sample.leaf_data in Hres.
      destruct (String.eqb_spec s "c2") as [-> | Hne].
      * right. left. reflexivity.
      * cbn in Hres. injection Hres as <-. cbn in Hty. injection Hty as <-.
        discriminate.
    + cbn in Hres. injection Hres as <-. discriminate.
Qed.

Lemma two_targets (p q : pyval) :
  edge_by (ext := Sample.geo) api request descendable_rel p q ->
  ~ is_node (ext := Sample.geo) api request q.
Proof.
  intros Hedge Hq. pose proof (edge_source_node _ _ _ _ _ Hedge) as Hp.
  apply two_nodes in Hp. apply two_nodes in Hq.
  destruct Hedge as (doc & ty & ls & objs & obj & rel & h & Hres & _ & _
                     & Hls & Hiter & Hin & _ & _ & Hhref & Hpath).
  destruct Hp as [<- | [<- | []]];
    vm_compute in Hres; injection Hres as <-;
    vm_compute in Hls; injection Hls as <-;
    vm_compute in Hiter; injection Hiter as <-;
    (destruct Hin as [<- | []]);
    vm_compute in Hhref; injection Hhref as <-;
    vm_compute in Hpath; injection Hpath as <-;
    destruct Hq as [Hq | [Hq | []]]; discriminate Hq.
Qed.

Lemma two_acyclic :
  acyclic (ext := Sample.geo) api request descendable_rel.
Proof.
  intros p Hcycle.
  assert (Hends : forall x y,
            clos_trans pyval
              (edge_by (ext := Sample.geo) api request descendable_rel) x y ->
            is_node (ext := Sample.geo) api request x
            /\ ~ is_node (ext := Sample.geo) api request y).
  { intros x y Hxy. induction Hxy as [x y Hxy | x y z _ [Hx _] _ [_ Hz]].
    - split; [eapply edge_source_node; eauto | eapply two_targets; eauto].
    - auto. }
  destruct (Hends _ _ Hcycle) as [Hp Hnp]. contradiction.
Qed.

Lemma two_finite : finite_catalog (ext := Sample.geo) api request.
Proof. exists [PStr "c1"; PStr "c2"]. apply two_nodes. Qed.

End TwoCollections.
Lemma flatten_terminates_witness :
  exists N,
    forall fuel,
      (N <= fuel)%nat ->
      settled
        (fst (_recursiveSearchItems (ext := Sample.geo) Sample.two_api fuel
                (Sample.post PNone)
                (PList [Sample.json_link "item" "http://h/stac/c1/X"]))).
Proof.
  destruct (@flatten_terminates Sample.geo Sample.two_api (Sample.post PNone)
              two_finite two_acyclic) as [N HN].
  exists N. intros fuel Hfuel. apply (HN _ _ Hfuel).
Defined.

Section ItemCycle.

Let api := Sample.loop_api.
Let request := Sample.post PNone.

Lemma loop_no_child (p q : pyval) :
  ~ edge_by (ext := Sample.geo) api request child_rel p q.
Proof.
  subst api request.
  intros (doc & ty & ls & objs & obj & rel & h & Hres & _ & _
          & Hls & Hiter & Hin & Hrel & Hchild & _).
  destruct p as [| | | | s | |]; try discriminate.
  unfold resolve, get_stac_path in Hres.
  change (stac_collections Sample.loop_api)
    with [("col", Sample.collection Sample.loop_data)] in Hres.
  cbn [lookup] in Hres.
  destruct (String.eqb (Str.first (Str.split "/" s)) "col").
  - cbn in Hres. injection Hres as <-.
    cbn in Hls. injection Hls as <-.
    cbn in Hiter. injection Hiter as <-.
    destruct Hin as [<- | []].
    cbn in Hrel. injection Hrel as <-. discriminate Hchild.
  - cbn in Hres. injection Hres as <-. discriminate Hls.
Qed.

Lemma loop_round (data : pyval) (fuel : nat) :
  fst (_recursiveSearchItems (ext := Sample.geo) api fuel (Sample.post data)
         (PList [Sample.loop_link])) = Diverge.
Proof.
  subst api. induction fuel as [| fuel IH]; [reflexivity |].
  rewrite search_unfold. cbn.
  destruct (_recursiveSearchItems _ _ _ _) as [[tmp | e |] t];
    simpl in *; try discriminate.
  reflexivity.
Qed.

Lemma loop_search (fuel : nat) :
  fst (get_stac_search (ext := Sample.geo) api fuel
         (Sample.post (PDict [])) "POST") = Diverge.
Proof.
  pose proof (loop_round (PDict []) fuel) as Hround. subst api request.
  unfold get_stac_search, flatten_collections. cbn.
  destruct (_recursiveSearchItems _ _ _ _) as [[tmp | e |] t];
    simpl in *; try discriminate.
  reflexivity.
Qed.

End ItemCycle.

(** C2, as stated, fails: a catalog whose only link is an item link to
    itself has no child link at all, hence no cycle of child links, and
    neither the recursive item search nor the search operation returns on
    it, whatever the fuel. *)
Lemma item_cycle_diverges :
  acyclic (ext := Sample.geo) Sample.loop_api (Sample.post PNone) child_rel
  /\ (forall fuel,
        fst (_recursiveSearchItems (ext := Sample.geo) Sample.loop_api fuel
               (Sample.post PNone) (PList [Sample.loop_link])) = Diverge)
  /\ (forall fuel,
        fst (get_stac_search (ext := Sample.geo) Sample.loop_api fuel
               (Sample.post (PDict [])) "POST") = Diverge).
Proof.
  split; [| split; [apply loop_round | apply loop_search]].
  intros p Hcycle.
  assert (Hfirst : forall x y,
            clos_trans pyval
              (edge_by (ext := Sample.geo) Sample.loop_api (Sample.post PNone)
                 child_rel) x y ->
            exists z,
              edge_by (ext := Sample.geo) Sample.loop_api (Sample.post PNone)
                child_rel x z).
  { intros x y Hxy. induction Hxy as [x y Hxy | x y z _ IH _ _]; eauto. }
  destruct (Hfirst _ _ Hcycle) as [z Hz]. exact (loop_no_child _ _ Hz).
Qed.

(** an item directly under a collection is found, as the specification of
    the flattening has it *)
Example flatten_finds_direct_item :
  exists x,
    fst (_recursiveSearchItems (ext := Sample.geo) Sample.two_api 2
           (Sample.post PNone)
           (PList [Sample.json_link "item" "http://h/stac/c1/X"]))
    = Ret [PDict x]
    /\ spec_flatten (ext := Sample.geo) Sample.two_api (Sample.post PNone) 2
         [Sample.json_link "item" "http://h/stac/c1/X"] = Ret [PDict x]
    /\ Dict.get "id" x = Some (PStr "X").
Proof. eexists. repeat split; reflexivity. Qed.

(** C1 on a catalog with a catalog under a catalog: the Feature [f] lies
    under col, A and B along child, child and item links; the recursive
    item search, given the links of the collection, stops at A and returns
    no item, and the search operation answers with no feature. *)
Lemma flatten_misses_nested_child :
  (forall fuel,
     (2 <= fuel)%nat ->
     fst (_recursiveSearchItems (ext := Sample.geo) Sample.nested_api fuel
            (Sample.post PNone) (PList Sample.nested_links)) = Ret [])
  /\ (exists f,
        spec_flatten (ext := Sample.geo) Sample.nested_api (Sample.post PNone)
          3 Sample.nested_links = Ret [PDict f]
        /\ Dict.get "id" f = Some (PStr "f"))
  /\ (forall fuel,
        (2 <= fuel)%nat ->
        exists h,
          fst (get_stac_search (ext := Sample.geo) Sample.nested_api fuel
                 (Sample.post (PDict [])) "POST")
          = Ret (h, OK, Json (feature_collection []))).
Proof.
  split; [| split].
  - intros [| [| n]] Hfuel; [lia | lia | reflexivity].
  - eexists. split; reflexivity.
  - intros [| [| n]] Hfuel; [lia | lia |]. eexists. reflexivity.
Qed.

(** * Further properties *)

(** ** Splitting at one character *)

Lemma split_one_step (c a : ascii) (cur s : string) :
  Str.split_go (String c EmptyString) 0 cur (String a s) =
  if Ascii.eqb a c
  then cur :: Str.split_go (String c EmptyString) 0 EmptyString s
  else Str.split_go (String c EmptyString) 0 (cur ++ String a EmptyString) s.
Proof.
  cbn [Str.split_go String.prefix String.length Nat.sub].
  destruct (ascii_dec c a) as [<- | Hne].
  - rewrite Ascii.eqb_refl. destruct s; reflexivity.
  - destruct (Ascii.eqb_spec a c) as [-> | _]; [contradiction | reflexivity].
Qed.

Lemma append_assoc (a b c : string) : ((a ++ b) ++ c = a ++ (b ++ c))%string.
Proof. induction a as [| x a IH]; simpl; [reflexivity | rewrite IH; reflexivity]. Qed.

Lemma append_nil_r (a : string) : (a ++ "" = a)%string.
Proof. induction a as [| x a IH]; simpl; [reflexivity | rewrite IH; reflexivity]. Qed.

Lemma mentions_app (c : ascii) (a b : string) :
  mentions c (a ++ b) = mentions c a || mentions c b.
Proof.
  induction a as [| x a IH]; simpl; [reflexivity |].
  rewrite IH, orb_assoc. reflexivity.
Qed.

Lemma split_one_none (c : ascii) (cur s : string) :
  mentions c s = false ->
  Str.split_go (String c EmptyString) 0 cur s = [(cur ++ s)%string].
Proof.
  revert cur. induction s as [| a s IH]; intros cur Hs.
  - simpl. rewrite append_nil_r. reflexivity.
  - simpl in Hs. apply orb_false_elim in Hs. destruct Hs as [Ha Hs].
    rewrite split_one_step, Ha, (IH _ Hs), append_assoc. reflexivity.
Qed.

Lemma split_go_nonempty (sep : string) (skip : nat) (cur s : string) :
  Str.split_go sep skip cur s <> [].
Proof.
  revert skip cur. induction s as [| a s IH]; intros skip cur;
    cbn [Str.split_go].
  - discriminate.
  - destruct skip; [| apply IH].
    destruct (String.prefix sep (String a s)); [discriminate | apply IH].
Qed.

Lemma last_cons_nonempty (x : string) (l : list string) :
  l <> [] -> Str.last (x :: l) = Str.last l.
Proof. destruct l; [contradiction | reflexivity]. Qed.

(** the last piece is what follows the last separator *)
Lemma split_one_last (c : ascii) (cur p k : string) :
  mentions c k = false ->
  Str.last (Str.split_go (String c EmptyString) 0 cur (p ++ String c k)) = k.
Proof.
  intros Hk. revert cur. induction p as [| a p IH]; intros cur.
  - cbn [append]. rewrite split_one_step, Ascii.eqb_refl.
    rewrite (split_one_none _ _ _ Hk). reflexivity.
  - cbn [append]. rewrite split_one_step. destruct (Ascii.eqb a c).
    + rewrite last_cons_nonempty by apply split_go_nonempty. apply IH.
    + apply IH.
Qed.

(** the first piece is what precedes the first separator *)
Lemma split_one_first (c : ascii) (cur k rest : string) :
  mentions c k = false ->
  Str.first (Str.split_go (String c EmptyString) 0 cur (k ++ String c rest))
  = (cur ++ k)%string.
Proof.
  revert cur. induction k as [| a k IH]; intros cur Hk.
  - cbn [append]. rewrite split_one_step, Ascii.eqb_refl, append_nil_r.
    reflexivity.
  - simpl in Hk. apply orb_false_elim in Hk. destruct Hk as [Ha Hk].
    cbn [append]. rewrite split_one_step, Ha, (IH _ Hk), append_assoc.
    reflexivity.
Qed.

Lemma concat_cons_nonempty (sep x : string) (l : list string) :
  l <> [] -> String.concat sep (x :: l) = (x ++ sep ++ String.concat sep l)%string.
Proof. destruct l; [contradiction | reflexivity]. Qed.

(** [sep.join(s.split(sep)) == s], and no piece holds the separator *)
Lemma split_one_join (c : ascii) (cur s : string) :
  String.concat (String c EmptyString)
    (Str.split_go (String c EmptyString) 0 cur s) = (cur ++ s)%string.
Proof.
  revert cur. induction s as [| a s IH]; intros cur.
  - simpl. rewrite append_nil_r. reflexivity.
  - rewrite split_one_step. destruct (Ascii.eqb_spec a c) as [-> | Hne].
    + rewrite concat_cons_nonempty by apply split_go_nonempty.
      rewrite IH. reflexivity.
    + rewrite IH, append_assoc. reflexivity.
Qed.

Lemma split_one_pieces (c : ascii) (cur s : string) :
  mentions c cur = false ->
  Forall (fun piece => mentions c piece = false)
         (Str.split_go (String c EmptyString) 0 cur s).
Proof.
  revert cur. induction s as [| a s IH]; intros cur Hcur.
  - simpl. constructor; [exact Hcur | constructor].
  - rewrite split_one_step. destruct (Ascii.eqb a c) eqn:Ha.
    + constructor; [exact Hcur | apply IH; reflexivity].
    + apply IH. rewrite mentions_app, Hcur. simpl. rewrite Ha. reflexivity.
Qed.

Lemma substring_suffix (p suf : string) :
  String.substring (String.length p) (String.length suf) (p ++ suf) = suf.
Proof.
  induction p as [| a p IH]; simpl; [| exact IH].
  induction suf as [| b suf IHs]; simpl; [reflexivity |].
  rewrite IHs. reflexivity.
Qed.

Lemma length_append (a b : string) :
  String.length (a ++ b) = (String.length a + String.length b)%nat.
Proof. induction a as [| x a IH]; simpl; [reflexivity | rewrite IH; reflexivity]. Qed.

Lemma endswith_append (p suf : string) : Str.endswith suf (p ++ suf) = true.
Proof.
  unfold Str.endswith. rewrite length_append.
  replace (String.length p + String.length suf - String.length suf)%nat
    with (String.length p) by lia.
  rewrite substring_suffix, String.eqb_refl, andb_true_r.
  apply Nat.leb_le. lia.
Qed.

(** ** From the root document back to the collections *)

Lemma root_href_names (stac_url key : string) :
  mentions "/" key = false -> mentions "?" key = false ->
  Str.endswith "json" (stac_url ++ "/" ++ key ++ "?f=" ++ F_JSON) = true
  /\ Str.first (Str.split "?"
                  (Str.last (Str.split "/"
                               (stac_url ++ "/" ++ key ++ "?f=" ++ F_JSON))))
     = key.
Proof.
  intros Hslash Hquest. split.
  - replace (stac_url ++ "/" ++ key ++ "?f=" ++ F_JSON)%string
      with ((stac_url ++ "/" ++ key ++ "?f=") ++ "json")%string.
    + apply endswith_append.
    + rewrite append_assoc. cbn [append]. do 2 f_equal.
      rewrite append_assoc. reflexivity.
  - unfold Str.split. cbn [append F_JSON].
    rewrite split_one_last.
    + rewrite split_one_first by exact Hquest. reflexivity.
    + rewrite mentions_app, Hslash. reflexivity.
Qed.

Section Root.

Context {ext : Collaborators}.
Variable api : API.
Variable request : APIRequest.
Hypothesis json_request : format_is request F_HTML = false.

Let stac_url := (base_url api ++ "/stac")%string.

Lemma child_hrefs_static :
  child_hrefs (root_static_links api stac_url) = Ret [].
Proof. reflexivity. Qed.

Lemma child_hrefs_root (cols : list (string * resource)) :
  child_hrefs (flat_map (fun kv => root_child_links request stac_url (fst kv))
                        cols
               ++ root_static_links api stac_url)
  = Ret (map (fun kv => PStr (stac_url ++ "/" ++ fst kv ++ "?f=" ++ F_JSON))
             cols).
Proof.
  induction cols as [| [key r] cols IH].
  - apply child_hrefs_static.
  - cbn [flat_map]. unfold root_child_links at 1. rewrite json_request.
    cbn [app fst map]. cbn [child_hrefs].
    change (getitem (link "child" (stac_url ++ "/" ++ key ++ "?f=" ++ F_JSON)
                       (FORMAT_TYPES F_JSON)) "rel")
      with (Ret (PStr "child")).
    cbn [obind]. change (is_str (PStr "child") "child") with true. cbv iota.
    change (getitem (link "child" (stac_url ++ "/" ++ key ++ "?f=" ++ F_JSON)
                       (FORMAT_TYPES F_JSON)) "href")
      with (Ret (PStr (stac_url ++ "/" ++ key ++ "?f=" ++ F_JSON))).
    cbn [obind]. rewrite IH. reflexivity.
Qed.

Lemma collection_names_root (cols : list (string * resource)) :
  Forall (fun kv => mentions "/" (fst kv) = false
                    /\ mentions "?" (fst kv) = false) cols ->
  collection_names
    (map (fun kv => PStr (stac_url ++ "/" ++ fst kv ++ "?f=" ++ F_JSON)) cols)
  = Ret (map (fun kv => PStr (fst kv)) cols).
Proof.
  induction 1 as [| [key r] cols [Hslash Hquest] _ IH];
    [reflexivity |].
  cbn [map fst collection_names]. rewrite IH. cbn [obind].
  destruct (root_href_names stac_url key Hslash Hquest) as [Hend Hname].
  rewrite Hend, Hname. reflexivity.
Qed.

End Root.

(** X1: for a request that is not for HTML, the collections a search takes
    from the root document when the query names none are the configured
    stac-collections, in their order, provided no name holds a slash or a
    question mark. *)
Theorem root_collections_roundtrip `{Collaborators} (api : API)
    (request : APIRequest) :
  format_is request F_HTML = false ->
  Forall (fun kv => mentions "/" (fst kv) = false
                    /\ mentions "?" (fst kv) = false) (stac_collections api) ->
  root_collections api request
  = Ret (PList (map (fun kv => PStr (fst kv)) (stac_collections api))).
Proof.
  intros Hjson Hnames. unfold root_collections, get_stac_root.
  rewrite Hjson. cbn [body snd json_loads obind].
  match goal with
  | |- context [getitem (PDict ?d) "links"] =>
      change (getitem (PDict d) "links")
        with (Ret (PList
                     (flat_map (fun kv =>
                                  root_child_links request
                                    (base_url api ++ "/stac") (fst kv))
                               (stac_collections api)
                      ++ root_static_links api (base_url api ++ "/stac"))))
  end.
  cbn [obind py_iter].
  rewrite (child_hrefs_root api request Hjson). cbn [obind].
  rewrite (collection_names_root api _ Hnames). reflexivity.
Qed.

Lemma root_collections_roundtrip_witness :
  root_collections (ext := Sample.geo) Sample.two_api (Sample.post PNone)
  = Ret (PList [PStr "c1"; PStr "c2"]).
Proof.
  apply (@root_collections_roundtrip Sample.geo Sample.two_api
           (Sample.post PNone)); [reflexivity |].
  repeat constructor.
Defined.

(** X2: the HTML form of the root document cannot be read back: a search
    for HTML whose query names no collection raises before any provider is
    called. *)
Theorem html_search_raises `{Collaborators} (api : API) (fuel : nat)
    (request : APIRequest) (method : string) (queries : dict)
    (sortby : pyval) :
  is_valid request = true ->
  format_is request F_HTML = true ->
  parse_queries request method = Ret queries ->
  read_sortby queries = Ret sortby ->
  Dict.mem "collections" queries = false ->
  Dict.mem "bbox" queries && Dict.mem "intersects" queries = false ->
  get_stac_search api fuel request method = (Exn ValueError, []).
Proof.
  intros Hvalid Hhtml Hparse Hsort Hcols Hboth.
  unfold get_stac_search. rewrite Hvalid, Hparse. simpl negb. cbv iota.
  rewrite bind_ret_l.
  destruct (read_max_items_total queries) as [m Hm]. rewrite Hm, bind_ret_l.
  rewrite Hsort, bind_ret_l.
  rewrite !dict_mem_keys, !dict_mem_strip by discriminate.
  rewrite Hboth, Hcols. cbn [negb].
  unfold root_collections, get_stac_root. rewrite Hhtml. reflexivity.
Qed.

Lemma html_search_raises_witness :
  get_stac_search (ext := Sample.geo) Sample.two_api 3
    (More.html (PDict [])) "POST" = (Exn ValueError, []).
Proof.
  apply (@html_search_raises Sample.geo Sample.two_api 3
           (More.html (PDict [])) "POST" [] (PDict [("field", PStr "")]));
    reflexivity.
Defined.

(** ** One round of the recursive item search *)

Lemma omap_forward {A B} (f : A -> outcome B) (l : list A) (r : list B) :
  omap f l = Ret r ->
  forall x, In x l -> exists y, In y r /\ f x = Ret y.
Proof.
  intros Hm x Hx. apply In_nth_error in Hx. destruct Hx as [i Hi].
  destruct (omap_nth _ _ _ Hm _ _ Hi) as (y & Hy & Hf).
  exists y. split; [eapply nth_error_In; eauto | exact Hf].
Qed.

Lemma mmap_forward {A B} (f : A -> M B) (l : list A) (r : list B)
    (t : list event) :
  mmap f l = (Ret r, t) ->
  forall x, In x l -> exists y, In y r /\ fst (f x) = Ret y.
Proof.
  revert r t; induction l as [| a l IH]; intros r t Hm x Hx; [contradiction |].
  cbn [mmap] in Hm. apply bind_ret_inv in Hm.
  destruct Hm as (b & t1 & t2 & Hfa & Hm & _).
  apply bind_ret_inv in Hm. destruct Hm as (bs & t3 & t4 & Hl & Hr & _).
  injection Hr as <- _. destruct Hx as [<- | Hx].
  - exists b. split; [left; reflexivity | rewrite Hfa; reflexivity].
  - destruct (IH _ _ Hl _ Hx) as (y & Hy & Hfx).
    exists y. split; [right; exact Hy | exact Hfx].
Qed.

Lemma features_of_typed (docs fs : list pyval) :
  features_of docs = Ret fs ->
  forall doc, In doc docs -> exists ty, getitem doc "type" = Ret ty.
Proof.
  revert fs; induction docs as [| d docs IH]; intros fs Hf doc Hin;
    [contradiction |].
  cbn [features_of] in Hf. obind_inv Hf. obind_inv Hf.
  destruct Hin as [<- | Hin]; [eauto | eapply IH; eauto].
Qed.

Lemma fst_ret {A} (m : M A) (a : A) :
  fst m = Ret a -> exists t, m = (Ret a, t).
Proof. destruct m as [o t]. simpl. intros ->. eauto. Qed.

Section Round.

Context {ext : Collaborators}.
Variable api : API.
Variable request : APIRequest.

Lemma resolve_response (p doc : pyval) :
  resolve api request p = Ret doc ->
  exists resp, fst (get_stac_path api request p) = Ret resp
               /\ json_loads (body resp) = Ret doc.
Proof.
  unfold resolve. intros Hr. obind_inv Hr. eauto.
Qed.

Lemma resolved_all (paths docs : list pyval) :
  Forall2 (fun p doc => resolve api request p = Ret doc) paths docs ->
  exists responses t,
    mmap (get_stac_path api request) paths = (Ret responses, t)
    /\ omap (fun r => json_loads (body r)) responses = Ret docs.
Proof.
  induction 1 as [| p doc paths docs Hp _ (responses & t & Hm & Ho)].
  - exists [], []. split; reflexivity.
  - destruct (resolve_response _ _ Hp) as (resp & Hget & Hload).
    apply fst_ret in Hget. destruct Hget as [t0 Hget].
    exists (resp :: responses), (t0 ++ t ++ []).
    split.
    + cbn [mmap]. rewrite Hget. cbn [bind]. rewrite Hm. reflexivity.
    + cbn [omap]. rewrite Hload. cbn [obind]. rewrite Ho. reflexivity.
Qed.

Lemma features_only (docs : list pyval) :
  Forall (fun doc => exists ty, getitem doc "type" = Ret ty
                                /\ is_str ty "Feature" = true) docs ->
  features_of docs = Ret docs /\ links_of_others docs = Ret [].
Proof.
  induction 1 as [| doc docs (ty & Hty & Hf) _ [IH1 IH2]].
  - split; reflexivity.
  - cbn [features_of links_of_others]. rewrite Hty. cbn [obind].
    rewrite IH1, Hf, IH2. split; reflexivity.
Qed.

End Round.

(** X3: no partial result: when a link that is followed leads to a path
    that does not resolve to a document with a type (an unknown collection,
    a provider failure, a file), the recursive item search returns no list
    at all, whatever the other links lead to. *)
Theorem unresolved_link_aborts `{Collaborators} (api : API)
    (request : APIRequest) (result : pyval) (paths : list pyval) (p : pyval) :
  targets result = Ret paths ->
  In p paths ->
  (forall doc ty, resolve api request p = Ret doc ->
                  getitem doc "type" <> Ret ty) ->
  forall fuel items,
    fst (_recursiveSearchItems api fuel request result) <> Ret items.
Proof.
  intros Htargets Hp Hbad fuel items Hret.
  destruct fuel as [| fuel]; [discriminate |].
  apply fst_ret in Hret. destruct Hret as [t Hret].
  rewrite search_unfold, Htargets, bind_ret_l in Hret.
  apply bind_ret_inv in Hret.
  destruct Hret as (responses & t1 & t2 & Hm & Hret & _).
  apply bind_ret_inv in Hret.
  destruct Hret as (docs & t3 & t4 & Hdocs & Hret & _).
  apply lift_ret in Hdocs.
  apply bind_ret_inv in Hret.
  destruct Hret as (fs & t5 & t6 & Hfs & _). apply lift_ret in Hfs.
  destruct (mmap_forward _ _ _ _ Hm _ Hp) as (resp & Hresp & Hget).
  destruct (omap_forward _ _ _ Hdocs _ Hresp) as (doc & Hdoc & Hload).
  destruct (features_of_typed _ _ Hfs _ Hdoc) as [ty Hty].
  apply (Hbad doc ty); [| exact Hty].
  unfold resolve. rewrite Hget. exact Hload.
Qed.

Lemma unresolved_link_aborts_witness :
  fst (_recursiveSearchItems (ext := Sample.geo) Sample.two_api 3
         (Sample.post PNone)
         (PList [Sample.json_link "item" "http://h/stac/c1/X";
                 Sample.json_link "item" "http://h/stac/gone/Z"]))
  <> Ret [PDict [("type", PStr "Feature"); ("id", PStr "X")]].
Proof.
  refine (@unresolved_link_aborts Sample.geo Sample.two_api (Sample.post PNone)
            _ [PStr "c1/X"; PStr "gone/Z"] (PStr "gone/Z") _ _ _ 3 _).
  - reflexivity.
  - right. left. reflexivity.
  - intros doc ty Hres. vm_compute in Hres. injection Hres as <-.
    discriminate.
Defined.

(** X4: when every followed link of the first round leads to a Feature,
    the search returns these Features in the order of the links, one for
    each link: a Feature linked twice comes twice. *)
Theorem first_round_features `{Collaborators} (api : API)
    (request : APIRequest) (result : pyval) (paths docs : list pyval) :
  targets result = Ret paths ->
  Forall2 (resolves_to_feature api request) paths docs ->
  forall fuel,
    fst (_recursiveSearchItems api (S fuel) request result) = Ret docs
    /\ List.length docs = List.length paths.
Proof.
  intros Htargets Hall fuel. split.
  - assert (Hres : Forall2 (fun p doc => resolve api request p = Ret doc)
                           paths docs).
    { eapply Forall2_impl; [| exact Hall]. intros p doc [Hr _]. exact Hr. }
    assert (Hfeat : Forall (fun doc => exists ty, getitem doc "type" = Ret ty
                                        /\ is_str ty "Feature" = true) docs).
    { clear Hres Htargets. induction Hall as [| p doc ps ds Hpd _ IH].
      - constructor.
      - constructor; [exact (proj2 Hpd) | exact IH]. }
    destruct (resolved_all api request _ _ Hres) as (responses & t & Hm & Ho).
    destruct (features_only _ Hfeat) as [Hfs Hothers].
    rewrite search_unfold, Htargets, bind_ret_l, Hm. cbn [bind].
    rewrite Ho, bind_ret_l, Hfs, bind_ret_l, Hothers, bind_ret_l.
    reflexivity.
  - symmetry. eapply Forall2_length; eauto.
Qed.

Lemma first_round_features_witness :
  exists x,
    fst (_recursiveSearchItems (ext := Sample.geo) Sample.two_api 1
           (Sample.post PNone)
           (PList [Sample.json_link "item" "http://h/stac/c1/X";
                   Sample.json_link "item" "http://h/stac/c1/X"]))
    = Ret [x; x].
Proof.
  eexists.
  refine (proj1 (@first_round_features Sample.geo Sample.two_api
                   (Sample.post PNone)
                   (PList [Sample.json_link "item" "http://h/stac/c1/X";
                           Sample.json_link "item" "http://h/stac/c1/X"])
                   [PStr "c1/X"; PStr "c1/X"] [_; _] eq_refl _ 0)).
  apply Forall2_cons; [| apply Forall2_cons; [| apply Forall2_nil]];
    (split; [reflexivity | eexists; split; reflexivity]).
Defined.

(** X5: a collection named in the query that is not a configured
    stac-collection is passed over in silence: when none of the names is
    configured the search has no item to filter and no provider is called. *)
Theorem unknown_collections_ignored `{Collaborators} (api : API)
    (request : APIRequest) (queries : dict) (names : list pyval) :
  Dict.get "collections" queries = Some (PList names) ->
  (forall c, In c names ->
     exists s, c = PStr s /\
               lookup (Str.first (Str.split "/" s)) (stac_collections api)
               = None) ->
  forall fuel, flatten_collections api fuel request queries = (Ret [], []).
Proof.
  intros Hq Hunknown fuel. unfold flatten_collections, getitem.
  rewrite Hq. cbn [obind py_iter]. rewrite bind_ret_l.
  set (gone := get_exception NOT_FOUND
                 (get_response_headers request (api_headers api))
                 (format request) "NotFound" "Collection not found").
  assert (Hm : mmap (get_stac_path api request) names
               = (Ret (map (fun _ => gone) names), [])).
  { clear Hq. induction names as [| c names IH]; [reflexivity |].
    cbn [mmap map].
    destruct (Hunknown c (or_introl eq_refl)) as (s & -> & Hs).
    unfold get_stac_path at 1. rewrite Hs. cbn [bind ret].
    rewrite IH by (intros c Hc; apply Hunknown; right; exact Hc).
    reflexivity. }
  rewrite Hm. cbn [bind].
  assert (Hd : omap (fun r => json_loads (body r)) (map (fun _ => gone) names)
               = Ret (map (fun _ => PDict [("code", PStr "NotFound");
                                           ("description",
                                            PStr "Collection not found")])
                          names)).
  { clear. induction names as [| c names IH]; [reflexivity |].
    cbn [map omap]. rewrite IH. reflexivity. }
  rewrite Hd, bind_ret_l.
  assert (Hl : links_of_collections
                 (map (fun _ => PDict [("code", PStr "NotFound");
                                        ("description",
                                         PStr "Collection not found")]) names)
               = Ret []).
  { clear. induction names as [| c names IH]; [reflexivity |].
    cbn [map links_of_collections]. rewrite IH. reflexivity. }
  rewrite Hl, bind_ret_l. reflexivity.
Qed.

Lemma unknown_collections_ignored_witness :
  flatten_collections (ext := Sample.geo) Sample.two_api 0 (Sample.post PNone)
    [("collections", PList [PStr "gone"; PStr "lost/too"])] = (Ret [], []).
Proof.
  apply (@unknown_collections_ignored Sample.geo Sample.two_api
           (Sample.post PNone)
           [("collections", PList [PStr "gone"; PStr "lost/too"])]
           [PStr "gone"; PStr "lost/too"] eq_refl).
  intros c [<- | [<- | []]]; eexists; split; reflexivity.
Defined.

(** ** Keys of the query that are stripped *)

Lemma dict_get_del_if_set_other (k k' : string) (d : dict) :
  k <> k' -> Dict.get k (del_if_set k' d) = Dict.get k d.
Proof.
  intros Hne. unfold del_if_set.
  destruct (Dict.get k' d) as [[] |]; try reflexivity;
    apply dict_get_del_other; exact Hne.
Qed.

Lemma del_if_set_set_other (k k' : string) (v : pyval) (d : dict) :
  k <> k' ->
  del_if_set k (Dict.set k' v d) = Dict.set k' v (del_if_set k d).
Proof.
  intros Hne. unfold del_if_set. rewrite dict_get_set_other by exact Hne.
  destruct (Dict.get k d) as [[] |]; try reflexivity;
    apply dict_del_set_other; exact Hne.
Qed.

Lemma dict_del_absent (k : string) (d : dict) :
  Dict.get k d = None -> Dict.del k d = d.
Proof.
  unfold Dict.del. induction d as [| [x w] d IH]; simpl; [reflexivity |].
  destruct (String.eqb k x); [discriminate |]. intros Hd. simpl.
  rewrite IH by exact Hd. reflexivity.
Qed.

Lemma strip_limit (queries : dict) (v : pyval) :
  Dict.get "limit" queries = None -> v <> PNone ->
  strip_queries (Dict.set "limit" v queries) = strip_queries queries.
Proof.
  intros Habsent Hv. unfold strip_queries.
  rewrite !del_if_set_set_other by discriminate.
  set (rest := del_if_set "sortby" (del_if_set "max_items" queries)).
  assert (Hrest : Dict.get "limit" rest = None).
  { subst rest. rewrite !dict_get_del_if_set_other by discriminate.
    exact Habsent. }
  unfold del_if_set. rewrite dict_get_set_same, Hrest.
  destruct v; try contradiction;
    rewrite dict_del_set_same; apply dict_del_absent, Hrest.
Qed.

Section Limit.

Context {ext : Collaborators}.
Variable api : API.
Variable request : APIRequest.

Lemma filter_and_assemble_body (d1 d2 : pyval) (headers_ : headers)
    (queries : dict) (criteria : list string) (sortby max_items : pyval)
    (result : list pyval) :
  filter_and_assemble headers_ (with_data request d1) queries criteria
    sortby max_items result
  = filter_and_assemble headers_ (with_data request d2) queries criteria
      sortby max_items result.
Proof.
  unfold filter_and_assemble. rewrite (filter_loop_body request d1 d2).
  reflexivity.
Qed.

Lemma search_limit (fuel : nat) (queries : dict) (v : pyval) :
  is_valid request = true ->
  Dict.get "limit" queries = None -> v <> PNone ->
  get_stac_search api fuel
    (with_data request (PDict (Dict.set "limit" v queries))) "POST"
  = get_stac_search api fuel (with_data request (PDict queries)) "POST".
Proof.
  intros Hvalid Habsent Hv. unfold get_stac_search. simpl is_valid.
  rewrite Hvalid. simpl negb. cbv iota.
  set (d1 := PDict (Dict.set "limit" v queries)).
  set (d2 := PDict queries).
  change (parse_queries (with_data request d1) "POST")
    with (Ret (Dict.set "limit" v queries)).
  change (parse_queries (with_data request d2) "POST") with (Ret queries).
  rewrite !bind_ret_l.
  assert (Hm : read_max_items (Dict.set "limit" v queries)
               = read_max_items queries).
  { unfold read_max_items, given, Dict.get_default, getitem.
    rewrite !dict_get_set_other by discriminate. reflexivity. }
  assert (Hs : read_sortby (Dict.set "limit" v queries) = read_sortby queries).
  { unfold read_sortby, given, Dict.get_default, getitem.
    rewrite !dict_get_set_other by discriminate. reflexivity. }
  rewrite Hm, Hs, (strip_limit queries v Habsent Hv).
  apply bind_ext; intros max_items. apply bind_ext; intros sortby.
  destruct (mem_str "bbox" _ && mem_str "intersects" _); [reflexivity |].
  rewrite (root_collections_body api request d1 d2).
  apply bind_ext; intros cq.
  rewrite (flatten_collections_body api request d1 d2).
  apply bind_ext; intros result.
  change (get_response_headers (with_data request d1))
    with (get_response_headers (with_data request d2)).
  f_equal. apply filter_and_assemble_body.
Qed.

End Limit.

(** X6: the limit of a query is read nowhere: a search with a limit (other
    than null) is answered as the same search without it; only max_items
    truncates the result. *)
Theorem limit_ignored `{Collaborators} (api : API) (request : APIRequest)
    (fuel : nat) (queries : dict) (v : pyval) :
  is_valid request = true ->
  Dict.get "limit" queries = None ->
  v <> PNone ->
  get_stac_search api fuel
    (with_data request (PDict (Dict.set "limit" v queries))) "POST"
  = get_stac_search api fuel (with_data request (PDict queries)) "POST".
Proof. intros. apply search_limit; assumption. Qed.

Lemma limit_ignored_witness :
  exists h x y,
    fst (get_stac_search (ext := Sample.geo) Sample.two_api 2
           (Sample.post (PDict [("limit", PInt 1)])) "POST")
    = Ret (h, OK, Json (feature_collection [x; y])).
Proof.
  do 3 eexists.
  change (Sample.post (PDict [("limit", PInt 1)]))
    with (with_data (Sample.post PNone) (PDict (Dict.set "limit" (PInt 1) []))).
  rewrite (@limit_ignored Sample.geo Sample.two_api (Sample.post PNone) 2 []
             (PInt 1) eq_refl eq_refl); [reflexivity | discriminate].
Defined.

(** ** max_items *)

Lemma get_args_lookup (k : string) (args : list (string * string)) :
  Dict.get k (map (fun kv => (fst kv, PStr (snd kv))) args)
  = option_map PStr (lookup k args).
Proof.
  induction args as [| [x v] args IH]; simpl; [reflexivity |].
  destruct (String.eqb k x); [reflexivity | exact IH].
Qed.

Lemma split_param_get_other (k k' : string) (queries : dict) :
  k <> k' -> Dict.get k (split_param k' queries) = Dict.get k queries.
Proof.
  intros Hne. unfold split_param.
  destruct (Dict.get k' queries) as [[| | | | [| c s] | |] |]; try reflexivity.
  apply dict_get_set_other, Hne.
Qed.

Lemma get_max_items_string (request : APIRequest) (s : string) :
  lookup "max_items" (_args request) = Some s -> s <> EmptyString ->
  exists queries,
    parse_queries request "GET" = Ret queries
    /\ read_max_items queries = Ret (PStr s).
Proof.
  intros Harg Hs. eexists. split; [reflexivity |].
  unfold read_max_items, given, Dict.get_default, getitem.
  rewrite !split_param_get_other by discriminate.
  rewrite get_args_lookup, Harg. cbn [option_map py_eq].
  apply String.eqb_neq in Hs. rewrite Hs. reflexivity.
Qed.

Lemma assemble_string_max (result : list pyval) (sortby : pyval) (s : string)
    (fc : pyval) :
  assemble result sortby (PStr s) <> Ret fc.
Proof.
  unfold assemble. destruct (py_sorted _ _) as [sorted | e |]; simpl;
    discriminate.
Qed.

Lemma filter_loop_response `{Collaborators} (headers_ : headers)
    (request : APIRequest) (queries : dict) (result : list pyval)
    (criteria : list string) (st : Counter * bool) (resp : response) :
  filter_loop headers_ request queries result criteria st = Ret (inl resp) ->
  resp = get_exception BAD_REQUEST headers_ (format request)
           "InvalidParameterValue" "Error in converting geojson".
Proof.
  revert st. induction criteria as [| x l IH]; intros st Hl; [discriminate |].
  cbn [filter_loop] in Hl. obind_inv Hl. obind_inv Hl.
  destruct (String.eqb x "intersects"); [| eapply IH; eauto].
  obind_inv Hl. destruct v1 as [r | found]; [| eapply IH; eauto].
  injection Hl as <-. unfold intersects_filter in Hv1. obind_inv Hv1.
  destruct (shape v1); [| injection Hv1 as <-; reflexivity].
  obind_inv Hv1. discriminate.
Qed.

(** X7: a GET request with a max_items parameter is never answered with a
    result: the parameter stays a string, slicing by it raises, and the only
    answer such a request can get is a 400. *)
Theorem get_max_items_never_ok `{Collaborators} (api : API) (fuel : nat)
    (request : APIRequest) (s : string) (resp : response) :
  is_valid request = true ->
  lookup "max_items" (_args request) = Some s ->
  s <> EmptyString ->
  fst (get_stac_search api fuel request "GET") = Ret resp ->
  status_of resp = BAD_REQUEST.
Proof.
  intros Hvalid Harg Hs Hret.
  destruct (get_max_items_string request s Harg Hs) as (queries & Hp & Hm).
  apply fst_ret in Hret. destruct Hret as [t Hret].
  unfold get_stac_search in Hret. rewrite Hvalid, Hp in Hret.
  simpl negb in Hret. cbv iota in Hret.
  rewrite bind_ret_l, Hm, bind_ret_l in Hret.
  apply bind_ret_inv in Hret.
  destruct Hret as (sortby & t1 & t2 & _ & Hret & _).
  destruct (mem_str "bbox" _ && mem_str "intersects" _).
  - injection Hret as <- _. reflexivity.
  - apply bind_ret_inv in Hret. destruct Hret as (cq & t3 & t4 & _ & Hret & _).
    apply bind_ret_inv in Hret.
    destruct Hret as (result & t5 & t6 & _ & Hret & _).
    apply lift_ret in Hret. unfold filter_and_assemble in Hret.
    obind_inv Hret. destruct v as [r | st].
    + injection Hret as <-. apply filter_loop_response in Hv. subst r.
      reflexivity.
    + obind_inv Hret. exfalso. eapply assemble_string_max; eauto.
Qed.

Lemma get_max_items_never_ok_witness :
  fst (get_stac_search (ext := Sample.geo) Sample.two_api 2
         (More.get [("max_items", "1")]) "GET") = Exn TypeError
  /\ forall resp,
       fst (get_stac_search (ext := Sample.geo) Sample.two_api 2
              (More.get [("max_items", "1"); ("bbox", "0,0,1,1");
                         ("intersects", "x")]) "GET") = Ret resp ->
       status_of resp = BAD_REQUEST.
Proof.
  split; [reflexivity |]. intros resp.
  apply (@get_max_items_never_ok Sample.geo Sample.two_api 2
           (More.get [("max_items", "1"); ("bbox", "0,0,1,1");
                      ("intersects", "x")]) "1" resp eq_refl eq_refl).
  discriminate.
Defined.

(** X8: an integer max_items below -1 does not mean unbounded: the answer
    is the object [{"type": "FeatureCollection", "features": features}]
    whose features are the sorted items less the last [-max_items] of them
    (less all of them when there are no more than that). *)
Theorem negative_max_items_drops_tail (result sorted : list pyval)
    (sortby : pyval) (n : Z) :
  py_sorted (sort_key sortby) result = Ret sorted ->
  (n < -1)%Z ->
  exists features dropped,
    assemble result sortby (PInt n)
    = Ret (PDict [("type", PStr "FeatureCollection");
                  ("features", PList features)])
    /\ sorted = features ++ dropped
    /\ List.length dropped
       = Nat.min (Z.to_nat (- n)) (List.length sorted).
Proof.
  intros Hs Hn.
  exists (firstn (List.length sorted - Z.to_nat (- n)) sorted),
         (skipn (List.length sorted - Z.to_nat (- n)) sorted).
  split; [| split].
  - unfold assemble. rewrite Hs. unfold obind at 1. rewrite py_eq_int.
    destruct (Z.eqb_spec n (-1)) as [-> | _]; [lia |].
    cbn [slice_to obind]. unfold slice_int.
    destruct (Z.leb_spec 0 n) as [Hpos | _]; [lia | reflexivity].
  - symmetry. apply firstn_skipn.
  - rewrite length_skipn. lia.
Qed.

Lemma negative_max_items_drops_tail_witness :
  assemble Sample.sorted_items (Sample.by_id "asc") (PInt (-2))
  = Ret (PDict [("type", PStr "FeatureCollection");
                ("features", PList [Sample.feature "a" []])]).
Proof.
  destruct (negative_max_items_drops_tail Sample.sorted_items
              [Sample.feature "a" []; Sample.feature "b" [];
               Sample.feature "c" []]
              (Sample.by_id "asc") (-2) eq_refl)
    as (features & dropped & Ha & _); [lia |].
  rewrite Ha. vm_compute in Ha. injection Ha as <-. reflexivity.
Defined.

(** ** The search without a filter *)

Lemma strip_nothing (queries : dict) :
  Dict.get "max_items" queries = None ->
  Dict.get "sortby" queries = None ->
  Dict.get "limit" queries = None ->
  strip_queries queries = queries.
Proof.
  intros Hm Hs Hl. unfold strip_queries, del_if_set.
  rewrite Hm, Hs, Hl. reflexivity.
Qed.

Lemma plain_filter_and_assemble `{Collaborators} (headers_ : headers)
    (request : APIRequest) (queries : dict) (criteria : list string)
    (result : list pyval) :
  existsb predicate_key criteria = false ->
  (forall x, In x result -> exists d, x = PDict d /\ Dict.get "" d = None) ->
  filter_and_assemble headers_ request queries criteria
    (PDict [("field", PStr "")]) (PInt (-1)) result
  = Ret (headers_, OK, Json (feature_collection result)).
Proof.
  intros Hc Hitems. unfold filter_and_assemble.
  rewrite (filter_loop_skip headers_ request queries result criteria _ Hc).
  cbn [obind]. unfold kept_indices. cbn [snd]. rewrite select_all.
  rewrite (assemble_unbounded result result);
    [reflexivity | apply default_sortby_keeps_order, Hitems].
Qed.

(** X9: a POST search whose query names the collections and has no
    max_items, sortby, limit, ids, bbox or intersects answers 200 with the
    object [{"type": "FeatureCollection", "features": items}] whose
    features are all the items found under the collections, in the order
    of discovery; the provider calls are those of the flattening. The
    items are objects without a member of empty name (the key the default
    sortby reads). *)
Theorem plain_search_keeps_order `{Collaborators} (api : API) (fuel : nat)
    (request : APIRequest) (queries : dict) (result : list pyval)
    (t : list event) :
  is_valid request = true ->
  _data request = Some (PDict queries) ->
  Dict.get "max_items" queries = None ->
  Dict.get "sortby" queries = None ->
  Dict.get "limit" queries = None ->
  existsb predicate_key (Dict.keys queries) = false ->
  Dict.mem "collections" queries = true ->
  flatten_collections api fuel request queries = (Ret result, t) ->
  (forall x, In x result -> exists d, x = PDict d /\ Dict.get "" d = None) ->
  get_stac_search api fuel request "POST"
  = (Ret (set_header "Content-Type" "application/geo+json"
            (get_response_headers request (api_headers api)),
          OK,
          Json (PDict [("type", PStr "FeatureCollection");
                       ("features", PList result)])), t).
Proof.
  intros Hvalid Hdata Hm Hs Hl Hc Hcol Hflat Hitems.
  unfold get_stac_search. rewrite Hvalid. simpl negb. cbv iota.
  unfold parse_queries. simpl String.eqb. cbv iota. rewrite Hdata.
  rewrite bind_ret_l.
  unfold read_max_items, read_sortby, given, Dict.get_default.
  rewrite Hm, Hs. simpl py_eq. simpl negb. cbv iota.
  rewrite !bind_ret_l, (strip_nothing queries Hm Hs Hl).
  pose proof Hc as Hc'. rewrite existsb_predicate_key in Hc'.
  apply orb_false_elim in Hc'. destruct Hc' as [Hc' Hi].
  apply orb_false_elim in Hc'. destruct Hc' as [_ Hb].
  rewrite Hb, Hi, dict_mem_keys, Hcol. simpl negb. cbv iota.
  rewrite bind_ret_l. cbn [fst snd andb]. rewrite Hflat.
  cbn [bind]. rewrite (plain_filter_and_assemble _ _ _ _ _ Hc Hitems).
  unfold lift. rewrite app_nil_r. reflexivity.
Qed.

Lemma plain_search_keeps_order_witness :
  exists x y t,
    get_stac_search (ext := Sample.geo) Sample.two_api 2
      (Sample.post (PDict [("collections", PList [PStr "c2"; PStr "c1"])]))
      "POST"
    = (Ret ([("Content-Type", "application/geo+json")], OK,
            Json (PDict [("type", PStr "FeatureCollection");
                         ("features", PList [x; y])])), t)
    /\ getitem x "id" = Ret (PStr "Y") /\ getitem y "id" = Ret (PStr "X").
Proof.
  do 3 eexists. split.
  - apply (@plain_search_keeps_order Sample.geo Sample.two_api 2
             (Sample.post (PDict [("collections", PList [PStr "c2"; PStr "c1"])]))
             [("collections", PList [PStr "c2"; PStr "c1"])] _ _
             eq_refl eq_refl eq_refl eq_refl eq_refl eq_refl eq_refl).
    + vm_compute. reflexivity.
    + intros x [<- | [<- | []]]; eexists; split; reflexivity.
  - split; reflexivity.
Defined.

(** ** The ids predicate *)

(** X10: with a list of ids in the query the ids predicate finds item [i]
    exactly when its id is equal to one of the ids. *)
Theorem ids_match (queries : dict) (result ids items_id : list pyval) :
  Dict.get "ids" queries = Some (PList ids) ->
  omap (fun obj => getitem obj "id") result = Ret items_id ->
  exists found,
    ids_filter queries result = Ret found
    /\ forall i, In i found <->
                 exists x, nth_error items_id i = Some x
                           /\ exists y, In y ids /\ py_eq x y = true.
Proof.
  intros Hids Hitems. exists (find_idx (map (fun x => existsb (py_eq x) ids) items_id)).
  split.
  - unfold ids_filter. cbn [getitem]. rewrite Hids. cbn [obind].
    rewrite Hitems. cbn [obind].
    rewrite (omap_total (fun x => py_in x (PList ids))
               (fun x => existsb (py_eq x) ids)) by reflexivity.
    reflexivity.
  - intros i. rewrite find_idx_In, nth_error_map.
    destruct (nth_error items_id i) as [x |]; cbn [option_map].
    + split.
      * intros Hx. injection Hx as Hx. exists x. split; [reflexivity |].
        apply existsb_exists, Hx.
      * intros (x' & Hx' & Hy). injection Hx' as <-. f_equal.
        apply existsb_exists, Hy.
    + split; [discriminate | intros (x & Hx & _); discriminate].
Qed.

Lemma ids_match_witness :
  ids_filter Sample.ids_bbox_query [Sample.item_Y; Sample.item_X] = Ret [1%nat].
Proof.
  destruct (ids_match Sample.ids_bbox_query [Sample.item_Y; Sample.item_X]
              [PStr "X"] [PStr "Y"; PStr "X"] eq_refl eq_refl)
    as (found & Hf & _).
  rewrite Hf. vm_compute in Hf. injection Hf as <-. reflexivity.
Defined.

(** ** The parameters of a GET request *)

(** X11: the ids parameter of a GET request, when not empty, reaches the
    filter as the list of its comma-separated pieces: joined by commas the
    pieces give the parameter back, and no piece holds a comma. *)
Theorem get_ids_split (request : APIRequest) (s : string) :
  lookup "ids" (_args request) = Some s ->
  s <> EmptyString ->
  exists queries pieces,
    parse_queries request "GET" = Ret queries
    /\ Dict.get "ids" queries = Some (PList (map PStr pieces))
    /\ String.concat "," pieces = s
    /\ Forall (fun piece => mentions "," piece = false) pieces.
Proof.
  intros Harg Hs. eexists. exists (Str.split "," s).
  split; [reflexivity |]. split; [| split].
  - rewrite !split_param_get_other by discriminate.
    unfold split_param. rewrite get_args_lookup, Harg. cbn [option_map].
    destruct s as [| c s]; [contradiction |].
    apply dict_get_set_same.
  - unfold Str.split. apply (split_one_join "," "" s).
  - unfold Str.split. apply (split_one_pieces "," "" s). reflexivity.
Qed.

Lemma get_ids_split_witness :
  exists queries,
    parse_queries (More.get [("ids", "X,Y")]) "GET" = Ret queries
    /\ Dict.get "ids" queries = Some (PList [PStr "X"; PStr "Y"]).
Proof.
  destruct (get_ids_split (More.get [("ids", "X,Y")]) "X,Y" eq_refl)
    as (queries & pieces & Hp & Hg & _); [discriminate |].
  exists queries. split; [exact Hp |].
  vm_compute in Hp. injection Hp as <-. reflexivity.
Defined.

Lemma split_param_same (k : string) (queries : dict) :
  Dict.get k queries = None \/ Dict.get k queries = Some (PStr "") ->
  split_param k queries = queries.
Proof. unfold split_param. intros [-> | ->]; reflexivity. Qed.

Lemma find_idx_none (flags : list bool) :
  (forall b, In b flags -> b = false) -> find_idx flags = [].
Proof.
  intros Hall. destruct (find_idx flags) as [| i l] eqn:Hf; [reflexivity |].
  assert (Hi : In i (find_idx flags)) by (rewrite Hf; left; reflexivity).
  apply find_idx_In in Hi. apply nth_error_In, Hall in Hi. discriminate.
Qed.

Lemma ids_empty_string (queries : dict) (result : list pyval) :
  Dict.get "ids" queries = Some (PStr "") ->
  (forall x, In x result ->
             exists s, getitem x "id" = Ret (PStr s) /\ s <> EmptyString) ->
  ids_filter queries result = Ret [].
Proof.
  intros Hids Hitems. unfold ids_filter. cbn [getitem]. rewrite Hids.
  cbn [obind].
  assert (Hflags : exists items_id,
            omap (fun obj => getitem obj "id") result = Ret items_id
            /\ omap (fun x => py_in x (PStr "")) items_id
               = Ret (map (fun _ => false) items_id)).
  { induction result as [| x l IH]; [exists []; split; reflexivity |].
    destruct (Hitems x (or_introl eq_refl)) as (s & Hx & Hs).
    destruct IH as (items_id & Hl & Hf);
      [intros y Hy; apply Hitems; right; exact Hy |].
    exists (PStr s :: items_id). cbn [omap]. rewrite Hx, Hl, Hf.
    destruct s; [contradiction |]. split; reflexivity. }
  destruct Hflags as (items_id & -> & Hf). cbn [obind]. rewrite Hf.
  cbn [obind]. f_equal. apply find_idx_none.
  intros b Hb. apply in_map_iff in Hb. destruct Hb as (x & <- & _).
  reflexivity.
Qed.

Lemma filter_loop_ids_only `{Collaborators} (headers_ : headers)
    (request : APIRequest) (queries : dict) (result : list pyval)
    (criteria : list string) (st : Counter * bool) :
  mem_str "bbox" criteria = false ->
  mem_str "intersects" criteria = false ->
  ids_filter queries result = Ret [] ->
  filter_loop headers_ request queries result criteria st
  = Ret (inr (fst st, snd st || mem_str "ids" criteria)).
Proof.
  intros Hb Hi Hids. revert st Hb Hi.
  induction criteria as [| x l IH]; intros [c g] Hb Hi.
  - cbn. rewrite orb_false_r. reflexivity.
  - rewrite mem_str_cons in Hb, Hi.
    apply orb_false_elim in Hb. destruct Hb as [Hxb Hb].
    apply orb_false_elim in Hi. destruct Hi as [Hxi Hi].
    cbn [filter_loop]. rewrite Hxb, Hxi, Hids, mem_str_cons.
    destruct (String.eqb x "ids"); cbn [obind fst snd counter_update fold_left];
      rewrite (IH _ Hb Hi); cbn [fst snd]; [| reflexivity].
    rewrite orb_true_r. reflexivity.
Qed.

(** X12: an empty ids parameter of a GET request is not taken as absent:
    it stays the empty string, the ids predicate runs with it and matches no
    item that has a non-empty id, so the answer holds no item at all. *)
Theorem empty_ids_selects_nothing `{Collaborators} (headers_ : headers)
    (request : APIRequest) (result : list pyval) (sortby : pyval) :
  lookup "ids" (_args request) = Some EmptyString ->
  lookup "bbox" (_args request) = None ->
  lookup "intersects" (_args request) = None ->
  (forall x, In x result ->
             exists s, getitem x "id" = Ret (PStr s) /\ s <> EmptyString) ->
  exists queries,
    parse_queries request "GET" = Ret queries
    /\ filter_and_assemble headers_ request (strip_queries queries)
         (Dict.keys (strip_queries queries)) sortby (PInt (-1)) result
       = Ret (headers_, OK, Json (feature_collection [])).
Proof.
  intros Hids Hbbox Hint Hitems. eexists. split; [reflexivity |].
  set (queries := strip_queries _).
  assert (Hget : forall k, k <> "max_items" -> k <> "sortby" -> k <> "limit" ->
                 k <> "collections" ->
                 Dict.get k queries
                 = option_map PStr (lookup k (_args request))).
  { intros k H1 H2 H3 H4. subst queries. unfold strip_queries.
    rewrite !dict_get_del_if_set_other by congruence.
    rewrite <- get_args_lookup.
    set (q0 := map _ (_args request)).
    assert (Hq0 : forall k', Dict.get k' q0
                             = option_map PStr (lookup k' (_args request)))
      by (intros k'; apply get_args_lookup).
    rewrite (split_param_same "ids" q0)
      by (rewrite Hq0, Hids; right; reflexivity).
    rewrite (split_param_same "bbox")
      by (rewrite split_param_get_other, Hq0, Hbbox by discriminate;
          left; reflexivity).
    apply split_param_get_other, H4. }
  unfold filter_and_assemble.
  assert (Hmem : forall k, k <> "max_items" -> k <> "sortby" -> k <> "limit" ->
                 k <> "collections" ->
                 mem_str k (Dict.keys queries)
                 = match lookup k (_args request) with
                   | Some _ => true | None => false end).
  { intros k H1 H2 H3 H4. rewrite dict_mem_keys. unfold Dict.mem.
    rewrite Hget by assumption.
    destruct (lookup k (_args request)); reflexivity. }
  rewrite (filter_loop_ids_only headers_ request queries result).
  - cbn [obind fst snd]. rewrite Hmem, Hids by discriminate.
    unfold kept_indices. cbn [snd fst counter_keys map orb].
    replace (select [] result) with (@nil pyval).
    + reflexivity.
    + unfold select. symmetry.
      induction (combine (seq 0 (List.length result)) result) as [| a l IH];
        [reflexivity | exact IH].
  - rewrite Hmem, Hbbox by discriminate. reflexivity.
  - rewrite Hmem, Hint by discriminate. reflexivity.
  - apply ids_empty_string; [| exact Hitems].
    rewrite Hget, Hids by discriminate. reflexivity.
Qed.

Lemma empty_ids_selects_nothing_witness :
  (exists queries,
     parse_queries (More.get [("ids", "")]) "GET" = Ret queries
     /\ filter_and_assemble (ext := Sample.geo) [] (More.get [("ids", "")])
          (strip_queries queries) (Dict.keys (strip_queries queries))
          (PDict [("field", PStr "")]) (PInt (-1))
          [Sample.item_X; Sample.item_Y]
        = Ret ([], OK, Json (feature_collection [])))
  /\ exists h t,
       get_stac_search (ext := Sample.geo) Sample.two_api 2
         (More.get [("ids", "")]) "GET"
       = (Ret (h, OK, Json (feature_collection [])), t).
Proof.
  split.
  - apply (@empty_ids_selects_nothing Sample.geo [] (More.get [("ids", "")])
             [Sample.item_X; Sample.item_Y] (PDict [("field", PStr "")])
             eq_refl eq_refl eq_refl).
    intros x [<- | [<- | []]]; eexists; (split; [reflexivity | discriminate]).
  - do 2 eexists. reflexivity.
Defined.

(** ** A geometry that cannot be read *)

Lemma filter_loop_bad_geometry `{Collaborators} (headers_ : headers)
    (request : APIRequest) (queries : dict) (result : list pyval)
    (geojson : pyval) (criteria : list string) (st : Counter * bool) :
  mem_str "ids" criteria = false ->
  mem_str "bbox" criteria = false ->
  mem_str "intersects" criteria = true ->
  Dict.get "intersects" queries = Some geojson ->
  shape geojson = None ->
  filter_loop headers_ request queries result criteria st
  = Ret (inl (get_exception BAD_REQUEST headers_ (format request)
                "InvalidParameterValue" "Error in converting geojson")).
Proof.
  intros Hids Hbbox Hint Hq Hshape. revert st Hids Hbbox Hint.
  induction criteria as [| x l IH]; intros st Hids Hbbox Hint;
    [discriminate |].
  rewrite mem_str_cons in Hids, Hbbox, Hint.
  apply orb_false_elim in Hids. destruct Hids as [Hxi Hids].
  apply orb_false_elim in Hbbox. destruct Hbbox as [Hxb Hbbox].
  cbn [filter_loop]. rewrite Hxi, Hxb. cbn [obind].
  destruct (String.eqb x "intersects").
  - unfold intersects_filter. cbn [getitem]. rewrite Hq. cbn [obind].
    rewrite Hshape. reflexivity.
  - apply IH; assumption.
Qed.

(** X13: when the intersects value of the query cannot be converted to a
    geometry (and the query has neither ids nor bbox) the filter stage
    answers 400, InvalidParameterValue, whatever the items, the sortby and
    the max_items are: the geometry of no item is read. *)
Theorem invalid_geometry_rejected `{Collaborators} (headers_ : headers)
    (request : APIRequest) (queries : dict) (criteria : list string)
    (sortby max_items geojson : pyval) (result : list pyval) :
  mem_str "ids" criteria = false ->
  mem_str "bbox" criteria = false ->
  mem_str "intersects" criteria = true ->
  Dict.get "intersects" queries = Some geojson ->
  shape geojson = None ->
  exists resp,
    filter_and_assemble headers_ request queries criteria sortby max_items
      result = Ret resp
    /\ status_of resp = BAD_REQUEST
    /\ (doc <~ json_loads (body resp) ;; getitem doc "code")
       = Ret (PStr "InvalidParameterValue").
Proof.
  intros Hids Hbbox Hint Hq Hshape. eexists. split; [| split].
  - unfold filter_and_assemble.
    rewrite (filter_loop_bad_geometry headers_ request queries result geojson
               criteria _ Hids Hbbox Hint Hq Hshape).
    reflexivity.
  - reflexivity.
  - reflexivity.
Qed.

Lemma invalid_geometry_rejected_witness :
  exists resp,
    filter_and_assemble (ext := Sample.geo) [] (Sample.post PNone)
      [("intersects", PStr "not a geometry")] ["intersects"] PNone PNone
      [Sample.item_X] = Ret resp
    /\ status_of resp = BAD_REQUEST
    /\ (doc <~ json_loads (body resp) ;; getitem doc "code")
       = Ret (PStr "InvalidParameterValue").
Proof.
  apply (@invalid_geometry_rejected Sample.geo [] (Sample.post PNone)
           [("intersects", PStr "not a geometry")] ["intersects"]
           PNone PNone (PStr "not a geometry") [Sample.item_X]
           eq_refl eq_refl eq_refl eq_refl eq_refl).
Defined.

(** ** The path operation *)

Lemma prefix_append (d s : string) : String.prefix d (d ++ s) = true.
Proof.
  induction d as [| c d IH]; [destruct s; reflexivity |].
  cbn [append String.prefix].
  destruct (ascii_dec c c) as [_ | Hne]; [exact IH | contradiction].
Qed.

Lemma substring_none (s : string) : String.substring 0 0 s = EmptyString.
Proof. destruct s; reflexivity. Qed.

(** [(d + s).replace(d, '', 1) == s] *)
Lemma replace_first_prefix (d s : string) :
  d <> EmptyString -> Str.replace_first d "" (d ++ s) = s.
Proof.
  intros Hd. destruct d as [| c d]; [contradiction |].
  unfold Str.replace_first.
  assert (Hi : String.index 0 (String c d) (String c d ++ s) = Some 0%nat).
  { cbn [append String.index].
    change (String c (d ++ s)) with (String c d ++ s)%string.
    rewrite prefix_append. reflexivity. }
  rewrite Hi, substring_none, length_append, Nat.add_0_l.
  rewrite (Nat.add_comm (String.length (String c d))), Nat.add_sub.
  rewrite (substring_suffix (String c d) s). reflexivity.
Qed.

Lemma first_token (dataset rest : string) :
  mentions "/" dataset = false ->
  rest = EmptyString \/ (exists more, rest = String "/" more) ->
  Str.first (Str.split "/" (dataset ++ rest)) = dataset.
Proof.
  intros Hd [-> | [more ->]]; unfold Str.split.
  - rewrite append_nil_r, (split_one_none "/" "" dataset Hd). reflexivity.
  - apply (split_one_first "/" "" dataset more Hd).
Qed.

(** X14: resolving the path [dataset], or [dataset/...], of a configured
    collection whose provider loads makes exactly two provider calls: the
    plugin of the collection is loaded, and it is asked once for the whole
    path, with the path less the name of the collection as the relative
    path. *)
Theorem path_provider_call `{Collaborators} (api : API) (request : APIRequest)
    (dataset rest : string) (r : resource)
    (get_data_path : string -> string -> string -> data_result) :
  dataset <> EmptyString ->
  mentions "/" dataset = false ->
  rest = EmptyString \/ (exists more, rest = String "/" more) ->
  lookup dataset (stac_collections api) = Some r ->
  provider r = Provider get_data_path ->
  snd (get_stac_path api request (PStr (dataset ++ rest)))
  = [LoadPlugin dataset; GetDataPath (dataset ++ rest) rest].
Proof.
  intros Hne Hd Hrest Hr Hp. unfold get_stac_path.
  rewrite (first_token dataset rest Hd Hrest), Hr, Hp.
  rewrite (replace_first_prefix dataset rest Hne).
  destruct (get_data_path _ _ _); reflexivity.
Qed.

Lemma path_provider_call_witness :
  snd (get_stac_path (ext := Sample.geo) Sample.nested_api (Sample.post PNone)
         (PStr "col/A/B"))
  = [LoadPlugin "col"; GetDataPath "col/A/B" "/A/B"].
Proof.
  apply (@path_provider_call Sample.geo Sample.nested_api (Sample.post PNone)
           "col" "/A/B" (Sample.collection Sample.nested_data)
           Sample.nested_data).
  - discriminate.
  - reflexivity.
  - right. exists "A/B". reflexivity.
  - reflexivity.
  - reflexivity.
Defined.

(** *** The document of a path *)

Lemma dict_get_update (k : string) (d e : dict) :
  NoDup (Dict.keys e) ->
  Dict.get k (Dict.update d e)
  = match Dict.get k e with Some v => Some v | None => Dict.get k d end.
Proof.
  unfold Dict.update. revert d.
  induction e as [| [k' v] e IH]; intros d Hnd; [reflexivity |].
  inversion Hnd as [| x l Hnotin Hnd']; subst.
  cbn [fold_left fst snd Dict.get]. rewrite (IH _ Hnd').
  destruct (String.eqb_spec k k') as [-> | Hne].
  - assert (Hnone : Dict.get k' e = None).
    { clear - Hnotin. induction e as [| [x w] e IH]; [reflexivity |].
      cbn [Dict.get]. destruct (String.eqb_spec k' x) as [-> | _].
      - exfalso. apply Hnotin. left. reflexivity.
      - apply IH. intros Hin. apply Hnotin. right. exact Hin. }
    rewrite Hnone. apply dict_get_set_same.
  - rewrite dict_get_set_other by exact Hne. reflexivity.
Qed.

Section Merge.

Context {ext : Collaborators}.
Variable request : APIRequest.
Variable dataset : string.
Variable r : resource.
Variable stac_data : dict.
Hypothesis unique_keys : NoDup (Dict.keys stac_data).
Hypothesis links_configured : links r <> [].
Hypothesis links_listed :
  Dict.get "links" stac_data = None
  \/ exists l, Dict.get "links" stac_data = Some (PList l).

Let merged := Dict.update (envelope request dataset r) stac_data.

Lemma merged_links : Dict.get "links" merged = Some (PList (provider_links stac_data)).
Proof.
  subst merged. rewrite dict_get_update by exact unique_keys.
  unfold provider_links.
  destruct links_listed as [-> | [l ->]]; reflexivity.
Qed.

Lemma merged_content :
  exists content_,
    extend_links merged (links r) = Ret content_
    /\ (forall k, k <> "links" ->
          Dict.get k content_
          = match Dict.get k stac_data with
            | Some v => Some v
            | None => Dict.get k (envelope request dataset r)
            end)
    /\ Dict.get "links" content_
       = Some (PList (provider_links stac_data ++ appended_links r)).
Proof.
  unfold extend_links, appended_links.
  destruct (links r) as [| [| kv first] more] eqn:Hl; [contradiction | |].
  - exists merged. split; [reflexivity |]. split.
    + intros k _. subst merged. apply dict_get_update, unique_keys.
    + rewrite app_nil_r. apply merged_links.
  - rewrite merged_links. eexists. split; [reflexivity |]. split.
    + intros k Hk. rewrite dict_get_set_other by exact Hk.
      subst merged. apply dict_get_update, unique_keys.
    + apply dict_get_set_same.
Qed.

End Merge.

(** X15: the JSON document of a path is the provider's document laid over
    the catalog envelope of the collection: every member of the provider's
    document is there with the provider's value (also id, type and
    description), the members of the envelope it does not give are kept, and
    the links are the provider's links followed by the links of the
    configuration, which are appended only when the first of them is not
    empty. *)
Theorem path_document_merge `{Collaborators} (api : API) (request : APIRequest)
    (path : string) (r : resource)
    (get_data_path : string -> string -> string -> data_result)
    (stac_data : dict) :
  let dataset := Str.first (Str.split "/" path) in
  format_is request F_HTML = false ->
  lookup dataset (stac_collections api) = Some r ->
  provider r = Provider get_data_path ->
  get_data_path (base_url api ++ "/stac")%string path
    (Str.replace_first dataset "" path) = DataDict stac_data ->
  NoDup (Dict.keys stac_data) ->
  links r <> [] ->
  (Dict.get "links" stac_data = None
   \/ exists l, Dict.get "links" stac_data = Some (PList l)) ->
  exists content_,
    fst (get_stac_path api request (PStr path))
    = Ret (get_response_headers request (api_headers api), OK,
           Json (PDict content_))
    /\ (forall k, k <> "links" ->
          Dict.get k content_
          = match Dict.get k stac_data with
            | Some v => Some v
            | None => Dict.get k (envelope request dataset r)
            end)
    /\ Dict.get "links" content_
       = Some (PList (provider_links stac_data ++ appended_links r)).
Proof.
  intros dataset Hfmt Hr Hp Hdata Hnd Hcfg Hlinks.
  destruct (merged_content request dataset r stac_data Hnd Hcfg Hlinks)
    as (content_ & Hext & Hget & Hl).
  exists content_. split; [| split; assumption].
  unfold get_stac_path. fold dataset. rewrite Hr, Hp, Hdata, Hext, Hfmt.
  reflexivity.
Qed.

Lemma path_document_merge_witness :
  exists content_,
    fst (get_stac_path (ext := Sample.geo)
           (Paths.linked (DataDict (Paths.asset_document "Feature")))
           (Sample.post PNone) (PStr "col/a"))
    = Ret ([("Content-Type", "application/json")], OK, Json (PDict content_))
    /\ Dict.get "id" content_ = Some (PStr "a")
    /\ Dict.get "stac_version" content_ = Some (PStr "1.0.0")
    /\ Dict.get "links" content_
       = Some (PList [Sample.json_link "self" "http://h/stac/col/a";
                      PDict [("rel", PStr "license")];
                      PDict [("rel", PStr "about")]]).
Proof.
  destruct (@path_document_merge Sample.geo
              (Paths.linked (DataDict (Paths.asset_document "Feature")))
              (Sample.post PNone) "col/a" _ _ (Paths.asset_document "Feature")
              eq_refl eq_refl eq_refl eq_refl)
    as (content_ & Hc & Hget & Hl).
  - repeat constructor; simpl; intuition discriminate.
  - discriminate.
  - right. eexists. reflexivity.
  - exists content_. split; [exact Hc |].
    split; [rewrite Hget by discriminate; reflexivity |].
    split; [rewrite Hget by discriminate; reflexivity | exact Hl].
Defined.

(** X16: in the HTML view of a document that has assets and whose type is
    neither Collection nor Feature no response is made: building the text
    of the error reads an attribute that a dictionary does not have, and
    the operation raises AttributeError instead of answering 500. *)
Theorem html_unknown_type_raises `{Collaborators} (api : API)
    (request : APIRequest) (path : string) (r : resource)
    (get_data_path : string -> string -> string -> data_result)
    (stac_data : dict) (assets ty : pyval) :
  let dataset := Str.first (Str.split "/" path) in
  format_is request F_HTML = true ->
  lookup dataset (stac_collections api) = Some r ->
  provider r = Provider get_data_path ->
  get_data_path (base_url api ++ "/stac")%string path
    (Str.replace_first dataset "" path) = DataDict stac_data ->
  NoDup (Dict.keys stac_data) ->
  links r <> [] ->
  (Dict.get "links" stac_data = None
   \/ exists l, Dict.get "links" stac_data = Some (PList l)) ->
  Dict.get "assets" stac_data = Some assets ->
  Dict.get "type" stac_data = Some ty ->
  is_str ty "Collection" = false ->
  is_str ty "Feature" = false ->
  fst (get_stac_path api request (PStr path)) = Exn AttributeError.
Proof.
  intros dataset Hfmt Hr Hp Hdata Hnd Hcfg Hlinks Hassets Hty Hc Hf.
  destruct (merged_content request dataset r stac_data Hnd Hcfg Hlinks)
    as (content_ & Hext & Hget & _).
  unfold get_stac_path. fold dataset. rewrite Hr, Hp, Hdata, Hext, Hfmt.
  cbn [bind emit lift fst obind]. unfold render_path, Dict.mem.
  cbn [getitem]. rewrite !dict_get_set_other by discriminate.
  rewrite !Hget by discriminate. rewrite Hassets, Hty. cbn [obind].
  rewrite Hc, Hf. reflexivity.
Qed.

Lemma html_unknown_type_raises_witness :
  fst (get_stac_path (ext := Sample.geo)
         (Paths.serving (DataDict (Paths.asset_document "Catalog")))
         (More.html PNone) (PStr "col/a"))
  = Exn AttributeError.
Proof.
  apply (@html_unknown_type_raises Sample.geo
           (Paths.serving (DataDict (Paths.asset_document "Catalog")))
           (More.html PNone) "col/a" _ _ (Paths.asset_document "Catalog")
           (PDict [("default", PDict [])]) (PStr "Catalog")
           eq_refl eq_refl eq_refl eq_refl).
  - repeat constructor; simpl; intuition discriminate.
  - discriminate.
  - right. eexists. reflexivity.
  - reflexivity.
  - reflexivity.
  - reflexivity.
  - reflexivity.
Defined.

(** *** Files *)

Lemma lookup_pop_same (k : string) (h : headers) :
  lookup k (pop_header k h) = None.
Proof.
  unfold pop_header. induction h as [| [x v] h IH]; [reflexivity |].
  cbn [filter fst]. destruct (String.eqb k x) eqn:Hk; cbn [negb]; [exact IH |].
  cbn [lookup]. rewrite Hk. exact IH.
Qed.

Lemma lookup_pop_other (k k' : string) (h : headers) :
  k <> k' -> lookup k (pop_header k' h) = lookup k h.
Proof.
  intros Hne. unfold pop_header. induction h as [| [x v] h IH]; [reflexivity |].
  cbn [filter fst]. destruct (String.eqb_spec k' x) as [<- | Hx]; cbn [negb].
  - cbn [lookup]. destruct (String.eqb_spec k k'); [contradiction | exact IH].
  - cbn [lookup]. rewrite IH. reflexivity.
Qed.

(** X17: when the provider gives a file and not a document the file is sent
    back as it is under 200, whatever the format asked for, with the
    response headers of the request less Content-Type. *)
Theorem file_response `{Collaborators} (api : API) (request : APIRequest)
    (path : string) (r : resource)
    (get_data_path : string -> string -> string -> data_result)
    (parsed : option pyval) :
  let dataset := Str.first (Str.split "/" path) in
  lookup dataset (stac_collections api) = Some r ->
  provider r = Provider get_data_path ->
  get_data_path (base_url api ++ "/stac")%string path
    (Str.replace_first dataset "" path) = DataRaw parsed ->
  exists headers_,
    fst (get_stac_path api request (PStr path)) = Ret (headers_, OK, Raw parsed)
    /\ lookup "Content-Type" headers_ = None
    /\ forall k, k <> "Content-Type" ->
         lookup k headers_
         = lookup k (get_response_headers request (api_headers api)).
Proof.
  intros dataset Hr Hp Hdata. eexists. split; [| split].
  - unfold get_stac_path. fold dataset. rewrite Hr, Hp, Hdata. reflexivity.
  - apply lookup_pop_same.
  - intros k Hk. apply lookup_pop_other, Hk.
Qed.

Lemma file_response_witness :
  fst (get_stac_path (ext := Sample.geo) (Paths.linked (DataRaw None))
         (More.html PNone) (PStr "col/a.tif"))
  = Ret ([], OK, Raw None).
Proof.
  destruct (@file_response Sample.geo (Paths.linked (DataRaw None))
              (More.html PNone) "col/a.tif" _ _ None eq_refl eq_refl eq_refl)
    as (headers_ & Hf & _ & _).
  rewrite Hf. vm_compute in Hf. injection Hf as <-. reflexivity.
Defined.

(** ** The collections listing, one collection at a time *)

Section Rounds.

Context {ext : Collaborators}.
Variable api : API.
Variable request : APIRequest.
Variable dir_tokens : list string.

Let step := collection_step api request dir_tokens.

Lemma collections_loop_failure (before after : list string) (dataset : string)
    (resp : response) (acc : list pyval) :
  (forall x, In x before -> exists c, fst (step x) = Ret (inr c)) ->
  fst (step dataset) = Ret (inl resp) ->
  collections_loop api request dir_tokens (before ++ dataset :: after) acc
  = (Ret (inl resp), flat_map (fun x => snd (step x)) (before ++ [dataset])).
Proof.
  subst step. intros Hbefore Hfail. revert acc.
  induction before as [| x before IH]; intros acc.
  - cbn [app collections_loop flat_map].
    destruct (collection_step api request dir_tokens dataset) as [o t].
    cbn [fst] in Hfail. subst o. cbn [bind ret snd]. reflexivity.
  - cbn [app collections_loop flat_map].
    destruct (Hbefore x (or_introl eq_refl)) as [c Hc].
    destruct (collection_step api request dir_tokens x) as [o t].
    cbn [fst] in Hc. subst o. cbn [bind snd].
    rewrite IH by (intros y Hy; apply Hbefore; right; exact Hy).
    reflexivity.
Qed.

End Rounds.

(** X18: the listing is all or nothing: when the provider of one collection
    answers with an error (or cannot be connected) while those before it
    gave their documents, the listing as a whole is that error response,
    and the collections after it are not contacted at all. *)
Theorem listing_stops_at_failure `{Collaborators} (api : API)
    (request : APIRequest) (path : string) (before after : list string)
    (dataset : string) (resp : response) :
  let dir_tokens := Str.split "/" path in
  is_valid request = true ->
  datasets_of api dir_tokens = before ++ dataset :: after ->
  (forall x, In x before ->
     exists c, fst (collection_step api request dir_tokens x) = Ret (inr c)) ->
  fst (collection_step api request dir_tokens dataset) = Ret (inl resp) ->
  get_stac_collections api request path
  = (Ret resp,
     flat_map (fun x => snd (collection_step api request dir_tokens x))
              (before ++ [dataset])).
Proof.
  intros dir_tokens Hvalid Hds Hbefore Hfail.
  unfold get_stac_collections. rewrite Hvalid. cbn [negb]. fold dir_tokens.
  rewrite Hds.
  rewrite (collections_loop_failure api request dir_tokens before after
             dataset resp [] Hbefore Hfail).
  cbn [bind ret]. rewrite app_nil_r. reflexivity.
Qed.

Lemma listing_stops_at_failure_witness :
  get_stac_collections (ext := Sample.geo) Listings.broken_api
    (Sample.post PNone) "collections"
  = (Ret (get_exception INTERNAL_SERVER_ERROR [] (Some F_JSON)
            "NoApplicableCode" "connection error (check logs)"),
     [LoadPlugin "c1"; GetDataPath "c1" ""; LoadPlugin "c2"]).
Proof.
  apply (@listing_stops_at_failure Sample.geo Listings.broken_api
           (Sample.post PNone) "collections" ["c1"] ["c3"] "c2" _
           eq_refl eq_refl).
  - intros x [<- | []]. eexists. reflexivity.
  - reflexivity.
Defined.

(** ** The document of a listed collection *)

Lemma extend_links_spec (content_ : dict) (r : resource) (l : list pyval) :
  links r <> [] ->
  Dict.get "links" content_ = Some (PList l) ->
  exists extended,
    extend_links content_ (links r) = Ret extended
    /\ (forall k, k <> "links" -> Dict.get k extended = Dict.get k content_)
    /\ Dict.get "links" extended = Some (PList (l ++ appended_links r)).
Proof.
  intros Hcfg Hl. unfold extend_links, appended_links.
  destruct (links r) as [| [| kv first] more]; [contradiction | |].
  - exists content_. rewrite app_nil_r. auto.
  - rewrite Hl. eexists. split; [reflexivity |]. split.
    + intros k Hk. apply dict_get_set_other, Hk.
    + apply dict_get_set_same.
Qed.

Lemma dict_get_del_same (k : string) (d : dict) :
  Dict.get k (Dict.del k d) = None.
Proof.
  unfold Dict.del. induction d as [| [x v] d IH]; [reflexivity |].
  cbn [filter fst]. destruct (String.eqb k x) eqn:Hk; cbn [negb]; [exact IH |].
  cbn [Dict.get]. rewrite Hk. exact IH.
Qed.

Section Listed.

Context {ext : Collaborators}.
Variable api : API.
Variable request : APIRequest.
Variable path : string.
Variable r : resource.
Variable get_data_path : string -> string -> string -> data_result.
Variable stac_data : dict.

Let dir_tokens := Str.split "/" path.
Let dataset := Str.last dir_tokens.
Let headers_ := get_response_headers request (api_headers api).

Hypothesis valid : is_valid request = true.
Hypothesis one : String.length (Str.first dir_tokens) = 2%nat.
Hypothesis configured : lookup dataset (stac_collections api) = Some r.
Hypothesis loaded : provider r = Provider get_data_path.
Hypothesis served :
  get_data_path (base_url api ++ "/stac")%string dataset "" = DataDict stac_data.

Lemma single_listing (content_ : dict) :
  collection_content request dir_tokens dataset r stac_data = Ret content_ ->
  fst (get_stac_collections api request path)
  = Ret (headers_, OK, Json (PDict content_)).
Proof.
  intros Hc. unfold get_stac_collections. rewrite valid. cbn [negb].
  fold dir_tokens. unfold datasets_of. rewrite one. cbn [Nat.eqb].
  fold dataset. cbn [collections_loop]. unfold collection_step.
  rewrite configured, loaded, served, Hc. reflexivity.
Qed.

Hypothesis unique_keys : NoDup (Dict.keys stac_data).
Hypothesis links_configured : links r <> [].
Hypothesis links_listed :
  Dict.get "links" stac_data = None
  \/ exists l, Dict.get "links" stac_data = Some (PList l).

Let merged := Dict.update (envelope request dataset r) stac_data.

Lemma merged_get (k : string) :
  Dict.get k merged
  = match Dict.get k stac_data with
    | Some v => Some v
    | None => Dict.get k (envelope request dataset r)
    end.
Proof. apply dict_get_update, unique_keys. Qed.

Lemma listed_collection (title : string) :
  Dict.get "type" stac_data = Some (PStr "Collection") ->
  Dict.get "title" stac_data = Some (PStr title) ->
  exists content_,
    collection_content request dir_tokens dataset r stac_data = Ret content_
    /\ Dict.get "title" content_
       = Some (PStr (if (1 <? List.length dir_tokens)%nat
                     then dataset ++ "/" ++ title else title))
    /\ forall k, k <> "title" -> k <> "links" ->
         Dict.get k content_ = Dict.get k merged.
Proof.
  intros Hty Htitle. unfold collection_content. fold merged.
  cbn [getitem]. rewrite merged_get, Hty. cbn [obind].
  change (is_str (PStr "Collection") "Collection") with true. cbn [andb].
  assert (Hpre : exists prefixed,
            (if (1 <? List.length dir_tokens)%nat
             then prefix_title dataset merged else Ret merged) = Ret prefixed
            /\ Dict.get "title" prefixed
               = Some (PStr (if (1 <? List.length dir_tokens)%nat
                             then dataset ++ "/" ++ title else title))
            /\ forall k, k <> "title" ->
                 Dict.get k prefixed = Dict.get k merged).
  { destruct (1 <? List.length dir_tokens)%nat.
    - unfold prefix_title. rewrite merged_get, Htitle.
      eexists. split; [reflexivity |]. split.
      + apply dict_get_set_same.
      + intros k Hk. apply dict_get_set_other, Hk.
    - exists merged. split; [reflexivity |]. split; [| reflexivity].
      rewrite merged_get, Htitle. reflexivity. }
  destruct Hpre as (prefixed & -> & Ht & Hrest). cbn [obind].
  destruct (extend_links_spec prefixed r (provider_links stac_data)
              links_configured) as (extended & -> & Hsame & _).
  { rewrite Hrest by discriminate.
    apply (merged_links request dataset r stac_data unique_keys links_listed). }
  cbn [obind]. rewrite Hsame, Hrest, merged_get, Hty by discriminate.
  cbn [obind]. change (is_str (PStr "Collection") "Feature") with false.
  cbv iota. exists extended. split; [reflexivity |]. split.
  - rewrite Hsame by discriminate. exact Ht.
  - intros k Hk Hl. rewrite Hsame by exact Hl. apply Hrest, Hk.
Qed.

Lemma listed_feature (assets : dict) :
  Dict.get "type" stac_data = Some (PStr "Feature") ->
  Dict.get "assets" stac_data = Some (PDict assets) ->
  exists content_,
    collection_content request dir_tokens dataset r stac_data = Ret content_
    /\ Dict.get "assets" content_ = Some (PDict (Dict.del "default" assets))
    /\ forall k, k <> "assets" -> k <> "links" ->
         Dict.get k content_ = Dict.get k merged.
Proof.
  intros Hty Hassets. unfold collection_content. fold merged.
  cbn [getitem]. rewrite merged_get, Hty. cbn [obind].
  change (is_str (PStr "Feature") "Collection") with false. cbn [andb obind].
  destruct (extend_links_spec merged r (provider_links stac_data)
              links_configured) as (extended & -> & Hsame & _).
  { apply (merged_links request dataset r stac_data unique_keys links_listed). }
  cbn [obind]. rewrite Hsame, merged_get, Hty by discriminate.
  cbn [obind]. change (is_str (PStr "Feature") "Feature") with true. cbv iota.
  unfold drop_default_asset.
  rewrite Hsame, merged_get, Hassets by discriminate.
  eexists. split; [reflexivity |]. split.
  - apply dict_get_set_same.
  - intros k Hk Hl. rewrite dict_get_set_other by exact Hk.
    apply Hsame, Hl.
Qed.

End Listed.

(** X19: the document listed for one collection, when the provider gives a
    Collection, has its title prefixed with the name of the collection and
    a slash whenever the path has more than one token; its other members
    but the links are those of the provider's document laid over the
    envelope. *)
Theorem listed_collection_title `{Collaborators} (api : API)
    (request : APIRequest) (path : string) (r : resource)
    (get_data_path : string -> string -> string -> data_result)
    (stac_data : dict) (title : string) :
  let dir_tokens := Str.split "/" path in
  let dataset := Str.last dir_tokens in
  is_valid request = true ->
  String.length (Str.first dir_tokens) = 2%nat ->
  lookup dataset (stac_collections api) = Some r ->
  provider r = Provider get_data_path ->
  get_data_path (base_url api ++ "/stac")%string dataset "" = DataDict stac_data ->
  NoDup (Dict.keys stac_data) ->
  links r <> [] ->
  (Dict.get "links" stac_data = None
   \/ exists l, Dict.get "links" stac_data = Some (PList l)) ->
  Dict.get "type" stac_data = Some (PStr "Collection") ->
  Dict.get "title" stac_data = Some (PStr title) ->
  exists content_,
    fst (get_stac_collections api request path)
    = Ret (get_response_headers request (api_headers api), OK,
           Json (PDict content_))
    /\ Dict.get "title" content_
       = Some (PStr (if (1 <? List.length dir_tokens)%nat
                     then dataset ++ "/" ++ title else title))
    /\ forall k, k <> "title" -> k <> "links" ->
         Dict.get k content_
         = Dict.get k (Dict.update (envelope request dataset r) stac_data).
Proof.
  intros dir_tokens dataset Hvalid Hone Hr Hp Hdata Hnd Hcfg Hlinks Hty Ht.
  destruct (listed_collection request path r stac_data Hnd Hcfg Hlinks title
              Hty Ht) as (content_ & Hc & Htitle & Hrest).
  exists content_. split; [| split; assumption].
  apply (single_listing api request path r get_data_path stac_data
           Hvalid Hone Hr Hp Hdata content_ Hc).
Qed.

Lemma listed_collection_title_witness :
  exists content_,
    fst (get_stac_collections (ext := Sample.geo)
           (Paths.serving (DataDict (Listings.titled "Collection" "Scenes")))
           (Sample.post PNone) "id/col")
    = Ret ([], OK, Json (PDict content_))
    /\ Dict.get "title" content_ = Some (PStr "col/Scenes").
Proof.
  destruct (@listed_collection_title Sample.geo
              (Paths.serving (DataDict (Listings.titled "Collection" "Scenes")))
              (Sample.post PNone) "id/col" _ _
              (Listings.titled "Collection" "Scenes") "Scenes"
              eq_refl eq_refl eq_refl eq_refl eq_refl)
    as (content_ & Hc & Ht & _).
  - repeat constructor; simpl; intuition discriminate.
  - discriminate.
  - left. reflexivity.
  - reflexivity.
  - reflexivity.
  - exists content_. split; [exact Hc | exact Ht].
Defined.

(** X20: the document listed for one collection, when the provider gives a
    Feature with assets, is listed without its default asset: the other
    assets and the other members but the links are as the provider gave
    them. *)
Theorem listed_feature_default_asset `{Collaborators} (api : API)
    (request : APIRequest) (path : string) (r : resource)
    (get_data_path : string -> string -> string -> data_result)
    (stac_data assets : dict) :
  let dir_tokens := Str.split "/" path in
  let dataset := Str.last dir_tokens in
  is_valid request = true ->
  String.length (Str.first dir_tokens) = 2%nat ->
  lookup dataset (stac_collections api) = Some r ->
  provider r = Provider get_data_path ->
  get_data_path (base_url api ++ "/stac")%string dataset "" = DataDict stac_data ->
  NoDup (Dict.keys stac_data) ->
  links r <> [] ->
  (Dict.get "links" stac_data = None
   \/ exists l, Dict.get "links" stac_data = Some (PList l)) ->
  Dict.get "type" stac_data = Some (PStr "Feature") ->
  Dict.get "assets" stac_data = Some (PDict assets) ->
  exists content_ listed,
    fst (get_stac_collections api request path)
    = Ret (get_response_headers request (api_headers api), OK,
           Json (PDict content_))
    /\ Dict.get "assets" content_ = Some (PDict listed)
    /\ Dict.get "default" listed = None
    /\ (forall k, k <> "default" -> Dict.get k listed = Dict.get k assets)
    /\ forall k, k <> "assets" -> k <> "links" ->
         Dict.get k content_
         = Dict.get k (Dict.update (envelope request dataset r) stac_data).
Proof.
  intros dir_tokens dataset Hvalid Hone Hr Hp Hdata Hnd Hcfg Hlinks Hty Ha.
  destruct (listed_feature request path r stac_data Hnd Hcfg Hlinks assets
              Hty Ha) as (content_ & Hc & Hassets & Hrest).
  exists content_, (Dict.del "default" assets).
  split; [| split; [exact Hassets | split; [| split]]].
  - apply (single_listing api request path r get_data_path stac_data
             Hvalid Hone Hr Hp Hdata content_ Hc).
  - apply dict_get_del_same.
  - intros k Hk. apply dict_get_del_other, Hk.
  - exact Hrest.
Qed.

Lemma listed_feature_default_asset_witness :
  exists content_,
    fst (get_stac_collections (ext := Sample.geo)
           (Paths.serving (DataDict (Listings.titled "Feature" "Scene")))
           (Sample.post PNone) "id/col")
    = Ret ([], OK, Json (PDict content_))
    /\ Dict.get "assets" content_ = Some (PDict [("image", PDict [])]).
Proof.
  destruct (@listed_feature_default_asset Sample.geo
              (Paths.serving (DataDict (Listings.titled "Feature" "Scene")))
              (Sample.post PNone) "id/col" _ _
              (Listings.titled "Feature" "Scene")
              [("default", PDict []); ("image", PDict [])]
              eq_refl eq_refl eq_refl eq_refl eq_refl)
    as (content_ & listed & Hc & Ha & _).
  - repeat constructor; simpl; intuition discriminate.
  - discriminate.
  - left. reflexivity.
  - reflexivity.
  - reflexivity.
  - exists content_. split; [exact Hc |].
    vm_compute in Hc. injection Hc as <-. reflexivity.
Defined.

(** ** From a link to a path *)

Lemma split_none (sep cur s : string) :
  occurs sep s = false -> Str.split_go sep 0 cur s = [(cur ++ s)%string].
Proof.
  revert cur. induction s as [| c s IH]; intros cur Hs.
  - cbn [Str.split_go]. rewrite append_nil_r. reflexivity.
  - cbn [occurs] in Hs. apply orb_false_elim in Hs. destruct Hs as [Hp Hs].
    cbn [Str.split_go]. rewrite Hp, (IH _ Hs), append_assoc. reflexivity.
Qed.

Lemma prefix_stac (c : ascii) (rest : string) :
  String.prefix "stac" (String c rest) = true ->
  exists rest', rest = ("tac" ++ rest')%string.
Proof.
  destruct rest as [| c1 [| c2 [| c3 rest']]]; cbn [String.prefix];
    destruct (ascii_dec "s" c); try discriminate.
  - destruct (ascii_dec "t" c1); discriminate.
  - destruct (ascii_dec "t" c1); try discriminate.
    destruct (ascii_dec "a" c2); discriminate.
  - destruct (ascii_dec "t" c1) as [<- |]; try discriminate.
    destruct (ascii_dec "a" c2) as [<- |]; try discriminate.
    destruct (ascii_dec "c" c3) as [<- |]; try discriminate.
    intros _. exists rest'. reflexivity.
Qed.

Lemma stac_not_inside (pre k rest : string) :
  (pre ++ "stac" ++ k = "tac" ++ rest)%string ->
  exists pre', pre = ("tac" ++ pre')%string.
Proof.
  destruct pre as [| a [| b [| c pre']]]; cbn [append]; intros Heq;
    try discriminate.
  injection Heq as -> -> -> _. exists pre'. reflexivity.
Qed.

Lemma split_stac_last (n : nat) (pre k cur : string) :
  (String.length pre <= n)%nat ->
  occurs "stac" k = false ->
  Str.last (Str.split_go "stac" 0 cur (pre ++ "stac" ++ k)) = k.
Proof.
  intros Hlen Hk. revert pre cur Hlen.
  induction n as [| n IH]; intros pre cur Hlen.
  - destruct pre; [| cbn [String.length] in Hlen; lia].
    change ("" ++ "stac" ++ k)%string with (String "s" ("tac" ++ k)).
    cbn [Str.split_go].
    assert (Hp : String.prefix "stac" (String "s" ("tac" ++ k)) = true)
      by exact (prefix_append "stac" k).
    rewrite Hp. cbn [append Str.split_go String.length Nat.sub].
    rewrite (split_none "stac" "" k Hk). reflexivity.
  - destruct pre as [| c pre].
    + apply IH. cbn. lia.
    + cbn [String.length] in Hlen.
      change (String c pre ++ "stac" ++ k)%string
        with (String c (pre ++ "stac" ++ k)).
      cbn [Str.split_go].
      destruct (String.prefix "stac" (String c (pre ++ "stac" ++ k))) eqn:Hp.
      * apply prefix_stac in Hp. destruct Hp as [rest Hrest].
        destruct (stac_not_inside pre k rest Hrest) as [pre' ->].
        rewrite last_cons_nonempty by apply split_go_nonempty.
        cbn [append Str.split_go String.length Nat.sub].
        apply (IH pre' EmptyString).
        cbn [append String.length] in Hlen. lia.
      * apply IH. lia.
Qed.

(** X21: the path taken from a link is what follows the last [stac] of its
    href, less its first character: for a link under [<base>/stac/] that is
    the path below it when the path has no [stac] in it, and a path with
    [stac] in it (a collection named so) loses everything up to there. *)
Theorem href_path_after_last_stac (pre k : string) :
  occurs "stac" k = false ->
  href_path (PStr (pre ++ "stac" ++ k)) = Ret (PStr (Str.tail k)).
Proof.
  intros Hk. unfold href_path, Str.split.
  rewrite (split_stac_last (String.length pre) pre k "" (le_n _) Hk).
  reflexivity.
Qed.

Lemma href_path_after_last_stac_witness :
  href_path (PStr "http://stac.example.org/stac/col/A")
  = Ret (PStr "col/A")
  /\ href_path (PStr "http://h/stac/my-stac-items/A") = Ret (PStr "items/A").
Proof.
  split.
  - apply (href_path_after_last_stac "http://stac.example.org/" "/col/A").
    reflexivity.
  - apply (href_path_after_last_stac "http://h/stac/my-" "-items/A").
    reflexivity.
Defined.

(** ** What the answer of a search holds *)

Lemma filter_perm {A} (p : A -> bool) (l : list A) :
  Permutation l (filter p l ++ filter (fun x => negb (p x)) l).
Proof.
  induction l as [| a l IH]; [constructor |].
  cbn [filter]. destruct (p a); cbn [negb app].
  - constructor. exact IH.
  - apply Permutation_cons_app. exact IH.
Qed.

Lemma select_perm (found : list nat) (result : list pyval) :
  exists rest, Permutation result (select found result ++ rest).
Proof.
  unfold select.
  set (l := combine (seq 0 (List.length result)) result).
  set (p := fun ir : nat * pyval => existsb (Nat.eqb (fst ir)) found).
  exists (map snd (filter (fun x => negb (p x)) l)).
  rewrite <- map_app.
  destruct (combine_fst_snd (seq 0 (List.length result)) result
              (length_seq _ _)) as [_ Hsnd].
  rewrite <- Hsnd at 1. apply Permutation_map, filter_perm.
Qed.

Lemma slice_to_prefix (max_items : pyval) (l features : list pyval) :
  slice_to max_items l = Ret features ->
  exists dropped, l = features ++ dropped.
Proof.
  assert (Hint : forall z, exists dropped, l = slice_int z l ++ dropped).
  { intros z. unfold slice_int.
    destruct (0 <=? z)%Z; eexists; symmetry; apply firstn_skipn. }
  destruct max_items; cbn [slice_to]; intros Hs; try discriminate;
    injection Hs as <-.
  - exists []. rewrite app_nil_r. reflexivity.
  - apply Hint.
  - apply Hint.
Qed.

(** X22: whatever the filters, the sortby and the max_items are, a 200
    answer of the filter stage is a FeatureCollection whose features are
    some of the items found under the collections, each taken at most as
    often as it was found: nothing is invented or repeated by filtering,
    sorting and truncating. *)
Theorem answer_within_discovered `{Collaborators} (headers_ : headers)
    (request : APIRequest) (queries : dict) (criteria : list string)
    (sortby max_items : pyval) (result : list pyval) (resp : response) :
  filter_and_assemble headers_ request queries criteria sortby max_items
    result = Ret resp ->
  status_of resp = OK ->
  exists features rest,
    body resp = Json (feature_collection features)
    /\ Permutation result (features ++ rest).
Proof.
  intros Hfa Hok. unfold filter_and_assemble in Hfa. obind_inv Hfa.
  destruct v as [r | st].
  - injection Hfa as <-. apply filter_loop_response in Hv. subst r.
    discriminate.
  - obind_inv Hfa. injection Hfa as <-. unfold assemble in Hv0.
    obind_inv Hv0. obind_inv Hv0. injection Hv0 as <-.
    apply py_sorted_perm in Hv1. apply slice_to_prefix in Hv2.
    destruct Hv2 as [dropped ->].
    destruct (select_perm (kept_indices st result) result) as [rest Hsel].
    exists v1, (dropped ++ rest). split; [reflexivity |].
    rewrite app_assoc. etransitivity; [exact Hsel |].
    apply Permutation_app_tail, Hv1.
Qed.

Lemma answer_within_discovered_witness :
  exists features rest,
    body ([], OK, Json (feature_collection [Sample.item_X]))
    = Json (feature_collection features)
    /\ Permutation [Sample.item_Y; Sample.item_X] (features ++ rest).
Proof.
  apply (@answer_within_discovered Sample.geo [] (Sample.post PNone)
           Sample.bbox_query ["bbox"] (PDict [("field", PStr "")]) (PInt (-1))
           [Sample.item_Y; Sample.item_X]
           ([], OK, Json (feature_collection [Sample.item_X]))
           eq_refl eq_refl).
Defined.

(** ** The provider calls of the operations *)

Lemma calls_app (api : API) (t1 t2 : list event) :
  provider_calls api t1 -> provider_calls api t2 ->
  provider_calls api (t1 ++ t2).
Proof.
  intros H1 H2. induction H1; cbn [app]; [exact H2 | |].
  - eapply calls_load; eauto.
  - eapply calls_ask; eauto.
Qed.

Lemma calls_bind (api : API) {A B} (m : M A) (f : A -> M B) :
  provider_calls api (snd m) ->
  (forall a, provider_calls api (snd (f a))) ->
  provider_calls api (snd (bind m f)).
Proof.
  intros Hm Hf. destruct m as [[a | e |] t]; cbn [bind snd] in *;
    try exact Hm.
  specialize (Hf a). destruct (f a) as [o t']. cbn [snd] in *.
  apply calls_app; assumption.
Qed.

Lemma calls_lift (api : API) {A} (o : outcome A) :
  provider_calls api (snd (lift o)).
Proof. constructor. Qed.

Lemma calls_ret (api : API) {A} (a : A) : provider_calls api (snd (ret a)).
Proof. constructor. Qed.

Lemma calls_mmap (api : API) {A B} (f : A -> M B) (l : list A) :
  (forall a, provider_calls api (snd (f a))) ->
  provider_calls api (snd (mmap f l)).
Proof.
  intros Hf. induction l as [| x l IH]; [constructor |].
  cbn [mmap]. apply calls_bind; [apply Hf |]. intros y.
  apply calls_bind; [exact IH |]. intros ys. apply calls_ret.
Qed.

Lemma stac_lookup (api : API) (dataset : string) (r : resource) :
  lookup dataset (stac_collections api) = Some r ->
  In (dataset, r) (resources api) /\ rtype r = "stac-collection".
Proof.
  unfold stac_collections. intros Hl.
  assert (Hin : In (dataset, r)
                  (filter (fun kv => String.eqb (rtype (snd kv)) "stac-collection")
                          (resources api))).
  { induction (filter _ (resources api)) as [| [k v] l IH]; [discriminate |].
    cbn [lookup] in Hl. destruct (String.eqb_spec dataset k) as [-> | _].
    - injection Hl as ->. left. reflexivity.
    - right. apply IH, Hl. }
  apply filter_In in Hin. destruct Hin as [Hin Hty].
  split; [exact Hin | apply String.eqb_eq, Hty].
Qed.

Section Calls.

Context {ext : Collaborators}.
Variable api : API.
Variable request : APIRequest.

Lemma calls_path (path : pyval) :
  provider_calls api (snd (get_stac_path api request path)).
Proof.
  unfold get_stac_path. destruct path; try apply calls_lift.
  destruct (lookup _ (stac_collections api)) as [r |] eqn:Hr;
    [| apply calls_ret].
  apply stac_lookup in Hr. destruct Hr as [Hin Hty].
  destruct (provider r) as [get_data_path | |] eqn:Hp.
  - destruct (get_data_path _ _ _); cbn;
      (eapply calls_ask; [exact Hin | exact Hty | exact Hp | constructor]).
  - cbn. eapply calls_load; [exact Hin | exact Hty | constructor].
  - cbn. eapply calls_load; [exact Hin | exact Hty | constructor].
Qed.

Lemma calls_step (dir_tokens : list string) (dataset : string) :
  provider_calls api (snd (collection_step api request dir_tokens dataset)).
Proof.
  unfold collection_step.
  destruct (lookup _ (stac_collections api)) as [r |] eqn:Hr;
    [| apply calls_ret].
  apply stac_lookup in Hr. destruct Hr as [Hin Hty].
  destruct (provider r) as [get_data_path | |] eqn:Hp.
  - destruct (get_data_path _ _ _); cbn;
      (eapply calls_ask; [exact Hin | exact Hty | exact Hp | constructor]).
  - cbn. eapply calls_load; [exact Hin | exact Hty | constructor].
  - cbn. eapply calls_load; [exact Hin | exact Hty | constructor].
Qed.

Lemma calls_loop (dir_tokens datasets : list string) (acc : list pyval) :
  provider_calls api
    (snd (collections_loop api request dir_tokens datasets acc)).
Proof.
  revert acc. induction datasets as [| d l IH]; intros acc; [constructor |].
  cbn [collections_loop]. apply calls_bind; [apply calls_step |].
  intros [resp | c]; [apply calls_ret | apply IH].
Qed.

Lemma calls_recursive (fuel : nat) (result : pyval) :
  provider_calls api (snd (_recursiveSearchItems api fuel request result)).
Proof.
  revert result. induction fuel as [| fuel IH]; intros result;
    [constructor |].
  cbn [_recursiveSearchItems].
  apply calls_bind; [apply calls_lift |]. intros paths.
  apply calls_bind; [apply calls_mmap, calls_path |]. intros responses.
  apply calls_bind; [apply calls_lift |]. intros docs.
  apply calls_bind; [apply calls_lift |]. intros items.
  apply calls_bind; [apply calls_lift |]. intros [| o others];
    [apply calls_ret |].
  apply calls_bind; [apply calls_lift |]. intros recursive.
  apply calls_bind; [apply IH |]. intros tmp. apply calls_ret.
Qed.

Lemma calls_flatten (fuel : nat) (queries : dict) :
  provider_calls api (snd (flatten_collections api fuel request queries)).
Proof.
  unfold flatten_collections.
  apply calls_bind; [apply calls_lift |]. intros collections.
  apply calls_bind; [apply calls_mmap, calls_path |]. intros r1.
  apply calls_bind; [apply calls_lift |]. intros r2.
  apply calls_bind; [apply calls_lift |]. intros r3.
  apply calls_bind; [apply calls_mmap, calls_recursive |]. intros r4.
  apply calls_ret.
Qed.

Lemma calls_search (fuel : nat) (method : string) :
  provider_calls api (snd (get_stac_search api fuel request method)).
Proof.
  unfold get_stac_search. destruct (negb (is_valid request));
    [apply calls_ret |].
  apply calls_bind; [apply calls_lift |]. intros queries.
  apply calls_bind; [apply calls_lift |]. intros max_items.
  apply calls_bind; [apply calls_lift |]. intros sortby.
  destruct (mem_str "bbox" _ && mem_str "intersects" _); [apply calls_ret |].
  apply calls_bind; [apply calls_lift |]. intros cq.
  apply calls_bind; [apply calls_flatten |]. intros result.
  apply calls_lift.
Qed.

Lemma calls_collections (path : string) :
  provider_calls api (snd (get_stac_collections api request path)).
Proof.
  unfold get_stac_collections. destruct (negb (is_valid request));
    [apply calls_ret |].
  apply calls_bind; [apply calls_loop |].
  intros [resp | [| c [| c' cs]]]; apply calls_ret.
Qed.

End Calls.

(** X23: whatever the request is and however the operation ends, the path,
    collections and search operations load a provider plugin only for a
    resource configured with the type stac-collection, and ask for data
    only from a plugin they have just loaded. *)
Theorem only_stac_providers_called `{Collaborators} (api : API)
    (request : APIRequest) :
  (forall path, provider_calls api (snd (get_stac_path api request path)))
  /\ (forall path,
        provider_calls api (snd (get_stac_collections api request path)))
  /\ (forall fuel method,
        provider_calls api (snd (get_stac_search api fuel request method))).
Proof.
  split; [| split].
  - apply calls_path.
  - apply calls_collections.
  - intros fuel method. apply calls_search.
Qed.

(** ** Links that are not followed *)

Lemma descend_hrefs_navigation (before after : list pyval) (nav rel : pyval) :
  getitem nav "rel" = Ret rel ->
  navigation_rel rel = true ->
  descend_hrefs (before ++ nav :: after) = descend_hrefs (before ++ after).
Proof.
  intros Hrel Hnav. induction before as [| l before IH].
  - cbn [app descend_hrefs]. rewrite Hrel. cbn [obind].
    unfold navigation_rel in Hnav.
    destruct (is_str rel "root"), (is_str rel "self"), (is_str rel "parent");
      try discriminate; reflexivity.
  - cbn [app descend_hrefs]. rewrite IH. reflexivity.
Qed.

(** X24: a link whose rel is root, self or parent has no part in the
    recursive search: taking it out of the links leaves the items found, the
    provider calls made and the way the search ends as they were. *)
Theorem navigation_links_ignored `{Collaborators} (api : API)
    (request : APIRequest) (before after : list pyval) (nav rel : pyval)
    (fuel : nat) :
  getitem nav "rel" = Ret rel ->
  navigation_rel rel = true ->
  _recursiveSearchItems api fuel request (PList (before ++ nav :: after))
  = _recursiveSearchItems api fuel request (PList (before ++ after)).
Proof.
  intros Hrel Hnav. destruct fuel as [| fuel]; [reflexivity |].
  cbn [_recursiveSearchItems py_iter obind].
  rewrite (descend_hrefs_navigation before after nav rel Hrel Hnav).
  reflexivity.
Qed.

Lemma navigation_links_ignored_witness :
  _recursiveSearchItems (ext := Sample.geo) Sample.nested_api 3
    (Sample.post PNone)
    (PList (Sample.json_link "parent" "http://h/stac/col" :: Sample.nested_links))
  = _recursiveSearchItems (ext := Sample.geo) Sample.nested_api 3
      (Sample.post PNone) (PList Sample.nested_links).
Proof.
  apply (@navigation_links_ignored Sample.geo Sample.nested_api
           (Sample.post PNone) [] Sample.nested_links
           (Sample.json_link "parent" "http://h/stac/col") (PStr "parent") 3
           eq_refl eq_refl).
Defined.

(** ** The items of several collections *)

Lemma fst_bind {A B} (m : M A) (f : A -> M B) :
  fst (bind m f) = (a <~ fst m ;; fst (f a)).
Proof.
  destruct m as [[a | e |] t]; cbn [bind fst obind]; try reflexivity.
  destruct (f a); reflexivity.
Qed.

Lemma fst_mmap {A B} (f : A -> M B) (l : list A) :
  fst (mmap f l) = omap (fun x => fst (f x)) l.
Proof.
  induction l as [| x l IH]; [reflexivity |].
  cbn [mmap omap]. rewrite fst_bind. apply obind_ext; intros y.
  rewrite fst_bind, IH. reflexivity.
Qed.

Lemma omap_concat {A B} (f : A -> outcome B) (l1 l2 : list A)
    (r1 r2 : list B) :
  omap f l1 = Ret r1 -> omap f l2 = Ret r2 ->
  omap f (l1 ++ l2) = Ret (r1 ++ r2).
Proof.
  revert r1. induction l1 as [| a l1 IH]; intros r1 H1 H2.
  - injection H1 as <-. exact H2.
  - cbn [omap app] in *. obind_inv H1. obind_inv H1. injection H1 as <-.
    rewrite Hv, (IH _ Hv0 H2). reflexivity.
Qed.

Lemma links_of_collections_concat (d1 d2 l1 l2 : list pyval) :
  links_of_collections d1 = Ret l1 -> links_of_collections d2 = Ret l2 ->
  links_of_collections (d1 ++ d2) = Ret (l1 ++ l2).
Proof.
  revert l1. induction d1 as [| d d1 IH]; intros l1 H1 H2.
  - injection H1 as <-. exact H2.
  - cbn [links_of_collections app] in *. destruct d; try discriminate.
    obind_inv H1. injection H1 as <-. rewrite (IH _ Hv H2). cbn [obind].
    destruct (given "links" d); reflexivity.
Qed.

Section Several.

Context {ext : Collaborators}.
Variable api : API.
Variable fuel : nat.
Variable request : APIRequest.

(** the items under the collections [names], without the provider calls *)
Let items_under (names : list pyval) : outcome (list pyval) :=
  responses <~ omap (fun c => fst (get_stac_path api request c)) names ;;
  docs <~ omap (fun r => json_loads (body r)) responses ;;
  links_ <~ links_of_collections docs ;;
  found <~ omap (fun l => fst (_recursiveSearchItems api fuel request l))
                links_ ;;
  Ret (List.concat found).

Lemma flatten_items (queries : dict) (names : list pyval) :
  Dict.get "collections" queries = Some (PList names) ->
  fst (flatten_collections api fuel request queries) = items_under names.
Proof.
  intros Hq. unfold flatten_collections, items_under.
  cbn [getitem]. rewrite Hq. cbn [obind py_iter]. rewrite bind_ret_l.
  rewrite fst_bind, fst_mmap. apply obind_ext; intros responses.
  rewrite fst_bind. cbn [lift fst]. apply obind_ext; intros docs.
  rewrite fst_bind. cbn [lift fst]. apply obind_ext; intros links_.
  rewrite fst_bind, fst_mmap. reflexivity.
Qed.

Lemma items_under_concat (names1 names2 items1 items2 : list pyval) :
  items_under names1 = Ret items1 ->
  items_under names2 = Ret items2 ->
  items_under (names1 ++ names2) = Ret (items1 ++ items2).
Proof.
  unfold items_under. intros H1 H2.
  obind_inv H1. obind_inv H1. obind_inv H1. obind_inv H1.
  injection H1 as <-.
  obind_inv H2. obind_inv H2. obind_inv H2. obind_inv H2.
  injection H2 as <-.
  rewrite (omap_concat _ _ _ _ _ Hv Hv3). cbn [obind].
  rewrite (omap_concat _ _ _ _ _ Hv0 Hv4). cbn [obind].
  rewrite (links_of_collections_concat _ _ _ _ Hv1 Hv5). cbn [obind].
  rewrite (omap_concat _ _ _ _ _ Hv2 Hv6). cbn [obind].
  rewrite concat_app. reflexivity.
Qed.

End Several.

(** X25: the items found under a list of collections are the items found
    under each of them, one collection after the other in the order of the
    query: for two lists of collections that both give their items, the
    list made of both gives the items of the first followed by those of the
    second (a collection named twice gives its items twice). *)
Theorem flatten_collections_concat `{Collaborators} (api : API) (fuel : nat)
    (request : APIRequest) (q1 q2 q : dict)
    (names1 names2 items1 items2 : list pyval) :
  Dict.get "collections" q1 = Some (PList names1) ->
  Dict.get "collections" q2 = Some (PList names2) ->
  Dict.get "collections" q = Some (PList (names1 ++ names2)) ->
  fst (flatten_collections api fuel request q1) = Ret items1 ->
  fst (flatten_collections api fuel request q2) = Ret items2 ->
  fst (flatten_collections api fuel request q) = Ret (items1 ++ items2).
Proof.
  intros Hq1 Hq2 Hq H1 H2.
  rewrite (flatten_items api fuel request _ _ Hq1) in H1.
  rewrite (flatten_items api fuel request _ _ Hq2) in H2.
  rewrite (flatten_items api fuel request _ _ Hq).
  apply items_under_concat; assumption.
Qed.

Lemma flatten_collections_concat_witness :
  exists x y,
    fst (flatten_collections (ext := Sample.geo) Sample.two_api 2
           (Sample.post PNone)
           [("collections", PList [PStr "c1"; PStr "c2"; PStr "c1"])])
    = Ret ([x; y] ++ [x]).
Proof.
  do 2 eexists.
  apply (@flatten_collections_concat Sample.geo Sample.two_api 2
           (Sample.post PNone)
           [("collections", PList [PStr "c1"; PStr "c2"])]
           [("collections", PList [PStr "c1"])]
           [("collections", PList [PStr "c1"; PStr "c2"; PStr "c1"])]
           [PStr "c1"; PStr "c2"] [PStr "c1"] _ _ eq_refl eq_refl eq_refl);
    vm_compute; reflexivity.
Defined.

(** ** The sortby of a GET request *)

Lemma get_sortby_string (request : APIRequest) (s : string) :
  lookup "sortby" (_args request) = Some s -> s <> EmptyString ->
  exists queries c,
    parse_queries request "GET" = Ret queries
    /\ read_sortby queries = Ret (PStr c).
Proof.
  intros Harg Hs. destruct s as [| c s]; [contradiction |].
  eexists. exists (String c EmptyString). split; [reflexivity |].
  unfold read_sortby, given, Dict.get_default, getitem.
  rewrite !split_param_get_other by discriminate.
  rewrite get_args_lookup, Harg. reflexivity.
Qed.

Lemma assemble_string_sortby (c : string) (max_items : pyval)
    (result : list pyval) (fc : pyval) :
  assemble result (PStr c) max_items = Ret fc ->
  fc = feature_collection [].
Proof.
  unfold assemble. destruct result as [| x result]; [| discriminate].
  cbn [py_sorted omap combine sort_keyed map obind List.length Z.of_nat].
  intros Ha. obind_inv Ha. injection Ha as <-.
  destruct (py_eq max_items (PInt (-1))).
  - injection Hv as <-. reflexivity.
  - destruct max_items; try discriminate; injection Hv as <-;
      unfold slice_int; try reflexivity;
      match goal with |- context [if ?b then _ else _] => destruct b end;
      rewrite ?firstn_nil; reflexivity.
Qed.

(** X26: the sortby parameter of a GET request cannot sort: it stays a
    string, its first character is taken for the sortby entry, and reading
    the field of that raises as soon as there is an item to sort. Such a
    request is answered 200 only with no feature at all. *)
Theorem get_sortby_never_sorts `{Collaborators} (api : API) (fuel : nat)
    (request : APIRequest) (s : string) (resp : response) :
  is_valid request = true ->
  lookup "sortby" (_args request) = Some s ->
  s <> EmptyString ->
  fst (get_stac_search api fuel request "GET") = Ret resp ->
  status_of resp = OK ->
  body resp = Json (feature_collection []).
Proof.
  intros Hvalid Harg Hs Hret Hok.
  destruct (get_sortby_string request s Harg Hs) as (queries & c & Hp & Hsort).
  apply fst_ret in Hret. destruct Hret as [t Hret].
  unfold get_stac_search in Hret. rewrite Hvalid, Hp in Hret.
  simpl negb in Hret. cbv iota in Hret. rewrite bind_ret_l in Hret.
  apply bind_ret_inv in Hret.
  destruct Hret as (max_items & t1 & t2 & _ & Hret & _).
  rewrite Hsort, bind_ret_l in Hret.
  destruct (mem_str "bbox" _ && mem_str "intersects" _).
  - injection Hret as <- _. discriminate.
  - apply bind_ret_inv in Hret. destruct Hret as (cq & t3 & t4 & _ & Hret & _).
    apply bind_ret_inv in Hret.
    destruct Hret as (result & t5 & t6 & _ & Hret & _).
    apply lift_ret in Hret. unfold filter_and_assemble in Hret.
    obind_inv Hret. destruct v as [r | st].
    + injection Hret as <-. apply filter_loop_response in Hv. subst r.
      discriminate.
    + obind_inv Hret. injection Hret as <-.
      apply assemble_string_sortby in Hv0. subst v. reflexivity.
Qed.

Lemma get_sortby_never_sorts_witness :
  fst (get_stac_search (ext := Sample.geo) Sample.two_api 2
         (More.get [("sortby", "id")]) "GET") = Exn TypeError
  /\ body ([("Content-Type", "application/geo+json")], OK,
           Json (feature_collection []))
     = Json (feature_collection []).
Proof.
  split; [reflexivity |].
  apply (@get_sortby_never_sorts Sample.geo Sample.two_api 2
           (More.get [("sortby", "id"); ("ids", "")]) "id" _ eq_refl eq_refl).
  - discriminate.
  - reflexivity.
  - reflexivity.
Defined.
